(** * go-api: dispatch and session layer

    A shallow embedding of the Go package [goapi] (files [session.go],
    [chrono.go], [http.go], [response.go]) and the properties of its
    session store, checkpoint, controller resolver, dispatcher and static
    fallback.

    Conventions of the embedding.
    - Go pointers to [Session] are locations in an explicit heap; the global
      [activeSessions] map holds locations, so aliasing between the store and
      the pointer a request holds is visible.
    - The locks ([activeSessionsLock], [innerLock], [chronoSerMutex]) are not
      modelled: every operation is taken as one atomic step.
    - [time.Now], [utility.RandString] and the file system are explicit
      components of the world the operations run in.
    - What the package takes from other libraries (reflection in
      [go-utility], the RFC 3339 text of a [time.Time]) is a parameter.
    - Of [net/http] and [encoding/json] the development models what the
      package's behaviour depends on: the header map with its canonical
      keys, the check of the status code in [WriteHeader], and the text
      that the encoder writes for a string. *)

From stdpp Require Import gmap strings list fin_maps sorting.
From Stdlib Require Import ZArith QArith Ascii DecimalString DecimalZ.

#[local] Set Warnings "-register-all".
Local Open Scope string_scope.
Local Open Scope Z_scope.

(* ===================================================================== *)
(** * Go values                                                           *)
(* ===================================================================== *)

(** [time.Time]: the instant in nanoseconds since the Unix epoch, the zone
    offset in seconds, and the optional monotonic clock reading that
    [time.Now] attaches and that no text form carries. *)
Record Time := mkTime {
  unixNano : Z;
  zoneOffset : Z;
  monotonic : option Z
}.

(** The zero [time.Time{}]: January 1, year 1, 00:00:00 UTC. *)
Definition zeroTime : Time :=
  {| unixNano := -62135596800000000000; zoneOffset := 0; monotonic := None |}.

(** What survives of a [Time] in its RFC 3339 text with nanoseconds: the
    instant and the offset, not the monotonic reading. *)
Definition serialized (t : Time) : Time :=
  {| unixNano := unixNano t; zoneOffset := zoneOffset t; monotonic := None |}.

(** [t.Add(d)], [d] in nanoseconds. *)
Definition timeAdd (t : Time) (d : Z) : Time :=
  {| unixNano := unixNano t + d;
     zoneOffset := zoneOffset t;
     monotonic := (λ m, m + d) <$> monotonic t |}.

Definition minute : Z := 60 * 1000000000.

(** A finite [float64], denoted by the rational it equals. *)
Definition float64 := Q.

(** The conversion of a Go [int] to the nearest [float64] (ties to even):
    exact up to 2^53, rounded to 53 significant bits beyond. *)
Definition float64_of_int (n : Z) : float64 :=
  let a := Z.abs n in
  if a <? 2 ^ 53 then inject_Z n
  else
    let e := Z.log2 a - 52 in
    let q := Z.shiftr a e in
    let r := Z.land a (Z.ones e) in
    let half := 2 ^ (e - 1) in
    let q' := if r <? half then q
              else if half <? r then q + 1
              else if Z.even q then q else q + 1 in
    inject_Z (Z.sgn n * (q' * 2 ^ e)).

(** ** Strings as [encoding/json] writes them

    A Go string is any sequence of bytes.  [encoding/json] writes it as
    text: it reads the bytes with [utf8.DecodeRuneInString] and, where
    that reports an invalid byte, writes U+FFFD in the place of that one
    byte.  The decoder gives back the text that was written. *)

Definition byteOf (c : ascii) : N := N_of_ascii c.

Definition inRange (lo hi : N) (c : ascii) : bool :=
  ((lo <=? byteOf c) && (byteOf c <=? hi))%N.

(** The first byte of an encoded rune, as the tables [first] and
    [acceptRanges] of [unicode/utf8] have it: a byte that stands for
    itself, an invalid byte, or the lead of a sequence of 2, 3 or 4 bytes
    whose second byte must lie between [lo] and [hi]. *)
Inductive Lead :=
| LeadASCII
| LeadInvalid
| Lead2 (lo hi : N)
| Lead3 (lo hi : N)
| Lead4 (lo hi : N).

Definition leadOf (c : ascii) : Lead :=
  let b := byteOf c in
  (if b <? 128 then LeadASCII             (* 0x00..0x7F *)
   else if b <? 194 then LeadInvalid      (* 0x80..0xC1 *)
   else if b <? 224 then Lead2 128 191    (* 0xC2..0xDF *)
   else if b =? 224 then Lead3 160 191    (* 0xE0 *)
   else if b =? 237 then Lead3 128 159    (* 0xED *)
   else if b <? 240 then Lead3 128 191    (* 0xE1..0xEC, 0xEE, 0xEF *)
   else if b =? 240 then Lead4 144 191    (* 0xF0 *)
   else if b <? 244 then Lead4 128 191    (* 0xF1..0xF3 *)
   else if b =? 244 then Lead4 128 143    (* 0xF4 *)
   else LeadInvalid)%N.                   (* 0xF5..0xFF *)

(** A continuation byte: 0x80..0xBF. *)
Definition continuation (c : ascii) : bool := inRange 128 191 c.

(** U+FFFD in UTF-8, the bytes EF BF BD. *)
Definition replacementChar (rest : string) : string :=
  String (ascii_of_N 239) (String (ascii_of_N 191) (String (ascii_of_N 189) rest)).

(** The text of a string: every byte that does not start a well-formed
    sequence becomes U+FFFD, everything else stays. *)
Fixpoint toValidUTF8 (s : string) : string :=
  match s with
  | EmptyString => EmptyString
  | String a rest =>
      let bad := replacementChar (toValidUTF8 rest) in
      match leadOf a with
      | LeadASCII => String a (toValidUTF8 rest)
      | LeadInvalid => bad
      | Lead2 lo hi =>
          match rest with
          | String b r2 =>
              if inRange lo hi b
              then String a (String b (toValidUTF8 r2))
              else bad
          | _ => bad
          end
      | Lead3 lo hi =>
          match rest with
          | String b (String c r3) =>
              if inRange lo hi b && continuation c
              then String a (String b (String c (toValidUTF8 r3)))
              else bad
          | _ => bad
          end
      | Lead4 lo hi =>
          match rest with
          | String b (String c (String d r4)) =>
              if inRange lo hi b && continuation c && continuation d
              then String a (String b (String c (String d (toValidUTF8 r4))))
              else bad
          | _ => bad
          end
      end
  end.

(** [utf8.ValidString]. *)
Definition validUTF8 (s : string) : bool := bool_decide (toValidUTF8 s = s).

(** The order in which the encoder writes the entries of a Go map: sorted
    by key, byte by byte. *)
Definition sortedEntries {A} (m : gmap string A) : list (string * A) :=
  merge_sort (λ x y, Is_true (String.leb x.1 y.1)) (map_to_list m).

(** What the decoder reads back for the entries that the encoder wrote:
    each key as text, and of the entries whose keys have the same text the
    one written last. *)
Definition rekey {A} (m : gmap string A) : gmap string A :=
  foldl (λ acc kv, <[toValidUTF8 kv.1 := kv.2]> acc) ∅ (sortedEntries m).

(** The dynamic values that an [interface{}] holds, as far as this
    development follows them: the JSON-decodable kinds
    ([nil], [bool], [float64], [string], [[]interface{}],
    [map[string]interface{}]) and three kinds that handlers and this package
    store as well ([int], [time.Time], [[]string]).  All of them are
    accepted by [encoding/json]. *)
Inductive goval :=
| VNil
| VBool (b : bool)
| VInt (n : Z)
| VFloat64 (x : float64)
| VString (s : string)
| VTime (t : Time)
| VStrings (l : list string)
| VSlice (l : list goval)
| VMap (m : gmap string goval).

(** A JSON document, as a tree.  A number node carries the [float64] that
    the literal denotes for the decoder; the byte syntax is not modelled. *)
Inductive json :=
| JNull
| JBool (b : bool)
| JNumber (x : float64)
| JString (s : string)
| JArray (l : list json)
| JObject (m : gmap string json).

(** What [Decode] stores into an [interface{}]. *)
Fixpoint ofJSON (j : json) : goval :=
  match j with
  | JNull => VNil
  | JBool b => VBool b
  | JNumber x => VFloat64 x
  | JString s => VString s
  | JArray l => VSlice (ofJSON <$> l)
  | JObject m => VMap (ofJSON <$> m)
  end.

(** Values as the generic decoder produces them: of the decodable kinds,
    with strings and keys that are valid UTF-8. *)
Fixpoint decoded (v : goval) : bool :=
  match v with
  | VNil | VBool _ | VFloat64 _ => true
  | VString s => validUTF8 s
  | VInt _ | VTime _ | VStrings _ => false
  | VSlice l => forallb decoded l
  | VMap m =>
      bool_decide (map_Forall (λ k b, validUTF8 k = true ∧ b = true)
                     (decoded <$> m))
  end.

(** The size of a value, for induction under slices and maps. *)
Fixpoint gsize (v : goval) : nat :=
  match v with
  | VSlice l => S (foldr Nat.add 0%nat (gsize <$> l))
  | VMap m => S (map_fold (λ _, Nat.add) 0%nat (gsize <$> m))
  | _ => 1%nat
  end.

(** Type assertions [v.(string)] and [v.(map[string]interface{})]; [None]
    is the run-time panic.  An absent key reads as [nil]. *)
Definition assertString (v : option goval) : option string :=
  match v with
  | Some (VString s) => Some s
  | _ => None
  end.

Definition assertMap (v : option goval) : option (gmap string goval) :=
  match v with
  | Some (VMap m) => Some m
  | _ => None
  end.

(* ===================================================================== *)
(** * Errors                                                              *)
(* ===================================================================== *)

Inductive error :=
| ErrNotExist                        (* os.ErrNotExist *)
| ErrStat (path : string)            (* the error of os.Stat(path), a *PathError *)
| ErrIsDir                           (* open for writing on a directory *)
| ErrEntropy                         (* the random source failed *)
| ErrDecode                          (* encoding/json could not decode *)
| ErrHandler (msg : string)          (* an error a handler returned *)
| Appended (e : error).              (* utility.AppendError's wrapping *)

(** [utility.AppendError]: [nil] stays [nil], an error is annotated. *)
Definition AppendError (e : option error) : option error := Appended <$> e.

(* ===================================================================== *)
(** * Path Stack                                                          *)
(* ===================================================================== *)

Module PathStack.

(** Modelled from the spec: the type [URI] with [InitURI], [Pop],
    [StackCount] and [ResetStack], which [http.go] uses and whose source
    file is not among the sources.  Spec 4.1: build splits on path
    separators, discards empty segments and preserves order; pop removes
    and returns the next segment, or the empty string if exhausted; reset
    restores the state produced by build. *)
Record URI := mkURI {
  path : string;
  stack : list string
}.

(** Splitting on ["/"], dropping empty segments; [cur] is the segment
    being read. *)
Fixpoint segments (s : string) (cur : string) : list string :=
  match s with
  | EmptyString => if decide (cur = "") then [] else [cur]
  | String c rest =>
      if Ascii.eqb c "/"%char
      then (if decide (cur = "") then [] else [cur]) ++ segments rest ""
      else segments rest (cur +:+ String c EmptyString)
  end.

Definition InitURI (raw : string) : URI :=
  {| path := raw; stack := segments raw "" |}.

Definition Pop (u : URI) : string * URI :=
  match stack u with
  | [] => ("", u)
  | x :: rest => (x, {| path := path u; stack := rest |})
  end.

Definition StackCount (u : URI) : nat := length (stack u).

Definition ResetStack (u : URI) : URI :=
  {| path := path u; stack := segments (path u) "" |}.

End PathStack.
Import PathStack.

(* ===================================================================== *)
(** * The world the package runs in                                       *)
(* ===================================================================== *)

(** [session.go]: [type Session struct].  The lock is not modelled. *)
Record Session := mkSession {
  id : string;
  userName : string;
  lastOp : Time;
  data : gmap string goval
}.

(** A [*Session]. *)
Abbreviation loc := positive.

(** One draw of [utility.RandString(24)]. *)
Inductive RandResult :=
| RandOk (s : string)
| RandErr (e : error).

(** A file holds a JSON document or bytes that [Decode] rejects. *)
Inductive Content :=
| Doc (j : json)
| Raw (bytes : string).

Inductive Node :=
| NDir
| NFile (c : Content).

(** - [heap]: the allocated [Session] structs;
    - [activeSessions]: the package-level map of that name;
    - [entropy]: the draws the random source still yields, in order; once
      they are used up it fails (a run in which it never fails and never
      yields a fresh id does not return, and is not a run of this model);
    - [clock], [ticks]: [time.Now] returns [clock ticks] and advances;
    - [fs]: the file system, by path. *)
Record World := mkWorld {
  heap : gmap loc Session;
  activeSessions : gmap string loc;
  entropy : list RandResult;
  clock : nat → Time;
  ticks : nat;
  fs : gmap string Node
}.

Definition setHeap (h : gmap loc Session) (W : World) : World :=
  mkWorld h (activeSessions W) (entropy W) (clock W) (ticks W) (fs W).

Definition setActiveSessions (a : gmap string loc) (W : World) : World :=
  mkWorld (heap W) a (entropy W) (clock W) (ticks W) (fs W).

Definition setEntropy (e : list RandResult) (W : World) : World :=
  mkWorld (heap W) (activeSessions W) e (clock W) (ticks W) (fs W).

Definition setFs (f : gmap string Node) (W : World) : World :=
  mkWorld (heap W) (activeSessions W) (entropy W) (clock W) (ticks W) f.

(** [time.Now()]. *)
Definition timeNow (W : World) : Time * World :=
  (clock W (ticks W),
   mkWorld (heap W) (activeSessions W) (entropy W) (clock W) (S (ticks W)) (fs W)).

(** [&Session{...}]: a fresh location. *)
Definition alloc (s : Session) (W : World) : loc * World :=
  let p := fresh (dom (heap W)) in
  (p, setHeap (<[p := s]> (heap W)) W).

(** In-place update of the struct a pointer refers to. *)
Definition update (p : loc) (f : Session → Session) (W : World) : World :=
  setHeap (alter f p (heap W)) W.

Definition withLastOp (t : Time) (s : Session) : Session :=
  mkSession (id s) (userName s) t (data s).

Definition withUserName (u : string) (s : Session) : Session :=
  mkSession (id s) u (lastOp s) (data s).

Definition withData (d : gmap string goval) (s : Session) : Session :=
  mkSession (id s) (userName s) (lastOp s) d.

(* ===================================================================== *)
(** * Session store ([session.go])                                        *)
(* ===================================================================== *)

(** The generation loop of [newSession]:
    [for id, err = RandString(24); err == nil; id, err = RandString(24)]
    leaves at the first id that is not a key of [activeSessions], or at the
    first failure. *)
Fixpoint randLoop (draws : list RandResult) (store : gmap string loc)
  : string * option error * list RandResult :=
  match draws with
  | [] => ("", Some ErrEntropy, [])
  | RandErr e :: rest => ("", Some e, rest)
  | RandOk i :: rest =>
      match store !! i with
      | Some _ => randLoop rest store
      | None => (i, None, rest)
      end
  end.

(** [func newSession(id string) (s *Session, err error)]. *)
Definition newSession (id0 : string) (W : World)
  : option loc * option error * World :=
  let '(i, err, W1) :=
    if decide (id0 = "")
    then let '(i, err, rest) := randLoop (entropy W) (activeSessions W) in
         (i, err, setEntropy rest W)
    else (id0, None, W) in
  match err with
  | Some _ => (None, AppendError err, W1)
  | None =>
      let '(s, W2) :=
        match activeSessions W1 !! i with
        | Some s => (s, W1)
        | None =>
            let '(s, W') := alloc (mkSession i "" zeroTime ∅) W1 in
            (s, setActiveSessions (<[i := s]> (activeSessions W')) W')
        end in
      let '(now, W3) := timeNow W2 in
      (Some s, None, update s (withLastOp now) W3)
  end.

(** The struct behind a pointer; pointers come from [newSession] and
    [RestoreSessions] and the heap never frees, so the default is not
    reached by them. *)
Definition deref (s : loc) (W : World) : Session :=
  default (mkSession "" "" zeroTime ∅) (heap W !! s).

(** [func (s *Session) User() string]. *)
Definition User (s : loc) (W : World) : string := userName (deref s W).

(** [func (s *Session) SetUser(usr string)]. *)
Definition SetUser (s : loc) (usr : string) (W : World) : World :=
  update s (withUserName usr) W.

(** [func (s *Session) Get(key string) (v interface{})]. *)
Definition Get (s : loc) (key : string) (W : World) : goval * World :=
  let '(now, W1) := timeNow W in
  let W2 := update s (withLastOp now) W1 in
  (default VNil (data (deref s W2) !! key), W2).

(** [func (s *Session) Set(key string, v interface{})]. *)
Definition Set_ (s : loc) (key : string) (v : goval) (W : World) : World :=
  let '(now, W1) := timeNow W in
  let W2 := update s (withLastOp now) W1 in
  update s (λ x, withData (<[key := v]> (data x)) x) W2.

(** [func (s *Session) Delete()]: [delete(activeSessions, s.id)]. *)
Definition Delete (s : loc) (W : World) : World :=
  setActiveSessions (delete (id (deref s W)) (activeSessions W)) W.

(** [http.Cookie], the fields [GetCookie] sets. *)
Record Cookie := mkCookie {
  Name : string;
  Value : string;
  Secure : bool;
  Expires : Time;
  HttpOnly : bool;
  SameSiteStrict : bool;
  Path : string
}.

(** [func (s *Session) GetCookie() *http.Cookie]. *)
Definition GetCookie (s : loc) (W : World) : Cookie * World :=
  let '(now, W1) := timeNow W in
  ({| Name := "sessionid";
      Value := id (deref s W1);
      Secure := true;
      Expires := timeAdd now (15 * minute);
      HttpOnly := true;
      SameSiteStrict := true;
      Path := "/" |}, W1).

(* ===================================================================== *)
(** * Session checkpoint ([session.go], [chrono.go])                      *)
(* ===================================================================== *)

(** [utility.Logf]: level and text. *)
Inductive Level := INFO | ERROR | FATAL.

Record LogEntry := mkLog {
  level : Level;
  text : string
}.

(** [os.OpenFile(path, os.O_CREATE|os.O_WRONLY|os.O_TRUNC, 0600)]: fails on
    the empty path and on a directory; otherwise the file exists and is
    empty afterwards. *)
Definition openTrunc (path : string) (W : World) : option error * World :=
  if decide (path = "") then (Some ErrNotExist, W)
  else match fs W !! path with
       | Some NDir => (Some ErrIsDir, W)
       | _ => (None, setFs (<[path := NFile (Raw "")]> (fs W)) W)
       end.

(** [os.OpenFile(path, os.O_RDONLY, 0600)]. *)
Definition openRead (path : string) (W : World) : option error * option Node :=
  match fs W !! path with
  | None => (Some ErrNotExist, None)
  | Some n => (None, Some n)
  end.

(** [dec.Decode(&m)] for [m] a [map[string]interface{}]: a document that is
    a JSON object fills [m]; anything else is an error and leaves [m] as it
    was. *)
Definition decodeInto (n : option Node) (m : gmap string goval)
  : option error * gmap string goval :=
  match n with
  | Some (NFile (Doc (JObject o))) => (None, (ofJSON <$> o) ∪ m)
  | _ => (Some ErrDecode, m)
  end.

(** How a call that may panic ends. *)
Inductive Outcome (A : Type) :=
| Returned (a : A)
| Panicked.
Arguments Returned {A} a.
Arguments Panicked {A}.

Section Checkpoint.

(** The RFC 3339 text with nanoseconds of a [time.Time]
    ([Time.MarshalJSON]) and [time.Parse(time.RFC3339Nano, _)], from the Go
    standard library. *)
Variable formatRFC3339Nano : Time → string.
Variable parseRFC3339Nano : string → option Time.

(** What [Encode] writes for a value, as the document that a decoder reads:
    strings and keys as text, the entries of a map in the encoder's
    order. *)
Fixpoint toJSON (v : goval) : json :=
  match v with
  | VNil => JNull
  | VBool b => JBool b
  | VInt n => JNumber (float64_of_int n)
  | VFloat64 x => JNumber x
  | VString s => JString (toValidUTF8 s)
  | VTime t => JString (formatRFC3339Nano t)
  | VStrings l => JArray ((λ s, JString (toValidUTF8 s)) <$> l)
  | VSlice l => JArray (toJSON <$> l)
  | VMap m => JObject (rekey (toJSON <$> m))
  end.

(** The image of a value under [Encode] followed by the generic [Decode]. *)
Definition jsonImage (v : goval) : goval := ofJSON (toJSON v).

(** What [RestoreSessions] rebuilds from the entry that [SessionDump]
    wrote for [s]. *)
Definition restoredFrom (s : Session) : Session :=
  mkSession (toValidUTF8 (id s)) (toValidUTF8 (userName s))
    (default zeroTime (parseRFC3339Nano (formatRFC3339Nano (lastOp s))))
    (ofJSON <$> rekey (toJSON <$> data s)).

(** The [mx] that [SessionDump] builds for one session. *)
Definition dumpEntry (sx : Session) : goval :=
  VMap (<["userName" := VString (userName sx)]>
       (<["lastOp" := VTime (lastOp sx)]>
       (<["data" := VMap (data sx)]>
       (<["id" := VString (id sx)]> ∅)))).

(** The body of [for _, sx := range activeSessions] in [SessionDump]. *)
Definition dumpStep (W : World) (sx : loc) (m : gmap string goval)
  : gmap string goval :=
  <[id (deref sx W) := dumpEntry (deref sx W)]> m.

(** [func SessionDump(path string) error]. *)
Definition SessionDump (path : string) (W : World) : option error * World :=
  let m := map_fold (λ _ sx m, dumpStep W sx m) ∅ (activeSessions W) in
  let '(err, W1) := openTrunc path W in
  match err with
  | None =>
      (AppendError None,
       setFs (<[path := NFile (Doc (toJSON (VMap m)))]> (fs W1)) W1)
  | Some _ => (AppendError err, W1)
  end.

(** [func chronoSerialize(path string)]. *)
Definition chronoSerialize (path : string) (W : World) : list LogEntry * World :=
  match SessionDump path W with
  | (Some _, W1) => ([mkLog ERROR "session dump failed"], W1)
  | (None, W1) => ([], W1)
  end.

(** The body of [for _, mxi := range m] in [RestoreSessions]; [None] is a
    failed type assertion.  [time.Parse]'s error is dropped, leaving the
    zero time. *)
Definition restoreEntry (mxi : goval) (W : World) : option World :=
  mx ← assertMap (Some mxi);
  lastOpText ← assertString (mx !! "lastOp");
  let tm := default zeroTime (parseRFC3339Nano lastOpText) in
  i ← assertString (mx !! "id");
  d ← assertMap (mx !! "data");
  u ← assertString (mx !! "userName");
  let '(sx, W1) := alloc (mkSession i u tm d) W in
  Some (setActiveSessions (<[i := sx]> (activeSessions W1)) W1).

Fixpoint restoreEntries (l : list goval) (W : World) : Outcome unit * World :=
  match l with
  | [] => (Returned (), W)
  | mxi :: rest =>
      match restoreEntry mxi W with
      | None => (Panicked, W)
      | Some W1 => restoreEntries rest W1
      end
  end.

(** [func RestoreSessions(sessionDumpPath string) error].  The result of
    [dec.Decode(&m)] is not looked at. *)
Definition RestoreSessions (sessionDumpPath : string) (W : World)
  : Outcome (option error) * World :=
  if decide (sessionDumpPath = "") then (Returned None, W)
  else
    let m : gmap string goval := ∅ in
    let '(err, f) := openRead sessionDumpPath W in
    match err with
    | None =>
        let '(_, m) := decodeInto f m in
        match restoreEntries (map_to_list m).*2 W with
        | (Returned _, W1) => (Returned (AppendError err), W1)
        | (Panicked, W1) => (Panicked, W1)
        end
    | Some _ => (Returned (AppendError err), W)
    end.

(** The start of [Run]: restore, log a failure, go on to serve.  [false]
    is a process brought down by a panic in [RestoreSessions]. *)
Definition RunRestore (sessionDumpPath : string) (W : World)
  : bool * list LogEntry * World :=
  match RestoreSessions sessionDumpPath W with
  | (Returned (Some _), W1) =>
      (true, [mkLog ERROR "could not restore sessions"], W1)
  | (Returned None, W1) => (true, [], W1)
  | (Panicked, W1) => (false, [], W1)
  end.

End Checkpoint.

(* ===================================================================== *)
(** * Responses ([response.go])                                           *)
(* ===================================================================== *)

(** What is written to the body of an [http.ResponseWriter], by the call
    that writes it.  What the server makes of a write (it drops the body of
    a 204, of a 304 and of the answer to a HEAD request) is below this
    model. *)
Inductive Chunk :=
| ChunkJSON (d : gmap string goval)   (* json.NewEncoder(w).Encode(d) *)
| ChunkBytes (b : string)             (* w.Write(b) *)
| ChunkFile (path : string).          (* http.ServeFile(w, r, path) *)

(** - [wHeader] is [w.Header()], by canonical key, for the keys that hold
      one value;
    - the values of [Set-Cookie] are the value that [Header().Set] put
      there, if any, which is in [wHeader] like the others, followed by the
      cookies that [http.SetCookie] added after it, which are in
      [wCookies];
    - [wStatus] is [None] until the status line is written. *)
Record ResponseWriter := mkWriter {
  wHeader : gmap string string;
  wCookies : list Cookie;
  wStatus : option Z;
  wBody : list Chunk
}.

Definition newWriter : ResponseWriter := mkWriter ∅ [] None [].

Definition StatusOK : Z := 200.
Definition StatusTemporaryRedirect : Z := 307.
Definition StatusNotFound : Z := 404.
Definition StatusInternalServerError : Z := 500.

(** The bytes of a header field name, [validHeaderFieldByte] of
    [net/textproto]: letters, digits and [!#$%&'*+-.^_`|~]. *)
Definition validHeaderFieldByte (c : ascii) : bool :=
  let b := byteOf c in
  (((48 <=? b) && (b <=? 57)) || ((65 <=? b) && (b <=? 90))
   || ((97 <=? b) && (b <=? 122))
   || bool_decide (b ∈ [33; 35; 36; 37; 38; 39; 42; 43; 45; 46; 94; 95; 96;
                        124; 126]))%N.

Fixpoint allBytes (f : ascii → bool) (s : string) : bool :=
  match s with
  | EmptyString => true
  | String c rest => f c && allBytes f rest
  end.

(** Upper case for the first letter and for a letter after a dash, lower
    case for the others. *)
Fixpoint canonicalBytes (upper : bool) (s : string) : string :=
  match s with
  | EmptyString => EmptyString
  | String c rest =>
      let b := byteOf c in
      let c' := (if upper && (97 <=? b) && (b <=? 122)
                 then ascii_of_N (b - 32)
                 else if negb upper && (65 <=? b) && (b <=? 90)
                 then ascii_of_N (b + 32)
                 else c)%N in
      String c' (canonicalBytes (byteOf c' =? 45)%N rest)
  end.

(** [textproto.CanonicalMIMEHeaderKey]: a key with a byte that is not
    allowed in a field name is left as it is. *)
Definition CanonicalMIMEHeaderKey (s : string) : string :=
  if allBytes validHeaderFieldByte s then canonicalBytes true s else s.

(** [w.Header().Set(k, v)]: [v] replaces the values under the canonical
    form of [k]; under [Set-Cookie] these are also the cookies added so
    far. *)
Definition HeaderSet (k v : string) (w : ResponseWriter) : ResponseWriter :=
  let key := CanonicalMIMEHeaderKey k in
  mkWriter (<[key := v]> (wHeader w))
    (if decide (key = "Set-Cookie") then [] else wCookies w)
    (wStatus w) (wBody w).

(** The status line is written once. *)
Definition sendStatus (code : Z) (w : ResponseWriter) : ResponseWriter :=
  match wStatus w with
  | Some _ => w
  | None => mkWriter (wHeader w) (wCookies w) (Some code) (wBody w)
  end.

(** [checkWriteHeaderCode] of [net/http]: three digits. *)
Definition checkWriteHeaderCode (code : Z) : bool :=
  (100 <=? code) && (code <=? 999).

(** A code that is sent as an informational response and is not the
    status of the response: 1xx other than 101. *)
Definition informational (code : Z) : bool :=
  (100 <=? code) && (code <=? 199) && negb (code =? 101).

(** What a call on the writer that may panic leaves: how it ended, and the
    writer with what was done to it before. *)
Definition Written : Type := Outcome unit * ResponseWriter.

(** [w.WriteHeader(code)], as the HTTP/1 server of [net/http] has it:
    once the status is written a further call is ignored; otherwise a
    code outside 100..999 panics, an informational code leaves the status
    to be written (the informational response that is sent is not
    recorded), and any other code is the status. *)
Definition WriteHeader (code : Z) (w : ResponseWriter) : Written :=
  match wStatus w with
  | Some _ => (Returned (), w)
  | None =>
      if checkWriteHeaderCode code
      then (Returned (), if informational code then w else sendStatus code w)
      else (Panicked, w)
  end.

(** A write to the body; it sends [200] if no status was written. *)
Definition WriteBody (c : Chunk) (w : ResponseWriter) : ResponseWriter :=
  let w1 := sendStatus StatusOK w in
  mkWriter (wHeader w1) (wCookies w1) (wStatus w1) (wBody w1 ++ [c]).

(** [http.SetCookie(w, c)]. *)
Definition SetCookie (c : Cookie) (w : ResponseWriter) : ResponseWriter :=
  mkWriter (wHeader w) (wCookies w ++ [c]) (wStatus w) (wBody w).

(** [http.ServeFile(w, r, path)], as far as the dispatcher is concerned:
    the file at [path] is the body. *)
Definition ServeFile (path : string) (w : ResponseWriter) : ResponseWriter :=
  WriteBody (ChunkFile path) w.

(** [http.NotFound(w, r)]. *)
Definition NotFound (w : ResponseWriter) : ResponseWriter :=
  WriteBody (ChunkBytes "404 page not found")
    (WriteHeader StatusNotFound
      (HeaderSet "Content-Type" "text/plain; charset=utf-8" w)).2.

Record BaseResponse := mkBase {
  headers : gmap string string;
  status : Z
}.

Definition newBaseResponse : BaseResponse := mkBase ∅ StatusOK.

Definition SetHeader (key value : string) (b : BaseResponse) : BaseResponse :=
  mkBase (<[key := value]> (headers b)) (status b).

Definition SetStatus (code : Z) (b : BaseResponse) : BaseResponse :=
  mkBase (headers b) code.

(** [func (b *BaseResponse) apply(w http.ResponseWriter)]:
    [for k, v := range b.headers { w.Header().Set(k, v) }], then
    [w.WriteHeader(b.status)].  The order of [range] is not fixed in Go;
    it shows only when two keys of [b.headers] have the same canonical
    form. *)
Definition apply (b : BaseResponse) (w : ResponseWriter) : Written :=
  WriteHeader (status b) (map_fold HeaderSet w (headers b)).

(** [JsonResponse]: the embedded [*BaseResponse] and the [data] map, either
    of which is [nil] in the zero value. *)
Record JsonResponse := mkJson {
  jBase : option BaseResponse;
  jData : option (gmap string goval)
}.

Definition InitJsonResponse : JsonResponse :=
  let br := newBaseResponse in
  let d : gmap string goval :=
    <["errors" := VStrings []]> (<["session" := VBool true]> ∅) in
  mkJson (Some (SetHeader "Content-Type" "application/json" br)) (Some d).

(** [func (jr *JsonResponse) ensure()]. *)
Definition ensure (jr : JsonResponse) : JsonResponse :=
  let b := default newBaseResponse (jBase jr) in
  let '(b, d) :=
    match jData jr with
    | Some d => (b, d)
    | None => (SetHeader "Content-Type" "application/json" b,
               <["session" := VBool true]> (∅ : gmap string goval))
    end in
  let d := match d !! "errors" with
           | Some _ => d
           | None => <["errors" := VStrings []]> d
           end in
  mkJson (Some b) (Some d).

(** [func (jr *JsonResponse) Set(key string, value interface{})]. *)
Definition JsonSet (key : string) (value : goval) (jr : JsonResponse)
  : JsonResponse :=
  let jr := ensure jr in
  mkJson (jBase jr) (Some (<[key := value]> (default ∅ (jData jr)))).

(** [func (jr JsonResponse) Write(w http.ResponseWriter)]. *)
Definition JsonWrite (jr : JsonResponse) (w : ResponseWriter) : Written :=
  let jr := ensure jr in
  match apply (default newBaseResponse (jBase jr)) w with
  | (Returned _, w1) =>
      (Returned (), WriteBody (ChunkJSON (default ∅ (jData jr))) w1)
  | (Panicked, w1) => (Panicked, w1)
  end.

Record BlobResponse := mkBlob {
  bBase : option BaseResponse;
  Blob : string;
  MimeType : string;
  FileName : string
}.

Record RedirectResponse := mkRedirect {
  rBase : option BaseResponse;
  Location : string
}.

Definition InitRedirectResponse (location : string) (code : Z) : RedirectResponse :=
  mkRedirect
    (Some (SetHeader "Location" location (SetStatus code newBaseResponse)))
    location.

(** [type Response interface { Write(w http.ResponseWriter) }] with the
    three implementations of the package and any other one. *)
Inductive Response :=
| RJson (jr : JsonResponse)
| RBlob (br : BlobResponse)
| RRedirect (rr : RedirectResponse)
| RCustom (write : ResponseWriter → Written).

(** [resp.Write(w)]; [apply] through a [nil] [*BaseResponse] panics. *)
Definition Write (resp : Response) (w : ResponseWriter) : Written :=
  match resp with
  | RJson jr => JsonWrite jr w
  | RBlob br =>
      match bBase br with
      | Some b =>
          match apply b w with
          | (Returned _, w1) =>
              (Returned (), WriteBody (ChunkBytes (Blob br)) w1)
          | (Panicked, w1) => (Panicked, w1)
          end
      | None => (Panicked, w)
      end
  | RRedirect rr =>
      match rBase rr with
      | Some b => apply b w
      | None => (Panicked, w)
      end
  | RCustom write => write w
  end.

(** An [interface{}] a handler returns: a [Response] or another value. *)
Inductive iface :=
| IResponse (r : Response)
| IValue (v : goval).

(** [respi.(Response)]: the value and [ok]; [nil] and [false] otherwise. *)
Definition assertResponse (respi : iface) : option Response * bool :=
  match respi with
  | IResponse r => (Some r, true)
  | IValue _ => (None, false)
  end.

(* ===================================================================== *)
(** * Request dispatcher ([http.go])                                      *)
(* ===================================================================== *)

(** [*http.Request], the parts the package reads. *)
Record Request := mkRequest {
  RequestURI : string;
  Cookies : list (string * string)
}.

(** [r.Cookie(name)]: the first cookie of that name; [None] is
    [http.ErrNoCookie]. *)
Definition RequestCookie (name : string) (r : Request) : option string :=
  snd <$> List.find (λ c, bool_decide (fst c = name)) (Cookies r).

(** An argument of a handler: the session, the [PoliteRequest]. *)
Inductive Arg :=
| ArgSession (s : loc)
| ArgRequest (r : Request).

(** [*utility.Method]: the parameter count and the call.  A handler is any
    code: it reads and writes the world and returns or panics. *)
Record Method := mkMethod {
  NumIn : Z;
  F : list Arg → World → Outcome (list iface * option error) * World
}.

(** The state a request runs in: the response so far, the world, the log,
    and the handler calls made (a ghost field, for stating what was
    invoked). *)
Record DState := mkDState {
  dW : ResponseWriter;
  dWorld : World;
  dLog : list LogEntry;
  dCalls : list (list Arg)
}.

(** The state in which the server hands a request to the handler: nothing
    written, nothing logged, no call made. *)
Definition initState (W : World) : DState := mkDState newWriter W [] [].

(** How a step of [handleRequest] ends: it goes on with a value, the
    function returns, or it panics. *)
Inductive Ctl (A : Type) :=
| Next (a : A)
| Return_
| Panic (msg : string).
Arguments Next {A} a.
Arguments Return_ {A}.
Arguments Panic {A} msg.

Definition M (A : Type) : Type := DState → Ctl A * DState.

Definition ret {A} (a : A) : M A := λ st, (Next a, st).

Definition bind {A B} (c : M A) (k : A → M B) : M B :=
  λ st, match c st with
        | (Next a, st1) => k a st1
        | (Return_, st1) => (Return_, st1)
        | (Panic msg, st1) => (Panic msg, st1)
        end.

Notation "'run' x <- c ;;; k" := (bind c (λ x, k))
  (at level 10, x binder, c at level 100, k at level 200,
   format "'run'  x  <-  c  ;;; '//' k").
Notation "'exec' c ;;; k" := (bind c (λ _, k))
  (at level 10, c at level 100, k at level 200,
   format "'exec'  c  ;;; '//' k").

Definition return_ {A} : M A := λ st, (Return_, st).
Definition panic {A} (msg : string) : M A := λ st, (Panic msg, st).

Definition onWriter (f : ResponseWriter → ResponseWriter) : M unit :=
  λ st, (Next (), mkDState (f (dW st)) (dWorld st) (dLog st) (dCalls st)).

(** A call on the writer that may panic. *)
Definition onWriterP (msg : string) (f : ResponseWriter → Written) : M unit :=
  λ st, let '(o, w) := f (dW st) in
        let st1 := mkDState w (dWorld st) (dLog st) (dCalls st) in
        match o with
        | Returned _ => (Next (), st1)
        | Panicked => (Panic msg, st1)
        end.

(** [w.WriteHeader(code)] as a step of the dispatcher. *)
Definition writeHeader (code : Z) : M unit :=
  onWriterP "invalid WriteHeader code" (WriteHeader code).

Definition onWorld {A} (f : World → A * World) : M A :=
  λ st, let '(a, W) := f (dWorld st) in
        (Next a, mkDState (dW st) W (dLog st) (dCalls st)).

Definition Logf (l : Level) (msg : string) : M unit :=
  λ st, (Next (),
         mkDState (dW st) (dWorld st) (dLog st ++ [mkLog l msg]) (dCalls st)).

(** [m.F(args...)], recorded in [dCalls]. *)
Definition call (m : Method) (args : list Arg) : M (list iface * option error) :=
  λ st, let '(o, W) := F m args (dWorld st) in
        let st1 := mkDState (dW st) W (dLog st) (dCalls st ++ [args]) in
        match o with
        | Returned res => (Next res, st1)
        | Panicked => (Panic "panic in handler", st1)
        end.

(** [func startSession(w, r) (s *Session, b bool, err error)]. *)
Definition startSession (r : Request) : M (option loc * bool * option error) :=
  let c := RequestCookie "sessionid" r in
  run '(s, err, b) <-
    match c with
    | None =>
        run '(s, err) <- onWorld (newSession "") ;;;
        ret (s, err, true)
    | Some v =>
        run '(s, err) <- onWorld (newSession v) ;;;
        ret (s, err, false)
    end ;;;
  exec match s with
       | Some p =>
           run ck <- onWorld (GetCookie p) ;;;
           onWriter (SetCookie ck)
       | None => ret ()
       end ;;;
  ret (s, b, err).

(** The end of [handleRequest], from [if err != nil] after the call to
    [resp.Write(w)]. *)
Definition writeResult (res : list iface) (err : option error) : M unit :=
  match err with
  | Some _ =>
      exec Logf ERROR "handler error" ;;;
      exec writeHeader StatusInternalServerError ;;; return_
  | None =>
  run respi <- match res with
               | x :: _ => ret x
               | [] => panic "index out of range"
               end ;;;
  (* var resp Response; var ok bool
     if resp, ok = respi.(Response); !ok { ... } *)
  let '(resp, ok) := assertResponse respi in
  (* inside the block [resp := InitJsonResponse()] declares a new variable,
     which ends with the block; the outer [resp] keeps what the assertion
     left in it *)
  let block :=
    if negb ok
    then match respi with
         | IValue v => Some (JsonSet "data" v InitJsonResponse)
         | IResponse _ => None
         end
    else None in
  (* resp.Write(w) *)
  match resp with
  | Some resp => onWriterP "panic in Write" (Write resp)
  | None => panic "invalid memory address or nil pointer dereference"
  end
  end.

(** The body of [handleRequest], before the deferred [recover]. *)
Definition handleRequestBody (m : option Method) (request : string)
    (hasAuth : bool) (r : Request) : M unit :=
  match m with
  | None => exec writeHeader StatusNotFound ;;; return_
  | Some m =>
  run '(s, newSession, err) <- startSession r ;;;
  match err with
  | Some _ =>
      exec Logf ERROR "session error" ;;;
      exec writeHeader StatusInternalServerError ;;; return_
  | None =>
  match s with
  | None => exec writeHeader StatusInternalServerError ;;; return_
  | Some s =>
  exec (if newSession && negb (bool_decide (request = "Login"))
        then exec onWriter (HeaderSet "Location" "/Login") ;;;
             exec writeHeader StatusTemporaryRedirect ;;; return_
        else ret ()) ;;;
  run user <- onWorld (λ W, (User s W, W)) ;;;
  exec (if hasAuth && bool_decide (user = "")
        then exec onWriter (HeaderSet "Location" "/Login") ;;;
             exec writeHeader StatusTemporaryRedirect ;;; return_
        else ret ()) ;;;
  run '(res, err) <-
    (let politeRequest := r in
     match NumIn m with
     | 1 => call m [ArgSession s]
     | 2 => call m [ArgSession s; ArgRequest politeRequest]
     | _ =>
         exec Logf ERROR "handler has a wrong number of parameters" ;;;
         exec writeHeader StatusInternalServerError ;;; return_
     end) ;;;
  writeResult res err
  end end end.

(** [func handleRequest(m, request, hasAuth, w, r)]: the body, and the
    deferred function that logs a recovered panic. *)
Definition handleRequest (m : option Method) (request : string)
    (hasAuth : bool) (r : Request) (st : DState) : DState :=
  match handleRequestBody m request hasAuth r st with
  | (Panic i, st1) => snd (Logf ERROR i st1)
  | (_, st1) => st1
  end.

(** The response is the temporary redirect to the login path, and no
    handler was called. *)
Definition redirectedToLogin (out : DState) : Prop :=
  wStatus (dW out) = Some StatusTemporaryRedirect
  ∧ wHeader (dW out) !! "Location" = Some "/Login"
  ∧ dCalls out = [].

(* ===================================================================== *)
(** * Static fallback ([http.go])                                         *)
(* ===================================================================== *)

(** [func handleFile(filePath string, uri *URI, w, r) (err error)].
    [os.Stat] reads the file system of the world and fails, with an
    error of its own, on a path that has no node; the calls nest along the
    path stack and along directories named [index.html], so the recursion
    is on [fuel], and [None] is fuel that ran out.  The stack that the
    calls pop is not read again by the caller and is not returned. *)
Fixpoint handleFile (fuel : nat) (files : gmap string Node) (filePath : string)
    (uri : option URI) (w : ResponseWriter)
  : option (option error * ResponseWriter) :=
  match fuel with
  | O => None
  | S fuel =>
      let '(part, uri) :=
        match uri with
        | Some u => let '(part, u) := Pop u in (part, Some u)
        | None => ("", None)
        end in
      let err := Some ErrNotExist in
      (* depth first *)
      '(err, w) ← (if decide (part ≠ "")
                   then handleFile fuel files (filePath +:+ "/" +:+ part) uri w
                   else Some (err, w));
      match err with
      | Some _ =>
          (* s, err = os.Stat(filePath) *)
          match files !! filePath with
          | None => Some (Some (ErrStat filePath), w)
          | Some NDir =>
              handleFile fuel files (filePath +:+ "/" +:+ "index.html") None w
          | Some (NFile _) => Some (None, ServeFile filePath w)
          end
      | None => Some (err, w)
      end
  end.

(** [func handleDist(dist string, uri URI, w, r)]. *)
Definition handleDist (fuel : nat) (dist : string) (uri : URI) (st : DState)
  : option DState :=
  let uri := ResetStack uri in
  '(err, w) ← handleFile fuel (fs (dWorld st)) dist (Some uri) (dW st);
  match err with
  | Some _ =>
      Some (mkDState (NotFound w) (dWorld st)
              (dLog st ++ [mkLog INFO ("not found `%s`" +:+ path uri)])
              (dCalls st))
  | None => Some (mkDState w (dWorld st) (dLog st) (dCalls st))
  end.

(** The longest path of the file system, which bounds how deep a chain of
    directories named [index.html] goes. *)
Definition maxPathLength (files : gmap string Node) : nat :=
  map_fold (λ p _ n, String.length p `max` n)%nat 0%nat files.

(** Fuel that [handleFile] does not use up. *)
Definition enoughFuel (files : gmap string Node) (st : list string) : nat :=
  (List.length st + maxPathLength files + 2)%nat.

(** What a call of [handleFile] leaves: the file served, or an error. *)
Definition fileOutcome (o : option string) (e : error) (w : ResponseWriter)
  : option error * ResponseWriter :=
  match o with
  | Some f => (None, ServeFile f w)
  | None => (Some e, w)
  end.

(** ** The fallback in the words of the specification *)

(** The candidates for the segments [segs] under [dist]: the full nested
    path first, then each shorter prefix, the root last. *)
Fixpoint candidates (dist : string) (segs : list string) : list string :=
  match segs with
  | [] => [dist]
  | s :: rest => candidates (dist +:+ "/" +:+ s) rest ++ [dist]
  end.

(** [Serves files p f]: trying the path [p] serves the file [f]: [p]
    itself if it is a regular file, what its [index.html] serves if it is a
    directory. *)
Inductive Serves (files : gmap string Node) : string → string → Prop :=
| serves_file p c :
    files !! p = Some (NFile c) → Serves files p p
| serves_index p f :
    files !! p = Some NDir →
    Serves files (p +:+ "/" +:+ "index.html") f →
    Serves files p f.

Definition Misses (files : gmap string Node) (p : string) : Prop :=
  ∀ f, ¬ Serves files p f.

(** The first candidate that serves a file decides; if none does, the
    response is not-found. *)
Inductive StaticResult (files : gmap string Node) (cands : list string)
  : option string → Prop :=
| static_found (before : list string) c after f :
    cands = (before ++ c :: after)%list →
    Forall (Misses files) before →
    Serves files c f →
    StaticResult files cands (Some f)
| static_not_found :
    Forall (Misses files) cands →
    StaticResult files cands None.

(* ===================================================================== *)
(** * Controller resolver ([http.go])                                     *)
(* ===================================================================== *)

Section Resolver.

(** Reflection over the controller graph, from [go-utility]:
    [utility.GetProperty(obj, name, prefix, suffixes...)] and
    [utility.GetMethod(obj, name, suffix)]; [None] is [nil]. *)
Variable Controller : Type.
Variable GetProperty : Controller → string → string → list string → option Controller.
Variable GetMethod : Controller → string → string → option Method.

(** A call of [GetProperty] made during a resolution (a ghost record, for
    stating what was consulted). *)
Record Lookup := mkLookup {
  lkController : Controller;
  lkName : string;
  lkSuffixes : list string
}.

(** The loop [for uri.StackCount() > 1 && controller != nil] of the handler
    that [getHandler] returns, on the stack of [uri]: what is left of the
    stack, the controller, [hasAuth], and the lookups made. *)
Fixpoint resolveLoop (st : list string) (controller : option Controller)
    (hasAuth : bool) (trace : list Lookup)
  : list string * option Controller * bool * list Lookup :=
  match st with
  | controllerName :: ((_ :: _) as rest) =>
      match controller with
      | Some c =>
          let controllerAuth :=
            GetProperty c controllerName "" ["controller"; "auth"] in
          let trace :=
            (trace ++ [mkLookup c controllerName ["controller"; "auth"]])%list in
          match controllerAuth with
          | Some _ => resolveLoop rest controllerAuth true trace
          | None =>
              resolveLoop rest
                (GetProperty c controllerName "" ["controller"]) hasAuth
                (trace ++ [mkLookup c controllerName ["controller"]])%list
          end
      | None => (st, controller, hasAuth, trace)
      end
  | _ => (st, controller, hasAuth, trace)
  end.

(** The resolution in the handler that [getHandler] returns: the loop,
    then the handler name popped and looked up on the last controller. *)
Definition resolveHandler (controller : Controller) (uri : URI)
  : string * option Method * bool * URI :=
  let '(rest, controller, hasAuth, _) :=
    resolveLoop (stack uri) (Some controller) false [] in
  let uri := mkURI (path uri) rest in
  match controller with
  | Some c =>
      let '(request, uri) := Pop uri in
      (request,
       if decide (request ≠ "") then GetMethod c request "Request" else None,
       hasAuth, uri)
  | None => ("", None, hasAuth, uri)
  end.

(** The handler that [getHandler(controller, dist)] returns, run on one
    request.  (The check at start-up that [dist] is a directory is outside
    of it.) *)
Definition getHandler (fuel : nat) (controller : Controller) (dist : string)
    (r : Request) (st : DState) : option DState :=
  let uri := InitURI (RequestURI r) in
  let st := snd (Logf INFO ("URI: " +:+ RequestURI r) st) in
  let '(request, f, hasAuth, uri) := resolveHandler controller uri in
  match f with
  | Some _ => Some (handleRequest f request hasAuth r st)
  | None =>
      (* no handler --> search in dist *)
      handleDist fuel dist uri st
  end.

End Resolver.

(* ===================================================================== *)
(** * Store states and the operations that change them                    *)
(* ===================================================================== *)

(** Every entry of [activeSessions] points to an allocated session whose
    [id] field is the key it is stored under. *)
Definition keyedById (h : gmap loc Session) (a : gmap string loc) : Prop :=
  ∀ k p, a !! k = Some p → ∃ s, h !! p = Some s ∧ id s = k.

(** No two entries hold sessions with the same id. *)
Definition distinctIds (h : gmap loc Session) (a : gmap string loc) : Prop :=
  ∀ k1 k2 p1 p2 s1 s2,
    a !! k1 = Some p1 → a !! k2 = Some p2 →
    h !! p1 = Some s1 → h !! p2 = Some s2 →
    id s1 = id s2 → k1 = k2 ∧ p1 = p2.

(** The operations of the package on the store: the functions of
    [session.go], called by the dispatcher, by handlers (the methods of
    [*Session]) and by [Run]. *)
Inductive Op :=
| OpNewSession (id0 : string)
| OpUser (s : loc)
| OpSetUser (s : loc) (usr : string)
| OpGet (s : loc) (key : string)
| OpSet (s : loc) (key : string) (v : goval)
| OpDelete (s : loc)
| OpGetCookie (s : loc)
| OpSessionDump (path : string)
| OpRestoreSessions (path : string).

Section Operations.

Variable formatRFC3339Nano : Time → string.
Variable parseRFC3339Nano : string → option Time.

Definition runOp (o : Op) (W : World) : World :=
  match o with
  | OpNewSession id0 => snd (newSession id0 W)
  | OpUser s => W
  | OpSetUser s usr => SetUser s usr W
  | OpGet s key => snd (Get s key W)
  | OpSet s key v => Set_ s key v W
  | OpDelete s => Delete s W
  | OpGetCookie s => snd (GetCookie s W)
  | OpSessionDump path => snd (SessionDump formatRFC3339Nano path W)
  | OpRestoreSessions path => snd (RestoreSessions parseRFC3339Nano path W)
  end.

(** The states of a process: it starts with no session allocated and an
    empty [activeSessions], whatever the clock, the random source and the
    files are, and moves by the operations. *)
Inductive reachable : World → Prop :=
| reachable_start W :
    heap W = ∅ → activeSessions W = ∅ → reachable W
| reachable_step W o :
    reachable W → reachable (runOp o W).

End Operations.

(* ===================================================================== *)
(** * More of [response.go]: the methods of [JsonResponse]                *)
(* ===================================================================== *)

(** The methods below have pointer receivers: what they did to the
    response before a panic stays done, so each returns the response next
    to how the call ended.  A Go [error] is given by its [Error()] text;
    [None] is the [nil] error. *)

(** [func (jr *JsonResponse) SetSession(valid bool)]. *)
Definition SetSession (valid : bool) (jr : JsonResponse) : JsonResponse :=
  let jr := ensure jr in
  mkJson (jBase jr) (Some (<["session" := VBool valid]> (default ∅ (jData jr)))).

(** [func (jr *JsonResponse) AppendErrorStr(err string)]: the assertion
    [jr.data["errors"].([]string)] panics on a value of another type. *)
Definition AppendErrorStr (err : string) (jr : JsonResponse)
  : Outcome unit * JsonResponse :=
  let jr := ensure jr in
  let d := default ∅ (jData jr) in
  match d !! "errors" with
  | Some (VStrings existing) =>
      (Returned (),
       mkJson (jBase jr) (Some (<["errors" := VStrings (existing ++ [err])]> d)))
  | _ => (Panicked, jr)
  end.

(** [func (jr *JsonResponse) AppendError(err error)]: [err.Error()] on the
    [nil] error panics. *)
Definition JsonAppendError (err : option string) (jr : JsonResponse)
  : Outcome unit * JsonResponse :=
  match err with
  | Some msg => AppendErrorStr msg jr
  | None => (Panicked, jr)
  end.

(** [func (jr *JsonResponse) AppendError500(err error)]. *)
Definition AppendError500 (err : option string) (jr : JsonResponse)
  : Outcome unit * JsonResponse :=
  match err with
  | Some msg =>
      let jr := ensure jr in
      let jr := mkJson (SetStatus StatusInternalServerError <$> jBase jr) (jData jr) in
      AppendErrorStr msg jr
  | None => (Returned (), jr)
  end.

(** [jr.SetStatus(code)] and [jr.SetHeader(key, value)], promoted from the
    embedded [*BaseResponse]: through a [nil] pointer they panic. *)
Definition JsonSetStatus (code : Z) (jr : JsonResponse)
  : Outcome unit * JsonResponse :=
  match jBase jr with
  | Some b => (Returned (), mkJson (Some (SetStatus code b)) (jData jr))
  | None => (Panicked, jr)
  end.

Definition JsonSetHeader (key value : string) (jr : JsonResponse)
  : Outcome unit * JsonResponse :=
  match jBase jr with
  | Some b => (Returned (), mkJson (Some (SetHeader key value b)) (jData jr))
  | None => (Panicked, jr)
  end.

(** A call of a method of [*JsonResponse] by a handler. *)
Inductive JsonOp :=
| JSet (key : string) (value : goval)
| JSetSession (valid : bool)
| JAppendErrorStr (err : string)
| JAppendError (err : option string)
| JAppendError500 (err : option string)
| JSetStatus (code : Z)
| JSetHeader (key value : string).

Definition runJsonOp (o : JsonOp) (jr : JsonResponse) : Outcome unit * JsonResponse :=
  match o with
  | JSet key value => (Returned (), JsonSet key value jr)
  | JSetSession valid => (Returned (), SetSession valid jr)
  | JAppendErrorStr err => AppendErrorStr err jr
  | JAppendError err => JsonAppendError err jr
  | JAppendError500 err => AppendError500 err jr
  | JSetStatus code => JsonSetStatus code jr
  | JSetHeader key value => JsonSetHeader key value jr
  end.

(** The response after a sequence of calls, each of which returned or
    panicked (and was recovered). *)
Definition runJsonOps (ops : list JsonOp) (jr : JsonResponse) : JsonResponse :=
  foldl (λ jr o, (runJsonOp o jr).2) jr ops.

(** The calls of a sequence all returned. *)
Fixpoint allReturned (ops : list JsonOp) (jr : JsonResponse) : bool :=
  match ops with
  | [] => true
  | o :: rest =>
      match runJsonOp o jr with
      | (Returned _, jr1) => allReturned rest jr1
      | (Panicked, _) => false
      end
  end.

(** [func InitBlobResponse(blob []byte, mimeType, fileName string)]; [quote]
    is [fmt.Sprintf("%q", _)]. *)
Definition InitBlobResponse (quote : string → string) (blob : string)
    (mimeType fileName : string) : BlobResponse :=
  let br := newBaseResponse in
  let br := SetHeader "Content-Type" mimeType br in
  let br := SetHeader "Content-Disposition"
              ("attachment; filename=" +:+ quote fileName) br in
  mkBlob (Some br) blob mimeType fileName.

(* ===================================================================== *)
(** * Parameter validation ([PostAssert])                                 *)
(* ===================================================================== *)

Module Post.

(** A [float64] as [strconv.ParseFloat] may return it. *)
Inductive f64 :=
| FNaN
| FInf (negative : bool)
| FFinite (x : Q).

(** [f <= 0], [f < 0], [f > 1]: every comparison with NaN is false. *)
Definition le0 (f : f64) : bool :=
  match f with
  | FNaN => false
  | FInf negative => negative
  | FFinite x => Qle_bool x 0
  end.

Definition lt0 (f : f64) : bool :=
  match f with
  | FNaN => false
  | FInf negative => negative
  | FFinite x => negb (Qle_bool 0 x)
  end.

Definition gt1 (f : f64) : bool :=
  match f with
  | FNaN => false
  | FInf negative => negb negative
  | FFinite x => negb (Qle_bool x 1)
  end.

Inductive PostFieldType :=
| STRING
| INTEGER
| FLOAT
| POSITIVE_INTEGER
| POSITIVE_FLOAT
| PERC_FLOAT
| DATE
| TIME
| DATETIME.

Record PostParam := mkPostParam {
  Name : string;
  Type_ : PostFieldType;
  Required : bool
}.

Record PostAssert := mkPostAssert {
  pr : Request;
  params : list PostParam
}.

(** [func InitPoliteRequestPostInterface(pr PoliteRequest) *PostAssert]. *)
Definition InitPoliteRequestPostInterface (r : Request) : PostAssert :=
  mkPostAssert r [].

(** [func (pa *PostAssert) AddParameter(name, typ, required)]. *)
Definition AddParameter (name : string) (typ : PostFieldType) (required : bool)
    (pa : PostAssert) : PostAssert :=
  mkPostAssert (pr pa) (params pa ++ [mkPostParam name typ required]).

Section Assert.

(** From the standard library: [pr.PostFormValue], [strings.TrimSpace],
    [strconv.Atoi], [strconv.ParseFloat(_, 64)] and
    [time.Parse(layout, _)]; [None] is a non-nil error. *)
Variable PostFormValue : Request → string → string.
Variable TrimSpace : string → string.
Variable Atoi : string → option Z.
Variable ParseFloat : string → option f64.
Variable timeParse : string → string → option Time.

Definition typeError (p : PostParam) (expected : string) : string :=
  "parameter '" +:+ Name p +:+ "': expected " +:+ expected.

(** The body of the loop of [Assert] for one parameter: the error it
    appends, if any. *)
Definition paramError (r : Request) (p : PostParam) : option string :=
  let val := TrimSpace (PostFormValue r (Name p)) in
  (* Check presence *)
  if decide (val = "")
  then if Required p
       then Some ("parameter '" +:+ Name p +:+ "' is required")
       else None
  else
    match Type_ p with
    | STRING => None
    | INTEGER =>
        match Atoi val with
        | None => Some (typeError p "integer")
        | Some _ => None
        end
    | FLOAT =>
        match ParseFloat val with
        | None => Some (typeError p "float")
        | Some _ => None
        end
    | POSITIVE_INTEGER =>
        match Atoi val with
        | Some i => if i <=? 0 then Some (typeError p "positive integer") else None
        | None => Some (typeError p "positive integer")
        end
    | POSITIVE_FLOAT =>
        match ParseFloat val with
        | Some f => if le0 f then Some (typeError p "positive float") else None
        | None => Some (typeError p "positive float")
        end
    | PERC_FLOAT =>
        match ParseFloat val with
        | Some f =>
            if lt0 f || gt1 f
            then Some (typeError p "percentage between 0 and 1")
            else None
        | None => Some (typeError p "percentage between 0 and 1")
        end
    | DATE =>
        match timeParse "2006-01-02" val with
        | None => Some (typeError p "date in yyyy-mm-dd format")
        | Some _ => None
        end
    | TIME =>
        match timeParse "15:04:05" val with
        | None => Some (typeError p "time in hh:mm:ss format")
        | Some _ => None
        end
    | DATETIME =>
        match timeParse "2006-01-02 15:04:05" val with
        | None => Some (typeError p "datetime in yyyy-mm-dd hh:mm:ss format")
        | Some _ => None
        end
    end.

(** [for _, p := range pa.params], appending to [errs]. *)
Fixpoint assertLoop (r : Request) (ps : list PostParam) (errs : list string)
  : list string :=
  match ps with
  | [] => errs
  | p :: rest =>
      assertLoop r rest
        match paramError r p with
        | Some e => (errs ++ [e])%list
        | None => errs
        end
  end.

(** [func (pa *PostAssert) Assert() ([]error, bool)]. *)
Definition Assert (pa : PostAssert) : list string * bool :=
  let errs := assertLoop (pr pa) (params pa) [] in
  (errs, bool_decide (List.length errs = 0%nat)).

End Assert.

End Post.


(* ===================================================================== *)
(** * Notions for stating the further properties                          *)
(* ===================================================================== *)

(** A draw that the generation loop skips: an id the store already has. *)
Definition collides (store : gmap string loc) (d : RandResult) : Prop :=
  ∃ j, d = RandOk j ∧ is_Some (store !! j).

(** The cookie that [GetCookie] issues for the id [i] at the time [now]. *)
Definition sessionCookie (i : string) (now : Time) : Cookie :=
  mkCookie "sessionid" i true (timeAdd now (15 * minute)) true true "/".

(** An entry of a checkpoint that [RestoreSessions] accepts: an object with
    strings under [id], [lastOp] and [userName] and an object under
    [data]. *)
Definition wellFormedEntry (mxi : goval) : bool :=
  match mxi with
  | VMap mx =>
      match mx !! "lastOp", mx !! "id", mx !! "data", mx !! "userName" with
      | Some (VString _), Some (VString _), Some (VMap _), Some (VString _) => true
      | _, _, _, _ => false
      end
  | _ => false
  end.

(** The JSON of one session in a checkpoint. *)
Definition entryJSON (i u lastOpText : string) (d : gmap string json) : json :=
  JObject (<["userName" := JString u]>
          (<["lastOp" := JString lastOpText]>
          (<["data" := JObject d]>
          (<["id" := JString i]> ∅)))).

(** The body that [Write] sends carries the two fields of the envelope. *)
Definition hasEnvelope (d : gmap string goval) : Prop :=
  is_Some (d !! "session") ∧ is_Some (d !! "errors").

(** The full nested path of the segments under a root. *)
Definition fullPath (dist : string) (segs : list string) : string :=
  foldl (λ p s, p +:+ "/" +:+ s) dist segs.

(** [p] is a prefix of [f]. *)
Definition pathPrefix (p f : string) : Prop := ∃ rest, f = p +:+ rest.


(** The body that [Write] sends for a response. *)
Definition bodyOf (jr : JsonResponse) : gmap string goval :=
  default ∅ (jData (ensure jr)).

(** The message that a call appends to [errors], if it appends one. *)
Definition message (o : JsonOp) : option string :=
  match o with
  | JAppendErrorStr e => Some e
  | JAppendError (Some e) => Some e
  | JAppendError500 (Some e) => Some e
  | _ => None
  end.

(** A call that stores a value of the handler's own under [errors]. *)
Definition setsErrors (o : JsonOp) : bool :=
  match o with
  | JSet key _ => bool_decide (key = "errors")
  | _ => false
  end.


(** The [*BaseResponse] that [Write] applies for a JSON response. *)
Definition baseOf (jr : JsonResponse) : BaseResponse :=
  default newBaseResponse (jBase (ensure jr)).

(** A response with a header that [w.Header().Set] stores under
    [Set-Cookie], whatever its capitalisation. *)
Definition replacesCookies (b : BaseResponse) : Prop :=
  ∃ k v, headers b !! k = Some v ∧ CanonicalMIMEHeaderKey k = "Set-Cookie".

(** No other header of the response has the canonical key of [k]. *)
Definition soleKey (b : BaseResponse) (k : string) : Prop :=
  ∀ k' v', headers b !! k' = Some v' →
    CanonicalMIMEHeaderKey k' = CanonicalMIMEHeaderKey k → k' = k.


(* ===================================================================== *)
(** * Concrete inputs                                                     *)
(* ===================================================================== *)

(** An instance of the time text for the examples: an instant in UTC
    written as decimal nanoseconds. *)
Definition exFormat (t : Time) : string :=
  NilEmpty.string_of_int (Z.to_int (unixNano t)).

Definition exParse (s : string) : option Time :=
  (λ d, mkTime (Z.of_int d) 0 None) <$> NilEmpty.int_of_string s.

Definition exClock (n : nat) : Time :=
  mkTime (Z.of_nat n + 1700000000000000000) 0 (Some (Z.of_nat n)).

(** A process that has just started: no session, one id left in the random
    source, a static root with an index page under [assets]. *)
Definition exStatic : gmap string Node :=
  <["dist/assets/index.html" := NFile (Raw "<html>assets</html>")]>
  (<["dist/assets" := NDir]>
  (<["dist" := NDir]> ∅)).

Definition exFresh : World :=
  mkWorld ∅ ∅ [RandOk "p4Xw9sQm2LrT7vYb1NcZ8kHd"] exClock 0 exStatic.

(** A process with one session, of user alice, whose data holds a Go
    [int]. *)
Definition exAlice : Session :=
  mkSession "abc" "alice" (exClock 0) (<["count" := VInt 5]> ∅).

Definition exOne : World :=
  mkWorld (<[1%positive := exAlice]> ∅) (<["abc" := 1%positive]> ∅)
    [] exClock 1 exStatic.

(** The same session with data of decoded kinds only. *)
Definition exBob : Session :=
  mkSession "abc" "bob" (exClock 0) (<["theme" := VString "dark"]> ∅).

Definition exDecoded : World :=
  mkWorld (<[1%positive := exBob]> ∅) (<["abc" := 1%positive]> ∅)
    [] exClock 1 exStatic.

(** A restart: the files of [W], nothing else. *)
Definition restart (W : World) : World :=
  mkWorld ∅ ∅ [] exClock 0 (fs W).

(** A process whose dump file does not hold JSON. *)
Definition exGarbage : World :=
  mkWorld ∅ ∅ [] exClock 0 (<["sessions.json" := NFile (Raw "{not json")]> ∅).

Definition exNoCookie : Request := mkRequest "/Dashboard" [].
Definition exWithCookie : Request := mkRequest "/Profile" [("sessionid", "abc")].
Definition exAsset : Request := mkRequest "/assets/img/logo.png" [].

(** A handler of one parameter that returns a plain string. *)
Definition exHello : Method :=
  mkMethod 1 (λ _ W, (Returned ([IValue (VString "hello")], None), W)).

(** A handler declared with no parameter. *)
Definition exNoParam : Method :=
  mkMethod 0 (λ _ W, (Returned ([IValue VNil], None), W)).

(** A controller graph, by number: under the root [0] the name [Account]
    has both an auth-gated sub-controller [1] and a plain one [2]; [1] has
    the handler [Profile]. *)
Definition exGetProperty (c : nat) (name prefix : string)
    (suffixes : list string) : option nat :=
  if bool_decide (c = 0%nat ∧ name = "Account" ∧ suffixes = ["controller"; "auth"])
  then Some 1%nat
  else if bool_decide (c = 0%nat ∧ name = "Account" ∧ suffixes = ["controller"])
  then Some 2%nat
  else None.

Definition exGetMethod (c : nat) (name suffix : string) : option Method :=
  if bool_decide (c = 1%nat ∧ name = "Profile") then Some exHello else None.

(** ** Further concrete inputs *)

Definition exEmptyCookie : Request := mkRequest "/Dashboard" [("sessionid", "")].

(** A checkpoint, hand-written: the document key differs from the id of the
    entry and the timestamp is not RFC 3339. *)
Definition exEdited : World :=
  mkWorld ∅ ∅ [] exClock 0
    (<["sessions.json" :=
         NFile (Doc (JObject
           (<["some-key" := entryJSON "abc" "alice" "yesterday" ∅]> ∅)))]> ∅).

(** A checkpoint with an entry whose [data] is [null]. *)
Definition exNullData : World :=
  mkWorld ∅ ∅ [] exClock 0
    (<["sessions.json" :=
         NFile (Doc (JObject
           (<["abc" := JObject (<["userName" := JString "alice"]>
                               (<["lastOp" := JString "0"]>
                               (<["data" := JNull]>
                               (<["id" := JString "abc"]> ∅))))]> ∅)))]> ∅).


(** Handlers of one parameter: one that fails, one that answers with a
    JSON response, one that panics after renaming the user, one that
    returns nothing. *)
Definition exFailing : Method :=
  mkMethod 1 (λ _ W, (Returned ([IValue (VString "partial")],
                                Some (ErrHandler "db down")), W)).

Definition exJson : Method :=
  mkMethod 1 (λ _ W,
    (Returned ([IResponse (RJson (JsonSet "data" (VString "hello")
                                    InitJsonResponse))], None), W)).

Definition exPanics : Method :=
  mkMethod 1 (λ _ W, (Panicked, SetUser 1%positive "mallory" W)).

Definition exEmpty : Method :=
  mkMethod 2 (λ _ W, (Returned ([], None), W)).


(** The static root with an image under [assets]. *)
Definition exMedia : World :=
  mkWorld ∅ ∅ [] exClock 0
    (<["dist/assets/logo.png" := NFile (Raw "PNG")]> exStatic).

(** A process with one session whose user is the single byte 0xFF, which
    is not valid UTF-8. *)
Definition exBytes : World :=
  mkWorld
    (<[1%positive :=
         mkSession "abc" (String (ascii_of_N 255) EmptyString) (exClock 0) ∅]> ∅)
    (<["abc" := 1%positive]> ∅) [] exClock 1 exStatic.


(* ===================================================================== *)
(** * Properties                                                          *)
(* ===================================================================== *)

(** ** Values and their JSON image *)

Lemma gsize_elem (l : list goval) v :
  v ∈ l → (gsize v < gsize (VSlice l))%nat.
Proof.
  change (gsize (VSlice l)) with (S (foldr Nat.add 0%nat (gsize <$> l))).
  induction 1 as [v l|v w l _ IH]; rewrite fmap_cons, foldr_cons.
  - apply Nat.lt_succ_r, Nat.le_add_r.
  - eapply Nat.lt_le_trans; [exact IH|]. apply le_n_S, Nat.le_add_l.
Qed.

Lemma gsize_lookup (m : gmap string goval) k v :
  m !! k = Some v → (gsize v < gsize (VMap m))%nat.
Proof.
  intros Hk. simpl.
  assert ((gsize <$> m) !! k = Some (gsize v)) as Hn
    by (by rewrite lookup_fmap, Hk).
  clear Hk. revert Hn. generalize (gsize v) as n. revert k.
  generalize (gsize <$> m) as nm. intros nm.
  apply (map_fold_weak_ind
    (λ r (nm : gmap string nat), ∀ k n, nm !! k = Some n → (n < S r)%nat)).
  - intros k n H. by rewrite lookup_empty in H.
  - intros i x nm' r Hi IH k n Hn.
    destruct (decide (i = k)) as [->|Hne].
    + rewrite lookup_insert_eq in Hn. injection Hn as ->. lia.
    + rewrite lookup_insert_ne in Hn by done. specialize (IH k n Hn). lia.
Qed.

(** Induction on values that goes under slices and maps. *)
Lemma goval_nested_ind (P : goval → Prop) :
  P VNil → (∀ b, P (VBool b)) → (∀ n, P (VInt n)) → (∀ x, P (VFloat64 x)) →
  (∀ s, P (VString s)) → (∀ t, P (VTime t)) → (∀ l, P (VStrings l)) →
  (∀ l, Forall P l → P (VSlice l)) →
  (∀ m, map_Forall (λ _, P) m → P (VMap m)) →
  ∀ v, P v.
Proof.
  intros Hnil Hbool Hint Hfloat Hstr Htime Hstrs Hslice Hmap v.
  remember (gsize v) as n eqn:Hn.
  assert (gsize v ≤ n)%nat as Hle by lia. clear Hn.
  revert v Hle. induction n as [|n IH]; intros v Hle.
  - destruct v; simpl in Hle; lia.
  - destruct v as [|b|z|x|s|t|l|l|m]; auto.
    + apply Hslice. apply Forall_forall. intros w Hw. apply IH.
      pose proof (gsize_elem l w Hw). lia.
    + apply Hmap. intros k w Hw. apply IH.
      pose proof (gsize_lookup m k w Hw). lia.
Qed.

(** Keys that are valid UTF-8 come back as they are. *)
Lemma foldl_insert_list_to_map {A} (l : list (string * A)) :
  foldl (λ (acc : gmap string A) kv, <[kv.1 := kv.2]> acc) ∅ l
  = list_to_map (reverse l).
Proof.
  induction l as [|x l IH] using rev_ind; [done|].
  by rewrite foldl_snoc, reverse_snoc, IH.
Qed.

Lemma rekey_valid {A} (m : gmap string A) :
  (∀ k, is_Some (m !! k) → toValidUTF8 k = k) → rekey m = m.
Proof.
  intros Hv. unfold rekey, sortedEntries.
  set (l := merge_sort _ _).
  assert (l ≡ₚ map_to_list m) as Hperm by apply merge_sort_Permutation.
  assert (Forall (λ kv, toValidUTF8 kv.1 = kv.1) l) as Hvalid.
  { apply Forall_forall. intros [k v] Hin. apply Hv. exists v.
    apply elem_of_map_to_list. by rewrite <- Hperm. }
  assert (∀ acc : gmap string A,
            foldl (λ acc kv, <[toValidUTF8 kv.1 := kv.2]> acc) acc l
            = foldl (λ acc kv, <[kv.1 := kv.2]> acc) acc l) as ->.
  { clear Hperm. induction Hvalid as [|kv l Hkv _ IH]; intros acc; [done|].
    simpl. by rewrite Hkv, IH. }
  rewrite foldl_insert_list_to_map.
  etrans; [|apply (list_to_map_to_list m)].
  apply list_to_map_proper.
  - rewrite reverse_Permutation, Hperm. apply NoDup_fst_map_to_list.
  - by rewrite reverse_Permutation.
Qed.

Lemma validUTF8_true s : validUTF8 s = true → toValidUTF8 s = s.
Proof. apply bool_decide_eq_true. Qed.

Section JsonImage.

Variable formatRFC3339Nano : Time → string.

(** A value as the generic decoder produces them is its own JSON image. *)
Lemma jsonImage_decoded v :
  decoded v = true → jsonImage formatRFC3339Nano v = v.
Proof.
  induction v as [|b|z|x|s|t|l|l IH|m IH] using goval_nested_ind;
    unfold jsonImage; simpl; try done.
  - intros Hd. by rewrite (validUTF8_true s Hd).
  - intros Hd. f_equal. rewrite <- list_fmap_compose.
    rewrite <- (list_fmap_id l) at 2. apply list_fmap_ext.
    intros i w Hw. simpl.
    apply (Forall_lookup_1 _ _ _ _ IH Hw).
    rewrite forallb_forall in Hd. apply Hd.
    apply list_elem_of_In. by eapply list_elem_of_lookup_2.
  - intros Hd. apply bool_decide_eq_true in Hd. f_equal.
    rewrite rekey_valid.
    + rewrite <- map_fmap_compose.
      rewrite <- (map_fmap_id m) at 2. apply map_fmap_ext.
      intros k w Hw. simpl. apply (IH k w Hw).
      apply (Hd k). by rewrite lookup_fmap, Hw.
    + intros k [j Hj]. rewrite lookup_fmap in Hj.
      destruct (m !! k) as [w|] eqn:Hw; [|done].
      apply validUTF8_true, (Hd k (decoded w)). by rewrite lookup_fmap, Hw.
Qed.

End JsonImage.

(** ** Session store *)

Lemma newSession_absent id0 W :
  id0 ≠ "" → activeSessions W !! id0 = None →
  let p := fresh (dom (heap W)) in
  newSession id0 W =
    (Some p, None,
     mkWorld (alter (withLastOp (clock W (ticks W))) p
                (<[p := mkSession id0 "" zeroTime ∅]> (heap W)))
             (<[id0 := p]> (activeSessions W))
             (entropy W) (clock W) (S (ticks W)) (fs W)).
Proof.
  intros Hne Habs. unfold newSession.
  destruct (decide (id0 = "")) as [|_]; [done|].
  simpl. rewrite Habs. reflexivity.
Qed.

Lemma newSession_present id0 p W :
  id0 ≠ "" → activeSessions W !! id0 = Some p →
  newSession id0 W =
    (Some p, None,
     mkWorld (alter (withLastOp (clock W (ticks W))) p (heap W))
             (activeSessions W)
             (entropy W) (clock W) (S (ticks W)) (fs W)).
Proof.
  intros Hne Hin. unfold newSession.
  destruct (decide (id0 = "")) as [|_]; [done|].
  simpl. rewrite Hin. reflexivity.
Qed.

Lemma fresh_heap_None (h : gmap loc Session) : h !! fresh (dom h) = None.
Proof. apply not_elem_of_dom, is_fresh. Qed.

(** C4.  A request presenting a non-empty session id that the store does
    not hold gets a session created and stored under exactly that id, with
    empty user and empty data, and [startSession] reports it as not new. *)
Theorem C4_unknown_id_is_adopted (r : Request) (st : DState) (id0 : string) :
  RequestCookie "sessionid" r = Some id0 →
  id0 ≠ "" →
  activeSessions (dWorld st) !! id0 = None →
  ∃ (p : loc) (st' : DState) (t : Time),
    startSession r st = (Next (Some p, false, None), st')
    ∧ (newSession id0 (dWorld st)).1 = (Some p, None)
    ∧ heap (dWorld st) !! p = None
    ∧ activeSessions (dWorld st') = <[id0 := p]> (activeSessions (dWorld st))
    ∧ heap (dWorld st') !! p = Some (mkSession id0 "" t ∅)
    ∧ (∀ q, q ≠ p → heap (dWorld st') !! q = heap (dWorld st) !! q).
Proof.
  intros Hc Hne Habs.
  pose proof (newSession_absent id0 (dWorld st) Hne Habs) as Hn. simpl in Hn.
  exists (fresh (dom (heap (dWorld st)))).
  eexists. exists (clock (dWorld st) (ticks (dWorld st))).
  split.
  { unfold startSession, bind, onWorld, onWriter, ret. rewrite Hc.
    rewrite Hn. simpl. reflexivity. }
  split. { rewrite Hn. reflexivity. }
  split. { apply fresh_heap_None. }
  simpl. split; [reflexivity|]. split.
  - rewrite lookup_alter_eq, lookup_insert_eq. reflexivity.
  - intros q Hq. rewrite lookup_alter_ne, lookup_insert_ne by done. reflexivity.
Qed.

(** C9.  A request presenting a non-empty id that the store holds gets
    that very session back, reported as not new; the store keeps its
    entries, and in the heap only the [lastOp] of that session changes:
    its id, user and data are what they were. *)
Theorem C9_known_id_is_refreshed (r : Request) (st : DState) (id0 : string)
    (p : loc) (s : Session) :
  RequestCookie "sessionid" r = Some id0 →
  id0 ≠ "" →
  activeSessions (dWorld st) !! id0 = Some p →
  heap (dWorld st) !! p = Some s →
  ∃ (st' : DState) (now : Time),
    startSession r st = (Next (Some p, false, None), st')
    ∧ now = clock (dWorld st) (ticks (dWorld st))
    ∧ activeSessions (dWorld st') = activeSessions (dWorld st)
    ∧ heap (dWorld st') =
        <[p := mkSession (id s) (userName s) now (data s)]> (heap (dWorld st)).
Proof.
  intros Hc Hne Hin Hs.
  pose proof (newSession_present id0 p (dWorld st) Hne Hin) as Hn.
  eexists. exists (clock (dWorld st) (ticks (dWorld st))).
  split.
  { unfold startSession, bind, onWorld, onWriter, ret. rewrite Hc.
    rewrite Hn. simpl. reflexivity. }
  split; [reflexivity|]. simpl. split; [reflexivity|].
  apply map_eq. intros q. destruct (decide (q = p)) as [->|Hq].
  - rewrite lookup_alter_eq, lookup_insert_eq, Hs. reflexivity.
  - rewrite lookup_alter_ne, lookup_insert_ne by done. reflexivity.
Qed.

(** ** The store invariant *)

Lemma keyedById_alter h a p f :
  (∀ s, id (f s) = id s) → keyedById h a → keyedById (alter f p h) a.
Proof.
  intros Hf H k q Hk. destruct (H k q Hk) as (s & Hs & Hid).
  destruct (decide (q = p)) as [->|Hne].
  - exists (f s). rewrite lookup_alter_eq, Hs. split; [done|]. by rewrite Hf.
  - exists s. by rewrite lookup_alter_ne.
Qed.

Lemma keyedById_alloc h a s :
  keyedById h a →
  keyedById (<[fresh (dom h) := s]> h) (<[id s := fresh (dom h)]> a).
Proof.
  intros H k q Hk. destruct (decide (k = id s)) as [->|Hne].
  - rewrite lookup_insert_eq in Hk. injection Hk as <-.
    exists s. by rewrite lookup_insert_eq.
  - rewrite lookup_insert_ne in Hk by done.
    destruct (H k q Hk) as (s' & Hs' & Hid). exists s'. split; [|done].
    rewrite lookup_insert_ne; [done|].
    intros <-. by rewrite fresh_heap_None in Hs'.
Qed.

Lemma keyedById_delete h a k : keyedById h a → keyedById h (delete k a).
Proof.
  intros H k' q Hk. apply lookup_delete_Some in Hk as [_ Hk]. eauto.
Qed.

Lemma keyedById_distinct h a : keyedById h a → distinctIds h a.
Proof.
  intros H k1 k2 p1 p2 s1 s2 H1 H2 Hs1 Hs2 Hid.
  destruct (H k1 p1 H1) as (s1' & Hs1' & <-).
  destruct (H k2 p2 H2) as (s2' & Hs2' & <-).
  assert (s1' = s1) as -> by congruence.
  assert (s2' = s2) as -> by congruence.
  split; [done|]. rewrite Hid in H1. congruence.
Qed.

Lemma withLastOp_id t s : id (withLastOp t s) = id s.
Proof. done. Qed.

Lemma newSession_keyedById id0 W :
  keyedById (heap W) (activeSessions W) →
  keyedById (heap (snd (newSession id0 W))) (activeSessions (snd (newSession id0 W))).
Proof.
  intros H. unfold newSession.
  set (gen := if decide (id0 = "") then _ else _).
  assert (keyedById (heap gen.2) (activeSessions gen.2)) as Hgen.
  { subst gen. destruct (decide (id0 = "")); [|done].
    destruct (randLoop _ _) as [[i err] rest]. done. }
  destruct gen as [[i err] W1]. simpl in Hgen.
  destruct err as [e|]; [done|].
  destruct (activeSessions W1 !! i) as [s|] eqn:Hi; simpl.
  - by apply keyedById_alter.
  - apply keyedById_alter; [done|].
    apply (keyedById_alloc _ _ (mkSession i "" zeroTime ∅)), Hgen.
Qed.

Section StoreProperties.

Variable formatRFC3339Nano : Time → string.
Variable parseRFC3339Nano : string → option Time.

Lemma restoreEntry_inv mxi W W1 :
  restoreEntry parseRFC3339Nano mxi W = Some W1 →
  (keyedById (heap W) (activeSessions W) →
   keyedById (heap W1) (activeSessions W1))
  ∧ (∀ k, is_Some (activeSessions W !! k) → is_Some (activeSessions W1 !! k)).
Proof.
  unfold restoreEntry. intros H.
  destruct (assertMap (Some mxi)) as [mx|]; [|done]. simpl in H.
  destruct (assertString (mx !! "lastOp")) as [lo|]; [|done]. simpl in H.
  destruct (assertString (mx !! "id")) as [i|]; [|done]. simpl in H.
  destruct (assertMap (mx !! "data")) as [d|]; [|done]. simpl in H.
  destruct (assertString (mx !! "userName")) as [u|]; [|done]. simpl in H.
  injection H as <-. simpl. split.
  - intros HW.
    apply (keyedById_alloc _ _
             (mkSession i u (default zeroTime (parseRFC3339Nano lo)) d)), HW.
  - intros k Hk. destruct (decide (k = i)) as [->|Hne].
    + rewrite lookup_insert_eq. eauto.
    + by rewrite lookup_insert_ne.
Qed.

Lemma restoreEntries_inv l W :
  (keyedById (heap W) (activeSessions W) →
   keyedById (heap (restoreEntries parseRFC3339Nano l W).2)
             (activeSessions (restoreEntries parseRFC3339Nano l W).2))
  ∧ (∀ k, is_Some (activeSessions W !! k) →
          is_Some (activeSessions (restoreEntries parseRFC3339Nano l W).2 !! k)).
Proof.
  revert W. induction l as [|mxi l IH]; intros W; simpl; [done|].
  destruct (restoreEntry parseRFC3339Nano mxi W) as [W1|] eqn:HE; [|done].
  destruct (restoreEntry_inv _ _ _ HE) as [H1 H2].
  destruct (IH W1) as [H3 H4]. split; eauto.
Qed.

Lemma RestoreSessions_inv path W :
  (keyedById (heap W) (activeSessions W) →
   keyedById (heap (RestoreSessions parseRFC3339Nano path W).2)
             (activeSessions (RestoreSessions parseRFC3339Nano path W).2))
  ∧ (∀ k, is_Some (activeSessions W !! k) →
          is_Some (activeSessions (RestoreSessions parseRFC3339Nano path W).2 !! k)).
Proof.
  unfold RestoreSessions. destruct (decide (path = "")); [done|].
  destruct (openRead path W) as [[e|] f]; [done|].
  destruct (decodeInto f ∅) as [derr m].
  pose proof (restoreEntries_inv (map_to_list m).*2 W) as H.
  destruct (restoreEntries _ _ W) as [[[]|] W1]; exact H.
Qed.

Lemma SessionDump_store path W :
  heap (SessionDump formatRFC3339Nano path W).2 = heap W
  ∧ activeSessions (SessionDump formatRFC3339Nano path W).2 = activeSessions W.
Proof.
  unfold SessionDump, openTrunc.
  destruct (decide (path = "")); [done|].
  destruct (fs W !! path) as [[|c]|]; done.
Qed.

(** Every operation keeps the entries keyed by their own id. *)
Lemma runOp_keyedById o W :
  keyedById (heap W) (activeSessions W) →
  keyedById (heap (runOp formatRFC3339Nano parseRFC3339Nano o W))
            (activeSessions (runOp formatRFC3339Nano parseRFC3339Nano o W)).
Proof.
  intros H. destruct o as [id0|s|s usr|s key|s key v|s|s|dpath|dpath]; simpl.
  - by apply newSession_keyedById.
  - done.
  - by apply keyedById_alter.
  - by apply keyedById_alter.
  - apply keyedById_alter; [done|]. by apply keyedById_alter.
  - by apply keyedById_delete.
  - done.
  - destruct (SessionDump_store dpath W) as [-> ->]. done.
  - by apply RestoreSessions_inv.
Qed.

Lemma reachable_keyedById W :
  reachable formatRFC3339Nano parseRFC3339Nano W →
  keyedById (heap W) (activeSessions W).
Proof.
  induction 1 as [W Hh Ha|W o _ IH].
  - intros k p Hk. rewrite Ha in Hk. done.
  - by apply runOp_keyedById.
Qed.

Lemma newSession_store id0 W k :
  is_Some (activeSessions W !! k) →
  is_Some (activeSessions (newSession id0 W).2 !! k).
Proof.
  intros Hk. unfold newSession.
  set (gen := if decide (id0 = "") then _ else _).
  assert (activeSessions gen.2 = activeSessions W) as Hgen.
  { subst gen. destruct (decide (id0 = "")); [|done].
    destruct (randLoop _ _) as [[i err] rest]. done. }
  destruct gen as [[i err] W1]. simpl in Hgen.
  destruct err as [e|]; simpl; [by rewrite Hgen|].
  destruct (activeSessions W1 !! i) as [s|] eqn:Hi; simpl.
  - by rewrite Hgen.
  - destruct (decide (k = i)) as [->|Hne].
    + rewrite lookup_insert_eq. eauto.
    + by rewrite lookup_insert_ne, Hgen.
Qed.

(** C8, as the code has it.  In every reachable state each entry is keyed
    by the id of the session it holds and no two entries hold the same id;
    an id enters the store only by [newSession] or by [RestoreSessions], and
    leaves it only by [Delete]. *)
Theorem C8_store_invariant :
  (∀ W, reachable formatRFC3339Nano parseRFC3339Nano W →
        keyedById (heap W) (activeSessions W)
        ∧ distinctIds (heap W) (activeSessions W))
  ∧ (∀ W o k,
        activeSessions W !! k = None →
        is_Some (activeSessions (runOp formatRFC3339Nano parseRFC3339Nano o W) !! k) →
        (∃ id0, o = OpNewSession id0) ∨ (∃ path, o = OpRestoreSessions path))
  ∧ (∀ W o k,
        is_Some (activeSessions W !! k) →
        activeSessions (runOp formatRFC3339Nano parseRFC3339Nano o W) !! k = None →
        ∃ s, o = OpDelete s).
Proof.
  split; [|split].
  - intros W HW. pose proof (reachable_keyedById W HW) as H.
    split; [done|]. by apply keyedById_distinct.
  - intros W o k Hnone Hsome. destruct o as [id0|s|s usr|s key|s key v|s|s|dpath|dpath]; simpl in Hsome;
      try (rewrite Hnone in Hsome; by destruct Hsome); eauto.
    + apply lookup_delete_is_Some in Hsome as [_ Hsome].
      rewrite Hnone in Hsome. by destruct Hsome.
    + destruct (SessionDump_store dpath W) as [_ Hs]. rewrite Hs, Hnone in Hsome.
      by destruct Hsome.
  - intros W o k Hsome Hnone. destruct o as [id0|s|s usr|s key|s key v|s|s|dpath|dpath]; simpl in Hnone;
      try (rewrite Hnone in Hsome; by destruct Hsome); eauto.
    + apply (newSession_store id0) in Hsome. rewrite Hnone in Hsome.
      by destruct Hsome.
    + destruct (SessionDump_store dpath W) as [_ Hs]. rewrite Hs in Hnone.
      rewrite Hnone in Hsome. by destruct Hsome.
    + apply (proj2 (RestoreSessions_inv dpath W)) in Hsome.
      rewrite Hnone in Hsome. by destruct Hsome.
Qed.

End StoreProperties.

(** ** Checkpoint and restore *)

Section CheckpointProperties.

Variable formatRFC3339Nano : Time → string.
Variable parseRFC3339Nano : string → option Time.

Local Abbreviation jsonImage := (jsonImage formatRFC3339Nano).
Local Abbreviation restoredFrom :=
  (restoredFrom formatRFC3339Nano parseRFC3339Nano).

Lemma jsonImage_dumpEntry s :
  jsonImage (dumpEntry s) =
  VMap (<["userName" := VString (toValidUTF8 (userName s))]>
       (<["lastOp" := VString (formatRFC3339Nano (lastOp s))]>
       (<["data" := jsonImage (VMap (data s))]>
       (<["id" := VString (toValidUTF8 (id s))]> ∅)))).
Proof.
  unfold jsonImage, dumpEntry. simpl. rewrite rekey_valid.
  - by rewrite !fmap_insert, !fmap_empty.
  - intros k [j Hj]. rewrite !fmap_insert, fmap_empty in Hj.
    destruct (decide (k = "userName")) as [->|]; [reflexivity|].
    rewrite lookup_insert_ne in Hj by done.
    destruct (decide (k = "lastOp")) as [->|]; [reflexivity|].
    rewrite lookup_insert_ne in Hj by done.
    destruct (decide (k = "data")) as [->|]; [reflexivity|].
    rewrite lookup_insert_ne in Hj by done.
    destruct (decide (k = "id")) as [->|]; [reflexivity|].
    rewrite lookup_insert_ne in Hj by done. by rewrite lookup_empty in Hj.
Qed.

Lemma entry_fields (u l d i : goval) :
  let mx : gmap string goval :=
    <["userName" := u]> (<["lastOp" := l]> (<["data" := d]> (<["id" := i]> ∅))) in
  mx !! "lastOp" = Some l ∧ mx !! "id" = Some i
  ∧ mx !! "data" = Some d ∧ mx !! "userName" = Some u.
Proof. repeat split; by simplify_map_eq. Qed.

Lemma restoreEntry_dumpEntry s W :
  restoreEntry parseRFC3339Nano (jsonImage (dumpEntry s)) W =
  Some (setActiveSessions
          (<[toValidUTF8 (id s) := fresh (dom (heap W))]> (activeSessions W))
          (setHeap (<[fresh (dom (heap W)) := restoredFrom s]> (heap W)) W)).
Proof.
  rewrite jsonImage_dumpEntry. unfold restoreEntry. simpl.
  destruct (entry_fields (VString (toValidUTF8 (userName s)))
              (VString (formatRFC3339Nano (lastOp s)))
              (jsonImage (VMap (data s))) (VString (toValidUTF8 (id s))))
    as (-> & -> & -> & ->).
  reflexivity.
Qed.

Lemma restoreEntries_sessions (ss : list Session) W :
  let ids := (λ s, toValidUTF8 (id s)) <$> ss in
  ∃ W', restoreEntries parseRFC3339Nano ((jsonImage ∘ dumpEntry) <$> ss) W
        = (Returned (), W')
    ∧ (∀ q x, heap W !! q = Some x → heap W' !! q = Some x)
    ∧ (∀ k, k ∉ ids → activeSessions W' !! k = activeSessions W !! k)
    ∧ (NoDup ids → ∀ s, s ∈ ss →
         ∃ p', activeSessions W' !! toValidUTF8 (id s) = Some p'
               ∧ heap W' !! p' = Some (restoredFrom s)).
Proof.
  cbv zeta. revert W. induction ss as [|s ss IH]; intros W.
  - exists W. simpl. repeat split; try done. intros _ s Hs. by inversion Hs.
  - simpl. rewrite restoreEntry_dumpEntry.
    set (p := fresh (dom (heap W))).
    set (W1 := setActiveSessions _ _).
    destruct (IH W1) as (W' & HR & Hheap & Hstore & Hall).
    exists W'. split; [exact HR|]. split; [|split].
    + intros q x Hq. apply Hheap. subst W1. simpl.
      rewrite lookup_insert_ne; [done|].
      intros <-. subst p. by rewrite fresh_heap_None in Hq.
    + intros k Hk. apply not_elem_of_cons in Hk as [Hne Hk].
      rewrite (Hstore k Hk). subst W1. simpl. by rewrite lookup_insert_ne.
    + intros Hnd s' Hs'. apply NoDup_cons in Hnd as [Hnotin Hnd].
      apply elem_of_cons in Hs' as [->|Hs'].
      * exists p. split.
        -- rewrite (Hstore _ Hnotin). subst W1. simpl. apply lookup_insert_eq.
        -- apply Hheap. subst W1. simpl. apply lookup_insert_eq.
      * by apply Hall.
Qed.

(** Under the invariant the map that [SessionDump] builds has, for every
    entry of the store, the dump of its session under the same key. *)
Lemma dump_map W :
  keyedById (heap W) (activeSessions W) →
  map_fold (λ _ sx m, dumpStep W sx m) ∅ (activeSessions W)
  = (λ sx, dumpEntry (deref sx W)) <$> activeSessions W.
Proof.
  apply (map_fold_weak_ind
    (λ r a, keyedById (heap W) a → r = (λ sx, dumpEntry (deref sx W)) <$> a)).
  - intros _. by rewrite fmap_empty.
  - intros k p a r Hk IH Hkeyed. rewrite fmap_insert. unfold dumpStep.
    destruct (Hkeyed k p) as (s & Hs & Hid); [apply lookup_insert_eq|].
    unfold deref at 1. rewrite Hs. simpl. rewrite Hid. f_equal.
    apply IH. intros k' p' Hk'. apply Hkeyed.
    rewrite lookup_insert_ne; [done|]. intros <-. congruence.
Qed.

Lemma ids_of_entries W (a : gmap string loc) :
  keyedById (heap W) a →
  (∀ k, is_Some (a !! k) → toValidUTF8 k = k) →
  (λ s, toValidUTF8 (id s))
    <$> ((λ kp : string * loc, deref kp.2 W) <$> map_to_list a)
  = (map_to_list a).*1.
Proof.
  intros Hk Hv. rewrite <- list_fmap_compose. apply list_fmap_ext.
  intros i [k p] Hi. simpl.
  apply list_elem_of_lookup_2, elem_of_map_to_list in Hi.
  destruct (Hk k p Hi) as (s & Hs & Hid). unfold deref. rewrite Hs. simpl.
  rewrite Hid. apply Hv. eauto.
Qed.

Lemma SessionDump_written path W W1 :
  SessionDump formatRFC3339Nano path W = (None, W1) →
  path ≠ ""
  ∧ fs W1 !! path =
      Some (NFile (Doc (toJSON formatRFC3339Nano
        (VMap (map_fold (λ _ sx m, dumpStep W sx m) ∅ (activeSessions W)))))).
Proof.
  unfold SessionDump, openTrunc. intros H.
  destruct (decide (path = "")) as [|Hne]; [done|]. split; [done|].
  destruct (fs W !! path) as [[|c]|]; simpl in H; try done;
    injection H as <-; simpl; apply lookup_insert_eq.
Qed.


End CheckpointProperties.

(** ** Request dispatcher *)

Lemma newSession_shape id0 W :
  match newSession id0 W with
  | (Some _, None, _) | (None, Some _, _) => True
  | _ => False
  end.
Proof.
  unfold newSession.
  destruct (if decide (id0 = "") then _ else _) as [[i [e|]] W1]; simpl; [done|].
  by destruct (activeSessions W1 !! i).
Qed.

Lemma startSession_run r st :
  let id0 := default "" (RequestCookie "sessionid" r) in
  let isNew := bool_decide (RequestCookie "sessionid" r = None) in
  startSession r st =
  match newSession id0 (dWorld st) with
  | (Some p, err, W1) =>
      (Next (Some p, isNew, err),
       mkDState (SetCookie (GetCookie p W1).1 (dW st)) (GetCookie p W1).2
                (dLog st) (dCalls st))
  | (None, err, W1) =>
      (Next (None, isNew, err), mkDState (dW st) W1 (dLog st) (dCalls st))
  end.
Proof.
  unfold startSession, bind, onWorld, onWriter, ret.
  destruct (RequestCookie "sessionid" r) as [v|]; simpl;
    destruct (newSession _ (dWorld st)) as [[[p|] err] W1]; reflexivity.
Qed.

(** A status code that [WriteHeader] takes as the status of the
    response. *)
Lemma WriteHeader_final code w :
  checkWriteHeaderCode code = true → informational code = false →
  WriteHeader code w = (Returned (), sendStatus code w).
Proof.
  intros Hc Hi. unfold WriteHeader, sendStatus. rewrite Hc, Hi.
  by destruct (wStatus w).
Qed.

Lemma writeHeader_final code st :
  checkWriteHeaderCode code = true → informational code = false →
  writeHeader code st
  = (Next (), mkDState (sendStatus code (dW st)) (dWorld st) (dLog st)
                (dCalls st)).
Proof.
  intros Hc Hi. unfold writeHeader, onWriterP. by rewrite WriteHeader_final.
Qed.

Lemma writeResult_calls res err st :
  dCalls (writeResult res err st).2 = dCalls st.
Proof.
  unfold writeResult, bind, Logf, onWriter, return_, ret, panic.
  destruct err as [e|].
  { by rewrite writeHeader_final. }
  destruct res as [|[resp|v] res]; simpl; [done| |done].
  unfold onWriterP. by destruct (Write resp (dW st)) as [[[]|] w].
Qed.

Lemma recover_calls (x : Ctl unit * DState) :
  dCalls (match x with
          | (Panic i, st1) => snd (Logf ERROR i st1)
          | (_, st1) => st1
          end) = dCalls x.2.
Proof. by destruct x as [[[]| |msg] st1]. Qed.

Lemma bind_run {A B} (c : M A) (k : A → M B) st :
  bind c k st = match c st with
                | (Next a, st1) => k a st1
                | (Return_, st1) => (Return_, st1)
                | (Panic msg, st1) => (Panic msg, st1)
                end.
Proof. reflexivity. Qed.

(** What [handleRequest] does once the session is resolved: the redirect,
    the configuration error, or a call of the handler. *)
Lemma handleRequest_resolved m request hasAuth r st s isNew st1 :
  startSession r st = (Next (Some s, isNew, None), st1) →
  let out := handleRequest (Some m) request hasAuth r st in
  if (isNew && negb (bool_decide (request = "Login")))
     || (hasAuth && bool_decide (User s (dWorld st1) = ""))
  then out = mkDState
               (sendStatus StatusTemporaryRedirect
                  (HeaderSet "Location" "/Login" (dW st1)))
               (dWorld st1) (dLog st1) (dCalls st1)
  else if bool_decide (NumIn m = 1 ∨ NumIn m = 2)
  then ∃ args, dCalls out = (dCalls st1 ++ [args])%list
  else out = mkDState
               (sendStatus StatusInternalServerError (dW st1))
               (dWorld st1)
               (dLog st1 ++ [mkLog ERROR "handler has a wrong number of parameters"])
               (dCalls st1).
Proof.
  intros Hs out. subst out. unfold handleRequest, handleRequestBody.
  rewrite bind_run, Hs.
  destruct (isNew && negb (bool_decide (request = "Login"))) eqn:Hnew.
  { rewrite !bind_run. cbn [onWriter]. rewrite bind_run.
    rewrite writeHeader_final by done. simpl. by destruct st1. }
  rewrite bind_run. cbn [ret]. rewrite bind_run. cbn [onWorld].
  destruct (hasAuth && bool_decide (User s (dWorld st1) = "")) eqn:Hauth.
  { rewrite !bind_run. cbn [onWriter]. rewrite bind_run.
    rewrite writeHeader_final by done. simpl. reflexivity. }
  cbn [orb]. rewrite bind_run. unfold ret at 1. cbv beta iota.
  rewrite bind_run.
  assert (∀ args,
    ∃ args', dCalls
      (let (c, st0) :=
         match call m args
                 (mkDState (dW st1) (dWorld st1) (dLog st1) (dCalls st1)) with
         | (Next a, st2) => (let '(res, err) := a in writeResult res err) st2
         | (Return_, st2) => (Return_, st2)
         | (Panic msg, st2) => (Panic msg, st2)
         end in
       match c with
       | Panic i => (Logf ERROR i st0).2
       | _ => st0
       end) = (dCalls st1 ++ [args'])%list) as Hcall.
  { intros args. exists args. unfold call. cbn [dWorld dW dLog dCalls].
    destruct (F m args (dWorld st1)) as [[[res err]|] W2]; [|done].
    set (st2 := mkDState _ _ _ _).
    pose proof (writeResult_calls res err st2) as Hw.
    pose proof (recover_calls (writeResult res err st2)) as Hr.
    destruct (writeResult res err st2) as [c st3]. simpl in *.
    by rewrite Hr, Hw. }
  destruct (NumIn m) as [|[q|[q|q|]|]|q]; simpl;
    first [ apply Hcall
          | rewrite !bind_run; cbn [Logf]; rewrite bind_run;
            rewrite writeHeader_final by done; reflexivity ].
Qed.

(** C3.  For a request that reaches the dispatcher with a resolved
    handler: when the session is resolved, the response is the 307 redirect
    to [/Login] with no call of the handler exactly when the session is new
    (no cookie was presented) and the handler name is not ["Login"], or the
    path requires authentication and the session has no user; a new
    session's cookie is on that same response.  When no session could be
    created there is no such redirect. *)
Theorem C3_login_redirect (m : Method) (request : string) (hasAuth : bool)
    (r : Request) (W : World) :
  let out := handleRequest (Some m) request hasAuth r (initState W) in
  match startSession r (initState W) with
  | (Next (Some s, isNew, None), st1) =>
      (isNew = true ↔ RequestCookie "sessionid" r = None)
      ∧ (redirectedToLogin out ↔
           (isNew = true ∧ request ≠ "Login")
           ∨ (hasAuth = true ∧ User s (dWorld st1) = ""))
      ∧ (isNew = true → request ≠ "Login" →
           ∃ c, wCookies (dW out) = [c]
                ∧ Name c = "sessionid"
                ∧ Value c = id (deref s (dWorld st1)))
  | _ => ¬ redirectedToLogin out
  end.
Proof.
  intros out.
  pose proof (startSession_run r (initState W)) as Hrun.
  pose proof (newSession_shape (default "" (RequestCookie "sessionid" r)) W)
    as Hshape.
  cbn [dWorld initState dW dLog dCalls] in Hrun.
  destruct (newSession _ W) as [[[s|] [e|]] W1]; try done; rewrite Hrun.
  - (* the session is resolved *)
    pose proof (handleRequest_resolved m request hasAuth r _ s _ _ Hrun) as Hout.
    fold out in Hout. cbn [dWorld dW dLog dCalls] in Hout |- *.
    set (isNew := bool_decide (RequestCookie "sessionid" r = None)) in *.
    set (user := User s (GetCookie s W1).2) in *.
    split; [apply bool_decide_eq_true|].
    destruct (isNew && negb (bool_decide (request = "Login"))) eqn:Hnew;
      [|destruct (hasAuth && bool_decide (user = "")) eqn:Hauth];
      cbn [orb] in Hout.
    + apply andb_prop in Hnew as [Hn Hl].
      apply negb_true_iff, bool_decide_eq_false in Hl.
      rewrite Hout. split.
      * split; [intros _; by left|]. intros _.
        unfold redirectedToLogin. simpl. by rewrite lookup_insert_eq.
      * intros _ _. eexists. split; [reflexivity|]. done.
    + apply andb_prop in Hauth as [Ha Hu]. apply bool_decide_eq_true in Hu.
      rewrite Hout. split.
      * split; [intros _; by right|]. intros _.
        unfold redirectedToLogin. simpl. by rewrite lookup_insert_eq.
      * intros _ _. eexists. split; [reflexivity|]. done.
    + assert (¬ (isNew = true ∧ request ≠ "Login")) as Hno1.
      { intros [Hn Hl]. rewrite Hn in Hnew. simpl in Hnew.
        apply negb_false_iff, bool_decide_eq_true in Hnew. done. }
      assert (¬ (hasAuth = true ∧ user = "")) as Hno2.
      { intros [Ha Hu]. rewrite Ha in Hauth. simpl in Hauth.
        apply bool_decide_eq_false in Hauth. done. }
      assert (¬ redirectedToLogin out) as Hno.
      { intros (Hst & _ & Hcalls).
        destruct (bool_decide (NumIn m = 1 ∨ NumIn m = 2)).
        - destruct Hout as [args Hargs]. rewrite Hcalls in Hargs. done.
        - rewrite Hout in Hst. done. }
      split; [split; [done|tauto]|].
      intros Hn Hl. exfalso. apply Hno1. done.
  - (* the session could not be created *)
    intros (Hst & _). subst out.
    unfold handleRequest, handleRequestBody in Hst.
    rewrite bind_run, Hrun in Hst. done.
Qed.

(** C6, as the code has it.  A handler whose parameter count is neither 1
    nor 2 is never called and the response is never 404.  Once the session
    is resolved and neither login redirect applies, the dispatcher logs the
    configuration error and responds 500. *)
Theorem C6_wrong_arity (m : Method) (request : string) (hasAuth : bool)
    (r : Request) (W : World) :
  NumIn m ≠ 1 → NumIn m ≠ 2 →
  let out := handleRequest (Some m) request hasAuth r (initState W) in
  dCalls out = []
  ∧ wStatus (dW out) ≠ Some StatusNotFound
  ∧ ∀ s isNew st1,
      startSession r (initState W) = (Next (Some s, isNew, None), st1) →
      isNew && negb (bool_decide (request = "Login")) = false →
      hasAuth && bool_decide (User s (dWorld st1) = "") = false →
      wStatus (dW out) = Some StatusInternalServerError
      ∧ dLog out = [mkLog ERROR "handler has a wrong number of parameters"].
Proof.
  intros H1 H2 out.
  pose proof (startSession_run r (initState W)) as Hrun.
  pose proof (newSession_shape (default "" (RequestCookie "sessionid" r)) W)
    as Hshape.
  cbn [dWorld initState dW dLog dCalls] in Hrun.
  destruct (newSession _ W) as [[[s|] [e|]] W1]; try done.
  - pose proof (handleRequest_resolved m request hasAuth r _ s _ _ Hrun) as Hout.
    fold out in Hout. cbn [dWorld dW dLog dCalls] in Hout.
    rewrite (bool_decide_eq_false_2 (NumIn m = 1 ∨ NumIn m = 2)) in Hout
      by (intros [?|?]; done).
    destruct (_ || _) eqn:Hcond in Hout.
    + rewrite Hout. split; [done|]. split; [done|].
      intros s' b st' Hs Hn Ha. rewrite Hrun in Hs.
      injection Hs as <- <- <-. simpl in Ha, Hcond.
      rewrite Hn, Ha in Hcond. done.
    + rewrite Hout. split; [done|]. split; [done|]. intros; by split.
  - subst out. unfold handleRequest, handleRequestBody.
    rewrite bind_run, Hrun. split; [done|]. split; [done|].
    intros s' b st' Hs. done.
Qed.

(** What the dispatcher does with a handler result that is not a
    [Response]: [resp] is still [nil] at [resp.Write(w)], the call panics,
    the deferred function logs it, and nothing is written. *)
Lemma writeResult_raw (v : goval) (rest : list iface) (st : DState) :
  writeResult (IValue v :: rest) None st
  = (Panic "invalid memory address or nil pointer dereference", st).
Proof. reflexivity. Qed.

(** ** Controller resolver *)

Section ResolverProperties.

Variable Controller : Type.
Variable GetProperty : Controller → string → string → list string → option Controller.

Local Abbreviation resolveLoop := (resolveLoop Controller GetProperty).

Lemma resolveLoop_step name next rest c hasAuth trace :
  resolveLoop (name :: next :: rest) (Some c) hasAuth trace =
  match GetProperty c name "" ["controller"; "auth"] with
  | Some ca =>
      resolveLoop (next :: rest) (Some ca) true
        (trace ++ [mkLookup Controller c name ["controller"; "auth"]])%list
  | None =>
      resolveLoop (next :: rest) (GetProperty c name "" ["controller"]) hasAuth
        ((trace ++ [mkLookup Controller c name ["controller"; "auth"]])
           ++ [mkLookup Controller c name ["controller"]])%list
  end.
Proof. simpl. by destruct (GetProperty c name "" ["controller"; "auth"]). Qed.

Lemma resolveLoop_stop_nil st hasAuth trace :
  resolveLoop st None hasAuth trace = (st, None, hasAuth, trace).
Proof. by destruct st as [|? [|? ?]]. Qed.

(** Once set, [hasAuth] stays set. *)
Lemma resolveLoop_sticky st c trace :
  (resolveLoop st c true trace).1.2 = true.
Proof.
  revert c trace. induction st as [|name st IH]; intros c trace; [done|].
  destruct st as [|next rest]; [done|].
  destruct c as [c|]; [|done].
  rewrite resolveLoop_step.
  destruct (GetProperty c name "" ["controller"; "auth"]); apply IH.
Qed.

(** The lookups made extend the trace, and a plain sub-controller is only
    looked up where the auth-gated lookup found nothing. *)
Lemma resolveLoop_trace st c hasAuth trace :
  ∃ new,
    (resolveLoop st c hasAuth trace).2 = (trace ++ new)%list
    ∧ ∀ lk, lk ∈ new → lkSuffixes Controller lk = ["controller"] →
        GetProperty (lkController Controller lk) (lkName Controller lk) ""
          ["controller"; "auth"] = None.
Proof.
  revert c hasAuth trace. induction st as [|name st IH]; intros c hasAuth trace.
  { exists []. split; [by rewrite app_nil_r|]. intros lk Hlk. by inversion Hlk. }
  destruct st as [|next rest].
  { exists []. split; [by rewrite app_nil_r|]. intros lk Hlk. by inversion Hlk. }
  destruct c as [c|].
  2:{ exists []. split; [by rewrite app_nil_r|]. intros lk Hlk. by inversion Hlk. }
  rewrite resolveLoop_step.
  destruct (GetProperty c name "" ["controller"; "auth"]) as [ca|] eqn:Hauth.
  - destruct (IH (Some ca) true
                (trace ++ [mkLookup Controller c name ["controller"; "auth"]])%list)
      as (new & Hnew & Hplain).
    exists (mkLookup Controller c name ["controller"; "auth"] :: new).
    split; [by rewrite Hnew, <- app_assoc|].
    intros lk Hlk Hs. apply elem_of_cons in Hlk as [->|Hlk]; [done|].
    by apply Hplain.
  - destruct (IH (GetProperty c name "" ["controller"]) hasAuth
                ((trace ++ [mkLookup Controller c name ["controller"; "auth"]])
                   ++ [mkLookup Controller c name ["controller"]])%list)
      as (new & Hnew & Hplain).
    exists (mkLookup Controller c name ["controller"; "auth"]
            :: mkLookup Controller c name ["controller"] :: new).
    split; [by rewrite Hnew, <- !app_assoc|].
    intros lk Hlk Hs. apply elem_of_cons in Hlk as [->|Hlk]; [done|].
    apply elem_of_cons in Hlk as [->|Hlk]; [done|].
    by apply Hplain.
Qed.

(** C5.  At any point of the walk, when the segment popped names an
    auth-gated sub-controller (a plain one of the same name may exist or
    not), the auth-gated lookup is the one made, the walk goes on from the
    auth-gated sub-controller with [hasAuth] set, and [hasAuth] is set at
    the end of the resolution; in the rest of the walk a plain
    sub-controller is looked up only where the auth-gated lookup of that
    name found nothing. *)
Theorem C5_auth_gated_first (c ca : Controller) (name next : string)
    (rest : list string) (hasAuth : bool) (trace : list (Lookup Controller)) :
  GetProperty c name "" ["controller"; "auth"] = Some ca →
  let gated := mkLookup Controller c name ["controller"; "auth"] in
  let result := resolveLoop (name :: next :: rest) (Some c) hasAuth trace in
  result = resolveLoop (next :: rest) (Some ca) true (trace ++ [gated])%list
  ∧ result.1.2 = true
  ∧ ∃ more,
      result.2 = (trace ++ gated :: more)%list
      ∧ ∀ lk, lk ∈ more →
          lkSuffixes Controller lk = ["controller"] →
          GetProperty (lkController Controller lk) (lkName Controller lk) ""
            ["controller"; "auth"] = None.
Proof.
  intros Hauth gated result.
  assert (result = resolveLoop (next :: rest) (Some ca) true
                     (trace ++ [gated])%list) as Hstep.
  { subst result. rewrite resolveLoop_step, Hauth. reflexivity. }
  split; [exact Hstep|]. split.
  - rewrite Hstep. apply resolveLoop_sticky.
  - rewrite Hstep.
    destruct (resolveLoop_trace (next :: rest) (Some ca) true
                (trace ++ [gated])%list) as (more & -> & Hplain).
    exists more. split; [by rewrite <- app_assoc|]. exact Hplain.
Qed.

End ResolverProperties.

(** ** Static fallback *)

Lemma string_length_app (s1 s2 : string) :
  String.length (s1 +:+ s2) = (String.length s1 + String.length s2)%nat.
Proof. induction s1 as [|c s1 IH]; simpl; [done|]. by rewrite IH. Qed.

Lemma maxPathLength_bound (files : gmap string Node) p n :
  files !! p = Some n → (String.length p ≤ maxPathLength files)%nat.
Proof.
  unfold maxPathLength. revert p n.
  apply (map_fold_weak_ind
    (λ r (m : gmap string Node), ∀ p n, m !! p = Some n → (String.length p ≤ r)%nat)).
  - intros p n H. by rewrite lookup_empty in H.
  - intros i x m r Hi IH p n Hp.
    destruct (decide (i = p)) as [->|Hne].
    + apply Nat.le_max_l.
    + rewrite lookup_insert_ne in Hp by done.
      etrans; [apply (IH p n Hp)|]. apply Nat.le_max_r.
Qed.

Lemma segments_nonempty s cur : Forall (λ x, x ≠ "") (segments s cur).
Proof.
  revert cur. induction s as [|c s IH]; intros cur; simpl.
  - destruct (decide (cur = "")); by repeat constructor.
  - destruct (Ascii.eqb c "/"); [|apply IH].
    apply Forall_app. split; [|apply IH].
    destruct (decide (cur = "")); by repeat constructor.
Qed.

Lemma Serves_dir_inv files p f :
  files !! p = Some NDir → Serves files p f →
  Serves files (p +:+ "/" +:+ "index.html") f.
Proof. intros Hp HS. inversion HS; subst; congruence. Qed.

(** A call with nothing left to pop (no stack, or an empty one) tries the
    path itself, with enough fuel for the chain of [index.html]. *)
Lemma handleFile_end files fuel p uri w :
  (uri = None ∨ ∃ u, uri = Some u ∧ stack u = []) →
  (1 + (maxPathLength files + 1 - String.length p) ≤ fuel)%nat →
  ∃ o e, handleFile fuel files p uri w = Some (fileOutcome o e w)
       ∧ match o with
         | Some f => Serves files p f
         | None => Misses files p
         end.
Proof.
  revert p uri. induction fuel as [|fuel IH]; intros p uri Huri Hfuel; [lia|].
  assert (handleFile (S fuel) files p uri w =
          match files !! p with
          | None => Some (Some (ErrStat p), w)
          | Some NDir =>
              handleFile fuel files (p +:+ "/" +:+ "index.html") None w
          | Some (NFile _) => Some (None, ServeFile p w)
          end) as ->.
  { destruct Huri as [->|(u & -> & Hu)]; simpl; [done|].
    unfold Pop. rewrite Hu. done. }
  destruct (files !! p) as [[|c]|] eqn:Hp.
  - destruct (IH (p +:+ "/" +:+ "index.html") None) as (o & e & -> & Ho);
      [by left| |].
    { pose proof (maxPathLength_bound files p _ Hp).
      rewrite !string_length_app. simpl. lia. }
    exists o, e. split; [done|]. destruct o as [f|].
    + by apply serves_index.
    + intros f HS. eapply Ho, Serves_dir_inv; done.
  - exists (Some p), ErrNotExist. split; [done|]. by eapply serves_file.
  - exists None, (ErrStat p). split; [done|].
    intros f HS. inversion HS; congruence.
Qed.

Lemma StaticResult_more files cands dist f :
  StaticResult files cands (Some f) →
  StaticResult files (cands ++ [dist]) (Some f).
Proof.
  inversion 1 as [before c after f' -> Hmiss HS|]; subst.
  apply (static_found files _ before c (after ++ [dist]) f); [|done|done].
  by rewrite <- app_assoc.
Qed.

Lemma StaticResult_last files cands dist o :
  StaticResult files cands None →
  match o with
  | Some f => Serves files dist f
  | None => Misses files dist
  end →
  StaticResult files (cands ++ [dist]) o.
Proof.
  inversion 1 as [|Hmiss]; subst. intros Ho. destruct o as [f|].
  - by apply (static_found files _ cands dist [] f).
  - apply static_not_found, Forall_app. split; [done|]. by constructor.
Qed.

(** [handleFile] on a stack of non-empty segments, with enough fuel,
    returns, and what it does is what the first candidate that serves a
    file decides. *)
Lemma handleFile_walk files segs :
  ∀ dist fuel u w,
    stack u = segs →
    Forall (λ x, x ≠ "") segs →
    (enoughFuel files segs ≤ fuel)%nat →
    ∃ o e, handleFile fuel files dist (Some u) w = Some (fileOutcome o e w)
         ∧ StaticResult files (candidates dist segs) o.
Proof.
  unfold enoughFuel.
  induction segs as [|x rest IH]; intros dist fuel u w Hu Hne Hfuel.
  - destruct (handleFile_end files fuel dist (Some u) w)
      as (o & e & Ho & Hserve).
    { right. by exists u. }
    { simpl in Hfuel. lia. }
    exists o, e. split; [done|]. simpl.
    apply (StaticResult_last files [] dist o); [|done].
    by apply static_not_found.
  - destruct fuel as [|fuel]; [simpl in Hfuel; lia|].
    apply Forall_cons in Hne as [Hx Hne].
    destruct (IH (dist +:+ "/" +:+ x) fuel (mkURI (path u) rest) w)
      as (o1 & e1 & Ho1 & Hres1); [done|done|simpl in Hfuel |- *; lia|].
    assert (handleFile (S fuel) files dist (Some u) w =
            match o1 with
            | Some f => Some (None, ServeFile f w)
            | None => handleFile (S fuel) files dist None w
            end) as ->.
    { simpl. unfold Pop. rewrite Hu.
      destruct (decide (x ≠ "")) as [_|]; [|done].
      rewrite Ho1. by destruct o1. }
    destruct o1 as [f|].
    + exists (Some f), e1. split; [done|]. simpl. by apply StaticResult_more.
    + destruct (handleFile_end files (S fuel) dist None w)
        as (o & e & Ho & Hserve).
      { by left. }
      { simpl in Hfuel. lia. }
      exists o, e. split; [done|]. simpl. by apply StaticResult_last.
Qed.

Lemma handleDist_result fuel dist uri st :
  (enoughFuel (fs (dWorld st)) (segments (path uri) "") ≤ fuel)%nat →
  ∃ o, StaticResult (fs (dWorld st))
         (candidates dist (segments (path uri) "")) o
       ∧ handleDist fuel dist uri st =
         Some match o with
              | Some f =>
                  mkDState (ServeFile f (dW st)) (dWorld st) (dLog st) (dCalls st)
              | None =>
                  mkDState (NotFound (dW st)) (dWorld st)
                    (dLog st ++ [mkLog INFO ("not found `%s`" +:+ path uri)])
                    (dCalls st)
              end.
Proof.
  intros Hfuel. unfold handleDist.
  destruct (handleFile_walk (fs (dWorld st)) (segments (path uri) "")
              dist fuel (ResetStack uri) (dW st))
    as (o & e & Ho & Hres); [done|apply segments_nonempty|done|].
  exists o. split; [done|]. rewrite Ho. by destruct o.
Qed.

Section FallbackProperties.

Variable Controller : Type.
Variable GetProperty : Controller → string → string → list string → option Controller.
Variable GetMethod : Controller → string → string → option Method.

Local Abbreviation resolveHandler :=
  (resolveHandler Controller GetProperty GetMethod).
Local Abbreviation getHandler := (getHandler Controller GetProperty GetMethod).

Lemma resolveHandler_path controller uri :
  path (resolveHandler controller uri).2 = path uri.
Proof.
  unfold resolveHandler.
  destruct (resolveLoop Controller GetProperty (stack uri) (Some controller)
              false []) as [[[rest [c|]] hasAuth] trace]; [|done].
  unfold Pop. simpl. by destruct rest.
Qed.

(** C10.  When no handler resolves, the request is served from the static
    root on the path stack rebuilt from the request path: with enough fuel
    [getHandler] returns, and among the candidates (the full nested path
    first, then each shorter prefix down to the root) the first that serves
    a file decides, where a path that is a regular file serves itself and a
    path that is a directory serves what its [index.html] serves; if no
    candidate serves a file the response is not-found. *)
Theorem C10_static_fallback (controller : Controller) (dist : string)
    (r : Request) (st : DState) (fuel : nat)
    (request : string) (hasAuth : bool) (uri' : URI) :
  resolveHandler controller (InitURI (RequestURI r))
  = (request, None, hasAuth, uri') →
  (enoughFuel (fs (dWorld st)) (segments (RequestURI r) "") ≤ fuel)%nat →
  ∃ o, StaticResult (fs (dWorld st))
         (candidates dist (segments (RequestURI r) "")) o
       ∧ getHandler fuel controller dist r st =
         Some match o with
              | Some f =>
                  mkDState (ServeFile f (dW st)) (dWorld st)
                    (dLog st ++ [mkLog INFO ("URI: " +:+ RequestURI r)])
                    (dCalls st)
              | None =>
                  mkDState (NotFound (dW st)) (dWorld st)
                    ((dLog st ++ [mkLog INFO ("URI: " +:+ RequestURI r)])
                       ++ [mkLog INFO ("not found `%s`" +:+ RequestURI r)])
                    (dCalls st)
              end.
Proof.
  intros Hres Hfuel.
  pose proof (resolveHandler_path controller (InitURI (RequestURI r))) as Hpath.
  rewrite Hres in Hpath. simpl in Hpath.
  unfold getHandler. rewrite Hres.
  set (st1 := (Logf INFO ("URI: " +:+ RequestURI r) st).2).
  destruct (handleDist_result fuel dist uri' st1) as (o & Ho & Hd).
  { by rewrite Hpath. }
  rewrite Hpath in Ho, Hd. exists o. split; [exact Ho|]. exact Hd.
Qed.

End FallbackProperties.

(* ===================================================================== *)
(** * The properties on concrete inputs                                   *)
(* ===================================================================== *)

(** ** Where the code departs from its specification *)

(** C1.  A handler returns the plain string ["hello"] to a logged-in
    session.  The handler is called, and then nothing is written: no
    status, no body, no JSON envelope; the log has the recovered nil
    dereference of [resp.Write(w)]. *)
Theorem C1_raw_result_not_written :
  let out :=
    handleRequest (Some exHello) "Profile" false exWithCookie (initState exOne) in
  dCalls out = [[ArgSession 1%positive]]
  ∧ wStatus (dW out) = None
  ∧ wBody (dW out) = []
  ∧ dLog out =
      [mkLog ERROR "invalid memory address or nil pointer dereference"]
  ∧ wBody
      (JsonWrite (JsonSet "data" (VString "hello") InitJsonResponse) newWriter).2
    = [ChunkJSON (<["data" := VString "hello"]>
                 (<["errors" := VStrings []]>
                 (<["session" := VBool true]> ∅)))].
Proof. vm_compute. repeat split. Qed.

(** C7.  The dump file exists and does not hold JSON.  [RestoreSessions]
    returns [nil], [Run] logs nothing and goes on with the store as it was;
    the decoder did fail.  A missing file, by contrast, is reported. *)
Theorem C7_decode_failure_not_reported :
  (decodeInto (fs exGarbage !! "sessions.json") ∅).1
    = Some ErrDecode
  ∧ RestoreSessions exParse "sessions.json" exGarbage = (Returned None, exGarbage)
  ∧ RunRestore exParse "sessions.json" exGarbage = (true, [], exGarbage)
  ∧ (RestoreSessions exParse "missing.json" exGarbage).1
    = Returned (Some (Appended ErrNotExist)).
Proof. vm_compute. repeat split. Qed.

(** The first half of C7 holds: an empty path is a no-op success. *)
Lemma RestoreSessions_empty_path parse W :
  RestoreSessions parse "" W = (Returned None, W).
Proof. reflexivity. Qed.


(** The text of a user name: a user that is the byte 0xFF comes back from
    dump and restore as U+FFFD. *)
Lemma restored_user_is_text :
  let W := restart (SessionDump exFormat "sessions.json" exBytes).2 in
  ∃ W' p' s',
    RestoreSessions exParse "sessions.json" W = (Returned None, W')
    ∧ activeSessions W' !! "abc" = Some p'
    ∧ heap W' !! p' = Some s'
    ∧ userName s'
      = String (ascii_of_N 239) (String (ascii_of_N 191)
          (String (ascii_of_N 189) EmptyString))
    ∧ userName s' ≠ User 1%positive exBytes.
Proof.
  cbv zeta. do 3 eexists.
  split; [vm_compute; reflexivity|].
  split; [vm_compute; reflexivity|].
  split; [vm_compute; reflexivity|].
  split; [vm_compute; reflexivity|]. vm_compute. discriminate.
Qed.

(** C6 as stated fails: a request without cookie for a handler declared
    with no parameter is redirected to the login path; it gets no 500 and
    nothing is logged. *)
Lemma C6_redirect_comes_first :
  let out :=
    handleRequest (Some exNoParam) "Dashboard" false exNoCookie (initState exFresh) in
  NumIn exNoParam ≠ 1 ∧ NumIn exNoParam ≠ 2
  ∧ wStatus (dW out) = Some StatusTemporaryRedirect
  ∧ wStatus (dW out) ≠ Some StatusInternalServerError
  ∧ dLog out = [].
Proof. vm_compute. repeat split; discriminate. Qed.

(** C8 as stated fails: [RestoreSessions] puts an id into the store, and it
    is not [newSession]. *)
Lemma C8_restore_adds_entries :
  let W := restart (SessionDump exFormat "sessions.json" exOne).2 in
  let o := OpRestoreSessions "sessions.json" in
  activeSessions W !! "abc" = None
  ∧ activeSessions (runOp exFormat exParse o W) !! "abc" = Some 1%positive
  ∧ ∀ id0, o ≠ OpNewSession id0.
Proof. cbv zeta. split; [|split]; [vm_compute; reflexivity..|discriminate]. Qed.

(** ** The theorems at concrete inputs *)

Lemma exDecoded_keyedById : keyedById (heap exDecoded) (activeSessions exDecoded).
Proof.
  intros k p Hk. cbn [exDecoded activeSessions] in Hk.
  apply lookup_insert_Some in Hk as [[<- <-]|[_ Hk]]; [|done].
  exists exBob. split; reflexivity.
Defined.

Lemma exDecoded_times k p s :
  activeSessions exDecoded !! k = Some p → heap exDecoded !! p = Some s →
  exParse (exFormat (lastOp s)) = Some (serialized (lastOp s)).
Proof.
  intros Hk Hp. cbn [exDecoded activeSessions heap] in Hk, Hp.
  apply lookup_insert_Some in Hk as [[<- <-]|[_ Hk]]; [|done].
  apply lookup_insert_Some in Hp as [[_ <-]|[Hne _]]; [|done].
  vm_compute. reflexivity.
Defined.

Lemma exDecoded_valid k :
  is_Some (activeSessions exDecoded !! k) → validUTF8 k = true.
Proof.
  intros [p Hk]. cbn [exDecoded activeSessions] in Hk.
  apply lookup_insert_Some in Hk as [[<- _]|[_ Hk]]; [reflexivity|done].
Defined.


Lemma C4_witness :
  RequestCookie "sessionid" exWithCookie = Some "abc"
  ∧ "abc" ≠ ""
  ∧ activeSessions (dWorld (initState exFresh)) !! "abc" = None
  ∧ ∃ p st', startSession exWithCookie (initState exFresh)
             = (Next (Some p, false, None), st')
      ∧ activeSessions (dWorld st') !! "abc" = Some p
      ∧ ∃ t, heap (dWorld st') !! p = Some (mkSession "abc" "" t ∅).
Proof.
  assert ("abc" ≠ "") as Hne by discriminate.
  repeat (split; [done|]).
  destruct (C4_unknown_id_is_adopted exWithCookie (initState exFresh) "abc"
              eq_refl Hne eq_refl)
    as (p & st' & t & Hs & _ & _ & Ha & Hh & _).
  exists p, st'. split; [exact Hs|]. split.
  - rewrite Ha. apply lookup_insert_eq.
  - by exists t.
Defined.

Lemma C9_witness :
  RequestCookie "sessionid" exWithCookie = Some "abc"
  ∧ "abc" ≠ ""
  ∧ activeSessions (dWorld (initState exOne)) !! "abc" = Some 1%positive
  ∧ heap (dWorld (initState exOne)) !! 1%positive = Some exAlice
  ∧ ∃ st', startSession exWithCookie (initState exOne)
           = (Next (Some 1%positive, false, None), st')
      ∧ activeSessions (dWorld st') = activeSessions exOne
      ∧ heap (dWorld st') =
          <[1%positive := mkSession "abc" "alice" (exClock 1) (data exAlice)]>
            (heap exOne).
Proof.
  assert ("abc" ≠ "") as Hne by discriminate.
  repeat (split; [done|]).
  destruct (C9_known_id_is_refreshed exWithCookie (initState exOne) "abc"
              1%positive exAlice eq_refl Hne eq_refl eq_refl)
    as (st' & now & Hs & -> & Ha & Hh).
  exists st'. split; [exact Hs|]. split; [exact Ha|]. exact Hh.
Defined.

Lemma C5_witness :
  exGetProperty 0 "Account" "" ["controller"; "auth"] = Some 1%nat
  ∧ exGetProperty 0 "Account" "" ["controller"] = Some 2%nat
  ∧ resolveLoop nat exGetProperty ["Account"; "Profile"] (Some 0%nat) false []
    = (["Profile"], Some 1%nat, true,
       [mkLookup nat 0%nat "Account" ["controller"; "auth"]]).
Proof.
  split; [reflexivity|]. split; [reflexivity|].
  destruct (C5_auth_gated_first nat exGetProperty 0%nat 1%nat "Account"
              "Profile" [] false [] eq_refl) as (Hstep & _).
  rewrite Hstep. reflexivity.
Defined.

Lemma C6_witness :
  let out :=
    handleRequest (Some exNoParam) "Profile" false exWithCookie (initState exOne) in
  NumIn exNoParam ≠ 1 ∧ NumIn exNoParam ≠ 2
  ∧ dCalls out = []
  ∧ wStatus (dW out) ≠ Some StatusNotFound
  ∧ wStatus (dW out) = Some StatusInternalServerError
  ∧ dLog out = [mkLog ERROR "handler has a wrong number of parameters"].
Proof.
  cbv zeta.
  assert (NumIn exNoParam ≠ 1) as H1 by discriminate.
  assert (NumIn exNoParam ≠ 2) as H2 by discriminate.
  split; [exact H1|]. split; [exact H2|].
  destruct (C6_wrong_arity exNoParam "Profile" false exWithCookie exOne H1 H2)
    as (Hc & Hs & Hrest).
  split; [exact Hc|]. split; [exact Hs|].
  apply (Hrest 1%positive false
           (startSession exWithCookie (initState exOne)).2);
    vm_compute; reflexivity.
Defined.

Lemma C10_witness :
  resolveHandler nat exGetProperty exGetMethod 0%nat (InitURI (RequestURI exAsset))
  = ("", None, false, mkURI "/assets/img/logo.png" ["img"; "logo.png"])
  ∧ (enoughFuel (fs exFresh) (segments (RequestURI exAsset) "") ≤ 40)%nat
  ∧ candidates "dist" (segments (RequestURI exAsset) "")
    = ["dist/assets/img/logo.png"; "dist/assets/img"; "dist/assets"; "dist"]
  ∧ ∃ o, StaticResult (fs exFresh)
           (candidates "dist" (segments (RequestURI exAsset) "")) o
      ∧ (wBody <$> (dW <$> getHandler nat exGetProperty exGetMethod 40 0%nat
                      "dist" exAsset (initState exFresh)))
        = Some [ChunkFile "dist/assets/index.html"].
Proof.
  assert (enoughFuel (fs exFresh) (segments (RequestURI exAsset) "") ≤ 40)%nat
    as Hfuel by (vm_compute; lia).
  split; [reflexivity|]. split; [exact Hfuel|]. split; [reflexivity|].
  destruct (C10_static_fallback nat exGetProperty exGetMethod 0%nat "dist"
              exAsset (initState exFresh) 40 "" false
              (mkURI "/assets/img/logo.png" ["img"; "logo.png"])
              eq_refl Hfuel) as (o & Ho & Hg).
  exists o. split; [exact Ho|]. vm_compute. reflexivity.
Defined.

(* ===================================================================== *)
(** * Further properties of the code                                      *)
(* ===================================================================== *)

(** ** Session store: generation, data, deletion *)

Lemma randLoop_ok draws store i rest :
  randLoop draws store = (i, None, rest) →
  store !! i = None
  ∧ ∃ skipped, draws = (skipped ++ RandOk i :: rest)%list
               ∧ Forall (collides store) skipped.
Proof.
  revert i rest. induction draws as [|[j|e] draws IH]; intros i rest H;
    simpl in H; [done| |done].
  destruct (store !! j) as [q|] eqn:Hj.
  - destruct (IH i rest H) as (Hi & skipped & -> & Hall).
    split; [done|]. exists (RandOk j :: skipped). split; [done|].
    constructor; [|done]. exists j. split; [done|]. by rewrite Hj.
  - injection H as <- <-. split; [done|]. by exists [].
Qed.

Lemma randLoop_fails draws store i e rest :
  randLoop draws store = (i, Some e, rest) →
  ∃ skipped, Forall (collides store) skipped
    ∧ ((draws = skipped ∧ e = ErrEntropy ∧ rest = [])
       ∨ draws = (skipped ++ RandErr e :: rest)%list).
Proof.
  revert i rest. induction draws as [|[j|e'] draws IH]; intros i rest H;
    simpl in H.
  - injection H as <- <- <-. exists []. split; [done|]. by left.
  - destruct (store !! j) as [q|] eqn:Hj; [|done].
    destruct (IH i rest H) as (skipped & Hall & Hcase).
    exists (RandOk j :: skipped). split.
    + constructor; [|done]. exists j. split; [done|]. by rewrite Hj.
    + destruct Hcase as [(-> & -> & ->)| ->]; [by left|by right].
  - injection H as <- <- <-. exists []. split; [done|]. by right.
Qed.

(** X1.  When [newSession] is called with the empty id and returns a
    session, its id is a draw of the random source that was not a key of the
    store, reached by skipping only draws that were keys; the session is a
    newly allocated one, stored under that id, with empty user and data and
    the current time. *)
Theorem X1_generated_id_is_fresh (W W' : World) (p : loc) (e : option error) :
  newSession "" W = (Some p, e, W') →
  ∃ i skipped,
    e = None
    ∧ entropy W = (skipped ++ RandOk i :: entropy W')%list
    ∧ Forall (collides (activeSessions W)) skipped
    ∧ activeSessions W !! i = None
    ∧ heap W !! p = None
    ∧ activeSessions W' = <[i := p]> (activeSessions W)
    ∧ heap W' = <[p := mkSession i "" (clock W (ticks W)) ∅]> (heap W).
Proof.
  unfold newSession. destruct (decide ("" = "")) as [_|]; [|done].
  destruct (randLoop (entropy W) (activeSessions W)) as [[i [e0|]] rest] eqn:HR;
    [done|].
  destruct (randLoop_ok _ _ _ _ HR) as (Hi & skipped & Hdraws & Hall).
  simpl. rewrite Hi. simpl. intros H. injection H as <- <- <-. simpl.
  exists i, skipped. repeat (split; [done|]).
  split; [apply fresh_heap_None|]. split; [done|].
  apply map_eq. intros q. destruct (decide (q = fresh (dom (heap W)))) as [->|Hq].
  - by rewrite lookup_alter_eq, !lookup_insert_eq.
  - by rewrite lookup_alter_ne, !lookup_insert_ne.
Qed.

Lemma X1_witness :
  newSession "" exFresh
  = (Some 1%positive, None, (newSession "" exFresh).2)
  ∧ ∃ i, activeSessions exFresh !! i = None
         ∧ activeSessions (newSession "" exFresh).2
           = <[i := 1%positive]> (activeSessions exFresh).
Proof.
  assert (newSession "" exFresh
          = (Some 1%positive, None, (newSession "" exFresh).2)) as H
    by (vm_compute; reflexivity).
  split; [exact H|].
  destruct (X1_generated_id_is_fresh _ _ _ _ H)
    as (i & skipped & _ & _ & _ & Hi & _ & Ha & _).
  exists i. split; [exact Hi|exact Ha].
Defined.

Lemma newSession_None_frame (id0 : string) (W : World) :
  (newSession id0 W).1.1 = None →
  heap (newSession id0 W).2 = heap W
  ∧ activeSessions (newSession id0 W).2 = activeSessions W.
Proof.
  unfold newSession.
  destruct (if decide (id0 = "") then _ else _) as [[i [e|]] W1] eqn:Hgen.
  - intros _. simpl. destruct (decide (id0 = "")).
    + destruct (randLoop _ _) as [[i' e'] rest]. by injection Hgen as _ _ <-.
    + by injection Hgen as _ _ <-.
  - simpl. by destruct (activeSessions W1 !! i).
Qed.

(** X2.  [newSession] fails only for the empty id, and only when the random
    source fails after draws that all were keys of the store; then the error
    is the annotated error of the source, no session is returned, and heap,
    store and clock are as before. *)
Theorem X2_generation_failure (id0 : string) (W : World) (e : error) :
  (newSession id0 W).1.2 = Some e →
  id0 = ""
  ∧ (newSession id0 W).1.1 = None
  ∧ heap (newSession id0 W).2 = heap W
  ∧ activeSessions (newSession id0 W).2 = activeSessions W
  ∧ ticks (newSession id0 W).2 = ticks W
  ∧ ∃ e0 skipped,
      e = Appended e0
      ∧ Forall (collides (activeSessions W)) skipped
      ∧ (entropy W = skipped ∧ e0 = ErrEntropy
         ∨ ∃ rest, entropy W = (skipped ++ RandErr e0 :: rest)%list).
Proof.
  unfold newSession. destruct (decide (id0 = "")) as [->|Hne].
  - destruct (randLoop (entropy W) (activeSessions W)) as [[i [e0|]] rest] eqn:HR.
    + simpl. intros H. injection H as <-. repeat (split; [done|]).
      destruct (randLoop_fails _ _ _ _ _ HR) as (skipped & Hall & Hcase).
      exists e0, skipped. split; [done|]. split; [done|].
      destruct Hcase as [(-> & -> & _)| ->]; [by left|right; by exists rest].
    + simpl. by destruct (activeSessions W !! i).
  - simpl. by destruct (activeSessions W !! id0).
Qed.

Lemma X2_witness :
  (newSession "" exOne).1.2 = Some (Appended ErrEntropy)
  ∧ (newSession "" exOne).1.1 = None
  ∧ activeSessions (newSession "" exOne).2 = activeSessions exOne.
Proof.
  assert ((newSession "" exOne).1.2 = Some (Appended ErrEntropy)) as H
    by reflexivity.
  split; [exact H|].
  destruct (X2_generation_failure "" exOne _ H) as (_ & Hs & _ & Ha & _).
  split; [exact Hs|exact Ha].
Defined.

(** X3.  When the session cannot be created, [handleRequest] answers 500
    and logs it; no cookie is set, nothing is written to the body, the
    handler is not called, and heap and store are as before. *)
Theorem X3_session_failure_is_500 (m : Method) (request : string)
    (hasAuth : bool) (r : Request) (W : World) :
  (newSession (default "" (RequestCookie "sessionid" r)) W).1.1 = None →
  let out := handleRequest (Some m) request hasAuth r (initState W) in
  wStatus (dW out) = Some StatusInternalServerError
  ∧ wCookies (dW out) = []
  ∧ wBody (dW out) = []
  ∧ dCalls out = []
  ∧ dLog out = [mkLog ERROR "session error"]
  ∧ heap (dWorld out) = heap W
  ∧ activeSessions (dWorld out) = activeSessions W.
Proof.
  intros Hnone out. subst out.
  pose proof (startSession_run r (initState W)) as Hrun.
  pose proof (newSession_shape (default "" (RequestCookie "sessionid" r)) W)
    as Hshape.
  cbn [dWorld initState dW dLog dCalls] in Hrun.
  destruct (newSession (default "" (RequestCookie "sessionid" r)) W)
    as [[[s|] [e|]] W1] eqn:HN; try done.
  pose proof (newSession_None_frame
                (default "" (RequestCookie "sessionid" r)) W) as Hframe.
  rewrite HN in Hframe. destruct (Hframe eq_refl) as (Hh & Ha).
  simpl in Hh, Ha.
  unfold handleRequest, handleRequestBody. rewrite bind_run, Hrun. simpl.
  by rewrite Hh, Ha.
Qed.

Lemma X3_witness :
  (newSession (default "" (RequestCookie "sessionid" exNoCookie)) exOne).1.1 = None
  ∧ let out :=
      handleRequest (Some exHello) "Login" false exNoCookie (initState exOne) in
    wStatus (dW out) = Some StatusInternalServerError
    ∧ wCookies (dW out) = []
    ∧ dCalls out = []
    ∧ activeSessions (dWorld out) = activeSessions exOne.
Proof.
  split; [reflexivity|].
  destruct (X3_session_failure_is_500 exHello "Login" false exNoCookie exOne
              eq_refl) as (Hs & Hc & _ & Hcalls & _ & _ & Ha).
  cbv zeta. repeat split; assumption.
Defined.

(** X4.  For an allocated session, [Get] after [Set] of the same key
    returns the value set, [Get] of another key returns what it returned
    before, and [Get] of a key that is not in the data returns [nil].
    [Set] leaves the store as it is and changes, in the heap, only the
    data and [lastOp] of that session. *)
Theorem X4_set_then_get (s : loc) (key : string) (v : goval) (W : World)
    (x : Session) :
  heap W !! s = Some x →
  (Get s key (Set_ s key v W)).1 = v
  ∧ (∀ key', key' ≠ key → (Get s key' (Set_ s key v W)).1 = (Get s key' W).1)
  ∧ (data x !! key = None → (Get s key W).1 = VNil)
  ∧ activeSessions (Set_ s key v W) = activeSessions W
  ∧ heap (Set_ s key v W)
    = <[s := mkSession (id x) (userName x) (clock W (ticks W))
                       (<[key := v]> (data x))]> (heap W).
Proof.
  intros Hs. unfold Get, Set_, update, deref, timeNow. simpl.
  rewrite !lookup_alter_eq, Hs. simpl.
  split; [by rewrite lookup_insert_eq|].
  split; [intros key' Hne; by rewrite lookup_insert_ne|].
  split; [by intros ->|]. split; [done|].
  apply map_eq. intros q. destruct (decide (q = s)) as [->|Hq].
  - by rewrite !lookup_alter_eq, lookup_insert_eq, Hs.
  - by rewrite !lookup_alter_ne, lookup_insert_ne.
Qed.

Lemma X4_witness :
  heap exOne !! 1%positive = Some exAlice
  ∧ (Get 1%positive "theme" (Set_ 1%positive "theme" (VString "dark") exOne)).1
    = VString "dark"
  ∧ (Get 1%positive "count" (Set_ 1%positive "theme" (VString "dark") exOne)).1
    = VInt 5
  ∧ (Get 1%positive "missing" exOne).1 = VNil.
Proof.
  destruct (X4_set_then_get 1%positive "theme" (VString "dark") exOne exAlice
              eq_refl) as (H1 & H2 & _).
  split; [reflexivity|]. split; [exact H1|]. split.
  - rewrite H2 by discriminate. reflexivity.
  - destruct (X4_set_then_get 1%positive "missing" VNil exOne exAlice eq_refl)
      as (_ & _ & H3 & _). apply H3. reflexivity.
Defined.

(** X5.  For an allocated session, [User] after [SetUser] returns the name
    set; [SetUser] changes nothing but the user name of that session: not
    its [lastOp] (unlike [Set] and [Get]), not the clock, not the store. *)
Theorem X5_set_user (s : loc) (usr : string) (W : World) (x : Session) :
  heap W !! s = Some x →
  User s (SetUser s usr W) = usr
  ∧ SetUser s usr W
    = setHeap (<[s := mkSession (id x) usr (lastOp x) (data x)]> (heap W)) W
  ∧ lastOp (deref s (Get s "" W).2) = clock W (ticks W).
Proof.
  intros Hs. unfold User, SetUser, Get, update, deref, timeNow. simpl.
  rewrite !lookup_alter_eq, Hs. simpl. split; [done|]. split; [|done].
  f_equal. apply map_eq. intros q. destruct (decide (q = s)) as [->|Hq].
  - by rewrite lookup_alter_eq, lookup_insert_eq, Hs.
  - by rewrite lookup_alter_ne, lookup_insert_ne.
Qed.

Lemma X5_witness :
  heap exOne !! 1%positive = Some exAlice
  ∧ User 1%positive (SetUser 1%positive "carol" exOne) = "carol"
  ∧ lastOp (deref 1%positive (SetUser 1%positive "carol" exOne)) = exClock 0.
Proof.
  destruct (X5_set_user 1%positive "carol" exOne exAlice eq_refl)
    as (H1 & H2 & _).
  split; [reflexivity|]. split; [exact H1|]. rewrite H2. reflexivity.
Defined.

(** X6.  After [Delete] of an allocated session with a non-empty id, a
    request that still presents that id gets another session: a newly
    allocated one with empty user and data, stored under the same id.  The
    deleted struct is untouched: who holds the old pointer still reads the
    old user. *)
Theorem X6_delete_then_same_cookie (s : loc) (x : Session) (r : Request)
    (st : DState) :
  heap (dWorld st) !! s = Some x →
  id x ≠ "" →
  RequestCookie "sessionid" r = Some (id x) →
  let st0 := mkDState (dW st) (Delete s (dWorld st)) (dLog st) (dCalls st) in
  ∃ p st',
    startSession r st0 = (Next (Some p, false, None), st')
    ∧ p ≠ s
    ∧ activeSessions (dWorld st') !! id x = Some p
    ∧ User p (dWorld st') = ""
    ∧ data (deref p (dWorld st')) = ∅
    ∧ heap (dWorld st') !! s = Some x.
Proof.
  intros Hs Hne Hc st0.
  assert (activeSessions (Delete s (dWorld st)) !! id x = None) as Habs.
  { unfold Delete, deref. rewrite Hs. simpl. apply lookup_delete_eq. }
  pose proof (newSession_absent (id x) _ Hne Habs) as Hn. simpl in Hn.
  assert (fresh (dom (heap (dWorld st))) ≠ s) as Hps.
  { intros Heq. rewrite <- Heq in Hs. by rewrite fresh_heap_None in Hs. }
  set (p := fresh (dom (heap (dWorld st)))) in *.
  exists p. eexists. split.
  { unfold startSession, bind, onWorld, onWriter, ret. rewrite Hc.
    subst st0. cbn [dWorld]. rewrite Hn. simpl. reflexivity. }
  split; [done|]. unfold User, deref. simpl.
  rewrite lookup_insert_eq, lookup_alter_eq, lookup_insert_eq. simpl.
  repeat (split; [done|]).
  by rewrite lookup_alter_ne, lookup_insert_ne.
Qed.

Lemma X6_witness :
  heap (dWorld (initState exOne)) !! 1%positive = Some exAlice
  ∧ id exAlice ≠ ""
  ∧ RequestCookie "sessionid" exWithCookie = Some (id exAlice)
  ∧ ∃ p st',
      startSession exWithCookie
        (mkDState newWriter (Delete 1%positive exOne) [] [])
      = (Next (Some p, false, None), st')
      ∧ User p (dWorld st') = ""
      ∧ User 1%positive (dWorld st') = "alice".
Proof.
  assert (id exAlice ≠ "") as Hne by discriminate.
  split; [reflexivity|]. split; [exact Hne|]. split; [reflexivity|].
  destruct (X6_delete_then_same_cookie 1%positive exAlice exWithCookie
              (initState exOne) eq_refl Hne eq_refl)
    as (p & st' & Hs & _ & _ & Hu & _ & Hold).
  exists p, st'. split; [exact Hs|]. split; [exact Hu|].
  unfold User, deref. by rewrite Hold.
Defined.

Lemma newSession_clock id0 W s e W1 :
  newSession id0 W = (Some s, e, W1) →
  clock W1 = clock W ∧ ticks W1 = S (ticks W).
Proof.
  unfold newSession.
  set (gen := if decide (id0 = "") then _ else _).
  assert (clock gen.2 = clock W ∧ ticks gen.2 = ticks W) as Hgen.
  { subst gen. destruct (decide (id0 = "")); [|done].
    by destruct (randLoop _ _) as [[i err] rest]. }
  destruct gen as [[i [err|]] W0]; [done|]. simpl in Hgen.
  destruct Hgen as [Hc Ht].
  destruct (activeSessions W0 !! i); simpl; intros H; injection H as _ _ <-;
    simpl; by rewrite Hc, Ht.
Qed.

(** X7.  Whenever [startSession] returns a session, it adds exactly one
    cookie to the response and touches nothing else of it: the cookie is
    named [sessionid], carries the id of that session, is secure, http-only
    and same-site strict for the path [/], and expires 15 minutes after the
    clock reading that follows the one stored as [lastOp].  When the store
    is keyed by id, the id in the cookie is the non-empty id that the
    request presented. *)
Theorem X7_cookie_issued (r : Request) (st st1 : DState) (s : loc) (b : bool)
    (err : option error) :
  startSession r st = (Next (Some s, b, err), st1) →
  err = None
  ∧ wCookies (dW st1)
    = (wCookies (dW st)
       ++ [sessionCookie (id (deref s (dWorld st1)))
             (clock (dWorld st) (S (ticks (dWorld st))))])%list
  ∧ wStatus (dW st1) = wStatus (dW st)
  ∧ wHeader (dW st1) = wHeader (dW st)
  ∧ wBody (dW st1) = wBody (dW st)
  ∧ (keyedById (heap (dWorld st)) (activeSessions (dWorld st)) →
     ∀ id0, RequestCookie "sessionid" r = Some id0 → id0 ≠ "" →
       id (deref s (dWorld st1)) = id0).
Proof.
  rewrite startSession_run.
  pose proof (newSession_shape (default "" (RequestCookie "sessionid" r))
                (dWorld st)) as Hshape.
  destruct (newSession (default "" (RequestCookie "sessionid" r)) (dWorld st))
    as [[[p|] [e|]] W1] eqn:HN; try done.
  intros H. injection H as <- <- <- <-.
  destruct (newSession_clock _ _ _ _ _ HN) as [Hc Ht].
  split; [done|]. unfold GetCookie, timeNow, sessionCookie. simpl.
  rewrite Hc, Ht. repeat (split; [done|]).
  intros Hkeyed id0 Hid0 Hne. rewrite Hid0 in HN. simpl in HN.
  unfold deref. simpl.
  destruct (activeSessions (dWorld st) !! id0) as [q|] eqn:Hq.
  - rewrite (newSession_present id0 q _ Hne Hq) in HN.
    injection HN as <- <-. simpl.
    destruct (Hkeyed id0 q Hq) as (x & Hx & Hidx).
    by rewrite lookup_alter_eq, Hx.
  - pose proof (newSession_absent id0 _ Hne Hq) as Hn. simpl in Hn.
    rewrite Hn in HN. injection HN as <- <-. simpl.
    by rewrite lookup_alter_eq, lookup_insert_eq.
Qed.

Lemma X7_witness :
  ∃ st1,
    startSession exWithCookie (initState exOne)
    = (Next (Some 1%positive, false, None), st1)
    ∧ wCookies (dW st1) = [sessionCookie "abc" (exClock 2)].
Proof.
  assert (startSession exWithCookie (initState exOne)
          = (Next (Some 1%positive, false, None),
             (startSession exWithCookie (initState exOne)).2)) as H
    by (vm_compute; reflexivity).
  eexists. split; [exact H|].
  destruct (X7_cookie_issued _ _ _ _ _ _ H) as (_ & Hc & _).
  rewrite Hc. vm_compute. reflexivity.
Defined.

(** X8.  A request whose [sessionid] cookie has the empty value is treated
    like a request without cookie, a fresh id is generated for it, except
    that the session is reported as not new. *)
Theorem X8_empty_cookie_value (r r' : Request) (st : DState) :
  RequestCookie "sessionid" r = Some "" →
  RequestCookie "sessionid" r' = None →
  ∃ s err st1,
    startSession r st = (Next (s, false, err), st1)
    ∧ startSession r' st = (Next (s, true, err), st1)
    ∧ (newSession "" (dWorld st)).1 = (s, err).
Proof.
  intros Hr Hr'. rewrite !startSession_run, Hr, Hr'. simpl.
  destruct (newSession "" (dWorld st)) as [[[p|] err] W1]; simpl;
    do 3 eexists; repeat split; reflexivity.
Qed.

Lemma X8_witness :
  RequestCookie "sessionid" exEmptyCookie = Some ""
  ∧ RequestCookie "sessionid" exNoCookie = None
  ∧ ∃ st1,
      startSession exEmptyCookie (initState exFresh)
      = (Next (Some 1%positive, false, None), st1)
      ∧ startSession exNoCookie (initState exFresh)
        = (Next (Some 1%positive, true, None), st1).
Proof.
  split; [reflexivity|]. split; [reflexivity|].
  destruct (X8_empty_cookie_value exEmptyCookie exNoCookie (initState exFresh)
              eq_refl eq_refl) as (s & err & st1 & H1 & H2 & H3).
  exists st1. vm_compute in H3. injection H3 as <- <-. by split.
Defined.

(** ** Checkpoint: failures and hand-written files *)

(** X9.  [SessionDump] on the empty path or on a directory returns an
    annotated error and changes nothing, and [chronoSerialize] logs exactly
    one error. *)
Theorem X9_dump_failure (fmt : Time → string) (dpath : string) (W : World) :
  dpath = "" ∨ fs W !! dpath = Some NDir →
  ∃ e, SessionDump fmt dpath W = (Some (Appended e), W)
       ∧ chronoSerialize fmt dpath W = ([mkLog ERROR "session dump failed"], W).
Proof.
  intros Hbad. unfold chronoSerialize, SessionDump, openTrunc.
  destruct (decide (dpath = "")) as [->|Hne].
  - by exists ErrNotExist.
  - destruct Hbad as [?|Hdir]; [done|]. rewrite Hdir. by exists ErrIsDir.
Qed.

Lemma X9_witness :
  fs exFresh !! "dist" = Some NDir
  ∧ SessionDump exFormat "dist" exFresh = (Some (Appended ErrIsDir), exFresh)
  ∧ (SessionDump exFormat "" exFresh).1 = Some (Appended ErrNotExist).
Proof.
  split; [reflexivity|].
  destruct (X9_dump_failure exFormat "dist" exFresh (or_intror eq_refl))
    as (e & He & _).
  split; [|reflexivity].
  rewrite He. f_equal. f_equal. vm_compute in He. by injection He as <-.
Defined.

Lemma map_fold_pointwise {A B} (f g : string → A → B → B) (b : B)
    (m : gmap string A) :
  (∀ k x r, f k x r = g k x r) → map_fold f b m = map_fold g b m.
Proof.
  intros H. rewrite !map_fold_foldr.
  induction (map_to_list m) as [|[k x] l IH]; simpl; [done|].
  by rewrite IH, H.
Qed.

(** X10.  A [SessionDump] that succeeds leaves heap and store as they are
    and writes one file, whose content depends on the sessions only:
    whatever the file held before is gone, the other files are untouched,
    and dumping again changes nothing. *)
Theorem X10_dump_overwrites (fmt : Time → string) (dpath : string)
    (W W1 : World) :
  SessionDump fmt dpath W = (None, W1) →
  heap W1 = heap W
  ∧ activeSessions W1 = activeSessions W
  ∧ (∃ doc, fs W1 = <[dpath := NFile (Doc doc)]> (fs W)
            ∧ ∀ V, heap V = heap W → activeSessions V = activeSessions W →
                   fs V !! dpath ≠ Some NDir →
                   fs (SessionDump fmt dpath V).2 !! dpath = Some (NFile (Doc doc)))
  ∧ SessionDump fmt dpath W1 = (None, W1)
  ∧ chronoSerialize fmt dpath W = ([], W1).
Proof.
  unfold chronoSerialize, SessionDump, openTrunc. intros H.
  destruct (decide (dpath = "")) as [|Hne]; [done|].
  assert (fs W !! dpath ≠ Some NDir) as Hnd
    by (intros Hd; by rewrite Hd in H).
  assert (W1 = setFs (<[dpath :=
            NFile (Doc (toJSON fmt (VMap
              (map_fold (λ _ sx m, dumpStep W sx m) ∅ (activeSessions W)))))]>
            (fs W)) W) as ->.
  { destruct (fs W !! dpath) as [[|c]|]; simpl in H; [done|..];
      injection H as <-; unfold setFs; simpl; by rewrite insert_insert_eq. }
  simpl. split; [done|]. split; [done|]. split; [|split].
  - eexists. split; [reflexivity|]. intros V Hh Ha HV.
    assert (∀ sx m, dumpStep V sx m = dumpStep W sx m) as Hstep.
    { intros sx m. unfold dumpStep, deref. by rewrite Hh. }
    rewrite Ha.
    rewrite (map_fold_pointwise (λ _ sx m, dumpStep V sx m)
               (λ _ sx m, dumpStep W sx m) ∅ _ (λ _ sx m, Hstep sx m)).
    destruct (fs V !! dpath) as [[|c]|]; [done|..]; simpl;
      by rewrite lookup_insert_eq.
  - rewrite lookup_insert_eq. simpl. unfold setFs. simpl.
    rewrite !insert_insert_eq. reflexivity.
  - destruct (fs W !! dpath) as [[|c]|]; [done|..]; simpl; unfold setFs; simpl;
      by rewrite insert_insert_eq.
Qed.

Lemma X10_witness :
  let dumped := SessionDump exFormat "sessions.json" exOne in
  dumped = (None, dumped.2)
  ∧ activeSessions dumped.2 = activeSessions exOne
  ∧ SessionDump exFormat "sessions.json" dumped.2 = (None, dumped.2)
  ∧ fs dumped.2 !! "dist" = Some NDir.
Proof.
  cbv zeta.
  assert (SessionDump exFormat "sessions.json" exOne
          = (None, (SessionDump exFormat "sessions.json" exOne).2)) as H
    by (vm_compute; reflexivity).
  destruct (X10_dump_overwrites exFormat "sessions.json" exOne _ H)
    as (_ & Ha & _ & Hagain & _).
  split; [exact H|]. split; [exact Ha|]. split; [exact Hagain|].
  vm_compute. reflexivity.
Defined.

(** X11.  [RestoreSessions] on a path where there is no file returns the
    annotated open error and changes nothing; [Run] logs it and goes on to
    serve. *)
Theorem X11_restore_missing_file (parse : string → option Time)
    (dpath : string) (W : World) :
  dpath ≠ "" → fs W !! dpath = None →
  RestoreSessions parse dpath W = (Returned (Some (Appended ErrNotExist)), W)
  ∧ RunRestore parse dpath W
    = (true, [mkLog ERROR "could not restore sessions"], W).
Proof.
  intros Hne Hmiss. unfold RunRestore, RestoreSessions, openRead.
  destruct (decide (dpath = "")); [done|]. by rewrite Hmiss.
Qed.

Lemma X11_witness :
  "sessions.json" ≠ "" ∧ fs exFresh !! "sessions.json" = None
  ∧ RunRestore exParse "sessions.json" exFresh
    = (true, [mkLog ERROR "could not restore sessions"], exFresh).
Proof.
  assert ("sessions.json" ≠ "") as Hne by discriminate.
  split; [exact Hne|]. split; [reflexivity|].
  apply (X11_restore_missing_file exParse "sessions.json" exFresh Hne eq_refl).
Defined.

Section RestoreProperties.

Variable parseRFC3339Nano : string → option Time.

Lemma restoreEntry_fails mxi W :
  wellFormedEntry mxi = false → restoreEntry parseRFC3339Nano mxi W = None.
Proof.
  unfold wellFormedEntry, restoreEntry.
  destruct mxi as [| | | | | | | |mx]; try done. simpl.
  destruct (mx !! "lastOp") as [[]|]; try done. simpl.
  destruct (mx !! "id") as [[]|]; try done. simpl.
  destruct (mx !! "data") as [[]|]; try done. simpl.
  destruct (mx !! "userName") as [[]|]; done.
Qed.

Lemma restoreEntries_panics l mxi W :
  mxi ∈ l → wellFormedEntry mxi = false →
  (restoreEntries parseRFC3339Nano l W).1 = Panicked.
Proof.
  intros Hin Hbad. revert W.
  induction l as [|y l IH]; intros W; [by inversion Hin|].
  simpl. apply elem_of_cons in Hin as [<-|Hin].
  - by rewrite (restoreEntry_fails _ _ Hbad).
  - destruct (restoreEntry parseRFC3339Nano y W) as [W1|]; [by apply IH|done].
Qed.

(** X12.  If the checkpoint is a JSON object in which some entry is not an
    object with strings under [id], [lastOp] and [userName] and an object
    under [data], [RestoreSessions] panics on a type assertion, whatever
    the other entries are, and [Run], which does not recover, does not get
    to serve. *)
Theorem X12_malformed_entry_panics (dpath : string) (W : World)
    (o : gmap string json) (k : string) (j : json) :
  dpath ≠ "" →
  fs W !! dpath = Some (NFile (Doc (JObject o))) →
  o !! k = Some j →
  wellFormedEntry (ofJSON j) = false →
  (RestoreSessions parseRFC3339Nano dpath W).1 = Panicked
  ∧ (RunRestore parseRFC3339Nano dpath W).1.1 = false.
Proof.
  intros Hne Hfile Hk Hbad.
  assert ((RestoreSessions parseRFC3339Nano dpath W).1 = Panicked) as HP.
  { unfold RestoreSessions, openRead.
    destruct (decide (dpath = "")); [done|]. rewrite Hfile. simpl.
    rewrite (right_id_L ∅ (∪)).
    pose proof (restoreEntries_panics (map_to_list (ofJSON <$> o)).*2
                  (ofJSON j) W) as Hp.
    destruct (restoreEntries _ _ W) as [[[]|] W1]; [|done].
    exfalso. assert ((Returned (), W1).1 = @Panicked unit) as Habs; [|done].
    apply Hp; [|done]. apply list_elem_of_fmap. exists (k, ofJSON j).
    split; [done|]. apply elem_of_map_to_list. by rewrite lookup_fmap, Hk. }
  split; [exact HP|]. unfold RunRestore.
  by destruct (RestoreSessions parseRFC3339Nano dpath W) as [[[e|]|] W1].
Qed.

(** X13.  Restoring a checkpoint with one well-formed entry returns no
    error and stores one newly allocated session under the [id] field of
    the entry, whatever the key of the entry in the document is.  The
    session has the user and the decoded data of the entry; its [lastOp] is
    the parsed timestamp, or the zero time when the text does not parse.
    An entry the store had under that id is replaced, the others stay. *)
Theorem X13_restore_one_entry (dpath : string) (W : World)
    (k i u lastOpText : string) (d : gmap string json) :
  dpath ≠ "" →
  fs W !! dpath
  = Some (NFile (Doc (JObject {[k := entryJSON i u lastOpText d]}))) →
  let p := fresh (dom (heap W)) in
  RestoreSessions parseRFC3339Nano dpath W
  = (Returned None,
     setActiveSessions (<[i := p]> (activeSessions W))
       (setHeap
          (<[p := mkSession i u
                    (default zeroTime (parseRFC3339Nano lastOpText))
                    (ofJSON <$> d)]> (heap W)) W))
  ∧ heap W !! p = None.
Proof.
  intros Hne Hfile p. split; [|apply fresh_heap_None].
  unfold RestoreSessions, openRead.
  destruct (decide (dpath = "")); [done|]. rewrite Hfile. simpl.
  rewrite (right_id_L ∅ (∪)), map_fmap_singleton, map_to_list_singleton.
  simpl. unfold restoreEntry. simpl.
  rewrite !fmap_insert, fmap_empty. simpl.
  destruct (entry_fields (VString u) (VString lastOpText) (VMap (ofJSON <$> d))
              (VString i)) as (-> & -> & -> & ->).
  reflexivity.
Qed.

End RestoreProperties.

Lemma X12_witness :
  "sessions.json" ≠ ""
  ∧ (RestoreSessions exParse "sessions.json" exNullData).1 = Panicked
  ∧ (RunRestore exParse "sessions.json" exNullData).1.1 = false.
Proof.
  assert ("sessions.json" ≠ "") as Hne by discriminate.
  split; [exact Hne|].
  eapply (X12_malformed_entry_panics exParse "sessions.json" exNullData _ "abc");
    [exact Hne|reflexivity|reflexivity|reflexivity].
Defined.

Lemma X13_witness :
  "sessions.json" ≠ ""
  ∧ ∃ W', RestoreSessions exParse "sessions.json" exEdited = (Returned None, W')
      ∧ activeSessions W' !! "abc" = Some 1%positive
      ∧ activeSessions W' !! "some-key" = None
      ∧ heap W' !! 1%positive = Some (mkSession "abc" "alice" zeroTime ∅).
Proof.
  assert ("sessions.json" ≠ "") as Hne by discriminate.
  split; [exact Hne|].
  destruct (X13_restore_one_entry exParse "sessions.json" exEdited
              "some-key" "abc" "alice" "yesterday" ∅ Hne eq_refl) as (H & _).
  eexists. split; [exact H|]. vm_compute. repeat split.
Defined.

(** ** Dispatcher: what happens with the handler's result *)

(** The arguments that [handleRequest] passes to a handler of [n]
    parameters. *)
Lemma handleRequest_called m request hasAuth r st s isNew st1 :
  startSession r st = (Next (Some s, isNew, None), st1) →
  (isNew && negb (bool_decide (request = "Login")))
  || (hasAuth && bool_decide (User s (dWorld st1) = "")) = false →
  NumIn m = 1 ∨ NumIn m = 2 →
  let args := if bool_decide (NumIn m = 1)
              then [ArgSession s] else [ArgSession s; ArgRequest r] in
  handleRequest (Some m) request hasAuth r st =
  match F m args (dWorld st1) with
  | (Returned (res, err), W2) =>
      match writeResult res err
              (mkDState (dW st1) W2 (dLog st1) (dCalls st1 ++ [args])) with
      | (Panic i, st3) => (Logf ERROR i st3).2
      | (_, st3) => st3
      end
  | (Panicked, W2) =>
      mkDState (dW st1) W2 (dLog st1 ++ [mkLog ERROR "panic in handler"])
        (dCalls st1 ++ [args])
  end.
Proof.
  intros Hs Hcond Harity args. subst args.
  apply orb_false_iff in Hcond as [Hnew Hauth].
  unfold handleRequest, handleRequestBody.
  rewrite bind_run, Hs, Hnew.
  rewrite bind_run. cbn [ret]. rewrite bind_run. cbn [onWorld].
  rewrite Hauth. rewrite bind_run. unfold ret at 1. cbv beta iota.
  rewrite bind_run.
  destruct Harity as [H1|H2].
  - rewrite H1. simpl. unfold call. cbn [dWorld dW dLog dCalls].
    destruct (F m [ArgSession s] (dWorld st1)) as [[[res err]|] W2]; done.
  - rewrite H2. simpl. unfold call. cbn [dWorld dW dLog dCalls].
    destruct (F m [ArgSession s; ArgRequest r] (dWorld st1))
      as [[[res err]|] W2]; done.
Qed.

(** What the loop of [apply] does to the writer. *)
Lemma applyHeaders_frame (hs : gmap string string) (w : ResponseWriter) :
  wStatus (map_fold HeaderSet w hs) = wStatus w
  ∧ wBody (map_fold HeaderSet w hs) = wBody w.
Proof.
  apply (map_fold_weak_ind
    (λ r (m : gmap string string), wStatus r = wStatus w ∧ wBody r = wBody w));
    [done|].
  by intros i x m r _ IH.
Qed.

Lemma applyHeaders_cookies (hs : gmap string string) (w : ResponseWriter) :
  ((∃ k v, hs !! k = Some v ∧ CanonicalMIMEHeaderKey k = "Set-Cookie")
   ∧ wCookies (map_fold HeaderSet w hs) = [])
  ∨ ((∀ k v, hs !! k = Some v → CanonicalMIMEHeaderKey k ≠ "Set-Cookie")
     ∧ wCookies (map_fold HeaderSet w hs) = wCookies w).
Proof.
  apply (map_fold_weak_ind
    (λ r (m : gmap string string),
       ((∃ k v, m !! k = Some v ∧ CanonicalMIMEHeaderKey k = "Set-Cookie")
        ∧ wCookies r = [])
       ∨ ((∀ k v, m !! k = Some v → CanonicalMIMEHeaderKey k ≠ "Set-Cookie")
          ∧ wCookies r = wCookies w))).
  { right. split; [|done]. intros k v Hk. by rewrite lookup_empty in Hk. }
  intros i x m r Hi IH. unfold HeaderSet. simpl.
  destruct (decide (CanonicalMIMEHeaderKey i = "Set-Cookie")) as [Hc|Hc].
  { left. split; [|done]. exists i, x. by rewrite lookup_insert_eq. }
  destruct IH as [[(k & v & Hk & Hkc) Hr]|[Hall Hr]].
  - left. split; [|done]. exists k, v. split; [|done].
    rewrite lookup_insert_ne; [done|]. intros <-. congruence.
  - right. split; [|done]. intros k v Hk.
    apply lookup_insert_Some in Hk as [[<- _]|[_ Hk]]; [done|by eapply Hall].
Qed.

Lemma applyHeaders_lookup (hs : gmap string string) (w : ResponseWriter) k v :
  hs !! k = Some v →
  (∀ k' v', hs !! k' = Some v' →
     CanonicalMIMEHeaderKey k' = CanonicalMIMEHeaderKey k → k' = k) →
  wHeader (map_fold HeaderSet w hs) !! CanonicalMIMEHeaderKey k = Some v.
Proof.
  revert k v.
  apply (map_fold_weak_ind
    (λ r (m : gmap string string), ∀ k v,
       m !! k = Some v →
       (∀ k' v', m !! k' = Some v' →
          CanonicalMIMEHeaderKey k' = CanonicalMIMEHeaderKey k → k' = k) →
       wHeader r !! CanonicalMIMEHeaderKey k = Some v)).
  { intros k v Hk. by rewrite lookup_empty in Hk. }
  intros i x m r Hi IH k v Hk Hsole. unfold HeaderSet. simpl.
  apply lookup_insert_Some in Hk as [[<- <-]|[Hne Hk]].
  { apply lookup_insert_eq. }
  rewrite lookup_insert_ne.
  - apply (IH k v Hk). intros k' v' Hk' Hc. apply (Hsole k' v'); [|done].
    rewrite lookup_insert_ne; [done|]. intros <-. congruence.
  - intros Hc. apply Hne. apply (Hsole i x); [|done]. apply lookup_insert_eq.
Qed.

(** [Write] of a JSON response either panics in [WriteHeader], having set
    the headers, or writes the status and one JSON document. *)
Lemma JsonWrite_cases jr w :
  let w1 := map_fold HeaderSet w (headers (baseOf jr)) in
  (wStatus w = None
   ∧ checkWriteHeaderCode (status (baseOf jr)) = false
   ∧ JsonWrite jr w = (Panicked, w1))
  ∨ ((is_Some (wStatus w) ∨ checkWriteHeaderCode (status (baseOf jr)) = true)
     ∧ ∃ w2, JsonWrite jr w = (Returned (), w2)
         ∧ wHeader w2 = wHeader w1
         ∧ wCookies w2 = wCookies w1
         ∧ wBody w2 = (wBody w ++ [ChunkJSON (bodyOf jr)])%list
         ∧ wStatus w2
           = Some match wStatus w with
                  | Some c => c
                  | None => if informational (status (baseOf jr))
                            then StatusOK else status (baseOf jr)
                  end).
Proof.
  intros w1. destruct (applyHeaders_frame (headers (baseOf jr)) w) as [Hst Hbody].
  fold w1 in Hst, Hbody.
  assert (JsonWrite jr w =
          match WriteHeader (status (baseOf jr)) w1 with
          | (Returned _, w2) =>
              (Returned (), WriteBody (ChunkJSON (bodyOf jr)) w2)
          | (Panicked, w2) => (Panicked, w2)
          end) as -> by reflexivity.
  unfold WriteHeader. rewrite Hst.
  destruct (wStatus w) as [c|] eqn:Hw.
  - right. split; [by left; eauto|]. eexists. split; [done|].
    unfold WriteBody, sendStatus. simpl. by rewrite Hst, Hbody.
  - destruct (checkWriteHeaderCode (status (baseOf jr))) eqn:Hc.
    + right. split; [by right|]. eexists. split; [done|].
      unfold WriteBody, sendStatus.
      destruct (informational (status (baseOf jr))); simpl;
        rewrite ?Hst; simpl; by rewrite ?Hbody.
    + by left.
Qed.

(** X14.  When the handler returns an error, [handleRequest] answers 500
    and logs one error; what the handler returned beside the error is
    dropped, nothing is written to the body, and the changes the handler
    made to the world stay. *)
Theorem X14_handler_error_is_500 (m : Method) (request : string)
    (hasAuth : bool) (r : Request) (st st1 : DState) (s : loc) (isNew : bool)
    (res : list iface) (e : error) (W2 : World) :
  startSession r st = (Next (Some s, isNew, None), st1) →
  (isNew && negb (bool_decide (request = "Login")))
  || (hasAuth && bool_decide (User s (dWorld st1) = "")) = false →
  NumIn m = 1 ∨ NumIn m = 2 →
  let args := if bool_decide (NumIn m = 1)
              then [ArgSession s] else [ArgSession s; ArgRequest r] in
  F m args (dWorld st1) = (Returned (res, Some e), W2) →
  (WriteHeader StatusInternalServerError (dW st1)).1 = Returned ()
  ∧ handleRequest (Some m) request hasAuth r st
    = mkDState (WriteHeader StatusInternalServerError (dW st1)).2 W2
        (dLog st1 ++ [mkLog ERROR "handler error"]) (dCalls st1 ++ [args])
  ∧ wBody (WriteHeader StatusInternalServerError (dW st1)).2 = wBody (dW st1)
  ∧ (wStatus (dW st1) = None →
     wStatus (WriteHeader StatusInternalServerError (dW st1)).2
     = Some StatusInternalServerError).
Proof.
  intros Hs Hcond Harity args HF.
  rewrite (handleRequest_called _ _ _ _ _ _ _ _ Hs Hcond Harity).
  fold args. rewrite HF.
  rewrite (WriteHeader_final StatusInternalServerError (dW st1)) by done.
  split; [done|]. split.
  { unfold writeResult. rewrite !bind_run. cbn [Logf].
    rewrite bind_run, writeHeader_final by done. reflexivity. }
  unfold sendStatus. simpl. split.
  - by destruct (wStatus (dW st1)).
  - by intros ->.
Qed.

Lemma exOne_session :
  startSession exWithCookie (initState exOne)
  = (Next (Some 1%positive, false, None),
     (startSession exWithCookie (initState exOne)).2).
Proof. vm_compute. reflexivity. Defined.

Lemma X14_witness :
  let out :=
    handleRequest (Some exFailing) "Profile" true exWithCookie (initState exOne) in
  wStatus (dW out) = Some StatusInternalServerError
  ∧ wBody (dW out) = []
  ∧ dLog out = [mkLog ERROR "handler error"].
Proof.
  cbv zeta.
  destruct (X14_handler_error_is_500 exFailing "Profile" true exWithCookie
              _ _ 1%positive false [IValue (VString "partial")]
              (ErrHandler "db down")
              (dWorld (startSession exWithCookie (initState exOne)).2)
              exOne_session eq_refl (or_introl eq_refl) eq_refl)
    as (_ & Hout & _).
  rewrite Hout. vm_compute. repeat split.
Defined.



(** X16.  A panic in the handler, and a handler that returns an empty
    result list (which makes [res[0]] panic), are recovered: the handler
    was called once, nothing more is written to the response (not even a
    status), one error is logged, and the world is as the handler left
    it. *)
Theorem X16_panics_are_recovered (m : Method) (request : string)
    (hasAuth : bool) (r : Request) (st st1 : DState) (s : loc) (isNew : bool)
    (W2 : World) :
  startSession r st = (Next (Some s, isNew, None), st1) →
  (isNew && negb (bool_decide (request = "Login")))
  || (hasAuth && bool_decide (User s (dWorld st1) = "")) = false →
  NumIn m = 1 ∨ NumIn m = 2 →
  let args := if bool_decide (NumIn m = 1)
              then [ArgSession s] else [ArgSession s; ArgRequest r] in
  F m args (dWorld st1) = (Panicked, W2)
  ∨ F m args (dWorld st1) = (Returned ([], None), W2) →
  let out := handleRequest (Some m) request hasAuth r st in
  dW out = dW st1
  ∧ dWorld out = W2
  ∧ dCalls out = (dCalls st1 ++ [args])%list
  ∧ ∃ i, dLog out = (dLog st1 ++ [mkLog ERROR i])%list.
Proof.
  intros Hs Hcond Harity args HF out. subst out.
  rewrite (handleRequest_called _ _ _ _ _ _ _ _ Hs Hcond Harity).
  fold args. destruct HF as [-> | ->]; simpl; repeat split; by eexists.
Qed.

Lemma X16_witness :
  let out :=
    handleRequest (Some exPanics) "Profile" true exWithCookie (initState exOne) in
  wStatus (dW out) = None
  ∧ wBody (dW out) = []
  ∧ User 1%positive (dWorld out) = "mallory"
  ∧ dLog out = [mkLog ERROR "panic in handler"]
  ∧ wBody (dW (handleRequest (Some exEmpty) "Profile" true exWithCookie
                 (initState exOne))) = [].
Proof.
  cbv zeta.
  destruct (X16_panics_are_recovered exPanics "Profile" true exWithCookie
              _ _ 1%positive false
              (SetUser 1%positive "mallory"
                 (dWorld (startSession exWithCookie (initState exOne)).2))
              exOne_session eq_refl (or_introl eq_refl) (or_introl eq_refl))
    as (Hw & HW & _ & _).
  destruct (X16_panics_are_recovered exEmpty "Profile" true exWithCookie
              _ _ 1%positive false
              (dWorld (startSession exWithCookie (initState exOne)).2)
              exOne_session eq_refl (or_intror eq_refl) (or_intror eq_refl))
    as (Hw' & _).
  rewrite Hw, HW, Hw'. vm_compute. repeat split.
Defined.

(** X17.  [handleRequest] calls the handler at most once, and only with
    the session that [startSession] returned: alone for a handler of one
    parameter, followed by the request for a handler of two. *)
Theorem X17_at_most_one_call (m : Method) (request : string) (hasAuth : bool)
    (r : Request) (W : World) :
  let out := handleRequest (Some m) request hasAuth r (initState W) in
  dCalls out = []
  ∨ ∃ s isNew st1,
      startSession r (initState W) = (Next (Some s, isNew, None), st1)
      ∧ (NumIn m = 1 ∧ dCalls out = [[ArgSession s]]
         ∨ NumIn m = 2 ∧ dCalls out = [[ArgSession s; ArgRequest r]]).
Proof.
  intros out.
  pose proof (startSession_run r (initState W)) as Hrun.
  pose proof (newSession_shape (default "" (RequestCookie "sessionid" r)) W)
    as Hshape.
  cbn [dWorld initState dW dLog dCalls] in Hrun.
  destruct (newSession _ W) as [[[s|] [e|]] W1]; try done.
  - pose proof (handleRequest_resolved m request hasAuth r _ s _ _ Hrun) as Hout.
    pose proof (handleRequest_called m request hasAuth r _ s _ _ Hrun) as Hcall.
    fold out in Hout, Hcall. cbn [dWorld dW dLog dCalls] in Hout, Hcall.
    destruct (_ || _) eqn:Hcond in Hout.
    { left. by rewrite Hout. }
    destruct (bool_decide (NumIn m = 1 ∨ NumIn m = 2)) eqn:Har.
    2:{ left. by rewrite Hout. }
    apply bool_decide_eq_true in Har. right.
    exists s, (bool_decide (RequestCookie "sessionid" r = None)).
    eexists. split; [exact Hrun|].
    specialize (Hcall Hcond Har). cbv zeta in Hcall.
    assert (dCalls out
            = [if bool_decide (NumIn m = 1)
               then [ArgSession s] else [ArgSession s; ArgRequest r]]) as Hc.
    { rewrite Hcall.
      destruct (F m _ _) as [[[res err]|] W2]; [|done].
      set (st2 := mkDState _ _ _ _).
      pose proof (writeResult_calls res err st2) as Hw.
      pose proof (recover_calls (writeResult res err st2)) as Hr.
      destruct (writeResult res err st2) as [c st3]. simpl in *.
      by rewrite Hr, Hw. }
    destruct Har as [H1|H2].
    + left. split; [done|]. by rewrite Hc, H1.
    + right. split; [done|]. by rewrite Hc, H2.
  - left. subst out. unfold handleRequest, handleRequestBody.
    by rewrite bind_run, Hrun.
Qed.

(** ** Resolver: where the walk stops *)

Section ResolverMore.

Variable Controller : Type.
Variable GetProperty : Controller → string → string → list string → option Controller.
Variable GetMethod : Controller → string → string → option Method.

Local Abbreviation resolveLoop := (resolveLoop Controller GetProperty).
Local Abbreviation resolveHandler :=
  (resolveHandler Controller GetProperty GetMethod).
Local Abbreviation getHandler := (getHandler Controller GetProperty GetMethod).

Lemma resolveLoop_hasAuth st c hasAuth trace :
  ∃ new,
    (resolveLoop st c hasAuth trace).2 = (trace ++ new)%list
    ∧ ((resolveLoop st c hasAuth trace).1.2 = true
       ↔ hasAuth = true
         ∨ ∃ lk, lk ∈ new
                 ∧ (lkSuffixes Controller lk = ["controller"; "auth"]
                     ∧ is_Some (GetProperty (lkController Controller lk)
                                  (lkName Controller lk) ""
                                  ["controller"; "auth"]))).
Proof.
  revert c hasAuth trace. induction st as [|name st IH]; intros c hasAuth trace.
  { exists []. split; [by rewrite app_nil_r|]. simpl. split; [by left|].
    intros [?|(lk & Hlk & _)]; [done|by inversion Hlk]. }
  destruct st as [|next rest].
  { exists []. split; [by rewrite app_nil_r|]. simpl. split; [by left|].
    intros [?|(lk & Hlk & _)]; [done|by inversion Hlk]. }
  destruct c as [c|].
  2:{ exists []. split; [by rewrite app_nil_r|]. simpl. split; [by left|].
      intros [?|(lk & Hlk & _)]; [done|by inversion Hlk]. }
  rewrite resolveLoop_step.
  destruct (GetProperty c name "" ["controller"; "auth"]) as [ca|] eqn:Hauth.
  - destruct (IH (Some ca) true
                (trace ++ [mkLookup Controller c name ["controller"; "auth"]])%list)
      as (new & Hnew & Hiff).
    exists (mkLookup Controller c name ["controller"; "auth"] :: new).
    split; [by rewrite Hnew, <- app_assoc|].
    split; [|intros _; apply Hiff; by left].
    intros _. right. exists (mkLookup Controller c name ["controller"; "auth"]).
    split; [by left|]. split; [done|]. simpl. by rewrite Hauth.
  - destruct (IH (GetProperty c name "" ["controller"]) hasAuth
                ((trace ++ [mkLookup Controller c name ["controller"; "auth"]])
                   ++ [mkLookup Controller c name ["controller"]])%list)
      as (new & Hnew & Hiff).
    exists (mkLookup Controller c name ["controller"; "auth"]
            :: mkLookup Controller c name ["controller"] :: new).
    split; [by rewrite Hnew, <- !app_assoc|].
    rewrite Hiff. split.
    + intros [?|(lk & Hlk & Hg)]; [by left|]. right. exists lk.
      split; [|done]. by do 2 right.
    + intros [?|(lk & Hlk & Hg)]; [by left|].
      apply elem_of_cons in Hlk as [-> | Hlk].
      { destruct Hg as [_ Hg]. simpl in Hg. rewrite Hauth in Hg.
        by destruct Hg. }
      apply elem_of_cons in Hlk as [-> | Hlk]; [by destruct Hg|].
      right. by exists lk.
Qed.

(** X18.  A resolution that starts without the authentication mark ends
    with it exactly when one of its lookups found an auth-gated
    sub-controller: a path through plain sub-controllers only, or through
    none, never requires authentication. *)
Theorem X18_hasAuth_iff_gated (st : list string) (c : option Controller) :
  (resolveLoop st c false []).1.2 = true
  ↔ ∃ lk, lk ∈ (resolveLoop st c false []).2
          ∧ lkSuffixes Controller lk = ["controller"; "auth"]
          ∧ is_Some (GetProperty (lkController Controller lk)
                       (lkName Controller lk) "" ["controller"; "auth"]).
Proof.
  destruct (resolveLoop_hasAuth st c false []) as (new & Hnew & Hiff).
  rewrite Hnew, Hiff. simpl. split.
  - intros [?|(lk & Hlk & Hg1 & Hg2)]; [done|]. by exists lk.
  - intros (lk & Hlk & Hg1 & Hg2). right. by exists lk.
Qed.

(** The stack that the loop leaves is what is left of the stack it got,
    and when a controller is left with it, it is the last segment. *)
Lemma resolveLoop_rest st c hasAuth trace :
  ∃ front,
    st = (front ++ (resolveLoop st c hasAuth trace).1.1.1)%list
    ∧ (is_Some (resolveLoop st c hasAuth trace).1.1.2 →
       List.length (resolveLoop st c hasAuth trace).1.1.1 ≤ 1)%nat.
Proof.
  revert c hasAuth trace. induction st as [|name st IH]; intros c hasAuth trace.
  { exists []. split; [done|]. simpl. lia. }
  destruct st as [|next rest].
  { exists []. split; [done|]. simpl. lia. }
  destruct c as [c|].
  2:{ exists []. split; [done|]. simpl. by intros []. }
  rewrite resolveLoop_step.
  destruct (GetProperty c name "" ["controller"; "auth"]) as [ca|].
  - destruct (IH (Some ca) true
                (trace ++ [mkLookup Controller c name ["controller"; "auth"]])%list)
      as (front & Hfront & Hlen).
    exists (name :: front). split; [|done].
    exact (f_equal (cons name) Hfront).
  - destruct (IH (GetProperty c name "" ["controller"]) hasAuth
                ((trace ++ [mkLookup Controller c name ["controller"; "auth"]])
                   ++ [mkLookup Controller c name ["controller"]])%list)
      as (front & Hfront & Hlen).
    exists (name :: front). split; [|done].
    exact (f_equal (cons name) Hfront).
Qed.

(** X19.  When a handler resolves, its name is the last segment of the
    path and is not empty, all segments before it were consumed as
    sub-controller names, and nothing is left on the stack. *)
Theorem X19_handler_is_last_segment (root : Controller) (uri uri' : URI)
    (request : string) (f : Method) (hasAuth : bool) :
  resolveHandler root uri = (request, Some f, hasAuth, uri') →
  request ≠ ""
  ∧ (∃ front, stack uri = (front ++ [request])%list)
  ∧ stack uri' = []
  ∧ path uri' = path uri
  ∧ ∃ c, GetMethod c request "Request" = Some f.
Proof.
  unfold resolveHandler.
  destruct (resolveLoop_rest (stack uri) (Some root) false [])
    as (front & Hfront & Hlen).
  destruct (resolveLoop (stack uri) (Some root) false [])
    as [[[rest [c|]] h] trace]; [|done].
  simpl in Hfront, Hlen. unfold Pop. simpl.
  destruct rest as [|x [|y rest]].
  - simpl. by destruct (decide ("" ≠ "")).
  - destruct (decide (x ≠ "")) as [Hx|]; [|done].
    intros H. injection H as <- HG <- <-.
    split; [done|]. split; [by exists front|]. split; [done|]. split; [done|].
    by exists c.
  - assert (is_Some (Some c)) as HS by eauto. specialize (Hlen HS).
    simpl in Hlen. lia.
Qed.

(** X20.  When a segment before the last names neither an auth-gated nor
    a plain sub-controller of the controller reached, the walk stops there
    without a controller: no handler resolves, whatever methods there are,
    and the request goes to the static fallback. *)
Theorem X20_unknown_controller_falls_back (root : Controller) (fuel : nat)
    (dist : string) (r : Request) (st : DState)
    (name next : string) (rest : list string) :
  stack (InitURI (RequestURI r)) = name :: next :: rest →
  GetProperty root name "" ["controller"; "auth"] = None →
  GetProperty root name "" ["controller"] = None →
  resolveHandler root (InitURI (RequestURI r))
  = ("", None, false, mkURI (RequestURI r) (next :: rest))
  ∧ getHandler fuel root dist r st
    = handleDist fuel dist (mkURI (RequestURI r) (next :: rest))
        (Logf INFO ("URI: " +:+ RequestURI r) st).2.
Proof.
  intros Hstack Hauth Hplain.
  assert (resolveHandler root (InitURI (RequestURI r))
          = ("", None, false, mkURI (RequestURI r) (next :: rest))) as Hres.
  { unfold resolveHandler. rewrite Hstack, resolveLoop_step, Hauth, Hplain.
    by rewrite resolveLoop_stop_nil. }
  split; [exact Hres|]. unfold getHandler. by rewrite Hres.
Qed.

End ResolverMore.

Lemma X19_witness :
  resolveHandler nat exGetProperty exGetMethod 0%nat (InitURI "/Account/Profile")
  = ("Profile", Some exHello, true, mkURI "/Account/Profile" [])
  ∧ "Profile" ≠ ""
  ∧ (∃ front, stack (InitURI "/Account/Profile") = (front ++ ["Profile"])%list)
  ∧ ∃ c, exGetMethod c "Profile" "Request" = Some exHello.
Proof.
  assert (resolveHandler nat exGetProperty exGetMethod 0%nat
            (InitURI "/Account/Profile")
          = ("Profile", Some exHello, true, mkURI "/Account/Profile" [])) as H
    by reflexivity.
  split; [exact H|].
  destruct (X19_handler_is_last_segment nat exGetProperty exGetMethod 0%nat
              (InitURI "/Account/Profile") (mkURI "/Account/Profile" [])
              "Profile" exHello true H) as (Hne & Hfront & _ & _ & Hc).
  split; [exact Hne|]. split; [exact Hfront|]. exact Hc.
Defined.

Lemma X20_witness :
  let r := mkRequest "/Nope/Profile" [] in
  resolveHandler nat exGetProperty exGetMethod 0%nat (InitURI (RequestURI r))
  = ("", None, false, mkURI "/Nope/Profile" ["Profile"])
  ∧ getHandler nat exGetProperty exGetMethod 4 0%nat "dist" r (initState exFresh)
    = handleDist 4 "dist" (mkURI "/Nope/Profile" ["Profile"])
        (Logf INFO ("URI: " +:+ RequestURI r) (initState exFresh)).2.
Proof.
  cbv zeta.
  exact (X20_unknown_controller_falls_back nat exGetProperty exGetMethod 0%nat 4
           "dist" (mkRequest "/Nope/Profile" []) (initState exFresh)
           "Nope" "Profile" [] eq_refl eq_refl eq_refl).
Defined.

(** ** Static fallback: what is served *)

Lemma string_append_assoc (a b c : string) : (a +:+ b) +:+ c = a +:+ (b +:+ c).
Proof.
  induction a as [|x a IH]; [done|].
  change (String x ((a +:+ b) +:+ c) = String x (a +:+ (b +:+ c))).
  by rewrite IH.
Qed.

Lemma pathPrefix_refl p : pathPrefix p p.
Proof.
  exists "". induction p as [|x p IH]; [done|].
  change (String x p = String x (p +:+ "")). by rewrite <- IH.
Qed.

Lemma pathPrefix_below p s f : pathPrefix (p +:+ "/" +:+ s) f → pathPrefix p f.
Proof.
  intros [rest ->]. exists (("/" +:+ s) +:+ rest).
  by rewrite string_append_assoc.
Qed.

(** One step of [handleFile] on a stack whose next segment is not empty,
    and on no stack or an empty one. *)
Lemma handleFile_descend fuel files p u x rest w :
  stack u = x :: rest → x ≠ "" →
  handleFile (S fuel) files p (Some u) w =
  match handleFile fuel files (p +:+ "/" +:+ x) (Some (mkURI (path u) rest)) w with
  | Some (Some _, w1) =>
      match files !! p with
      | None => Some (Some (ErrStat p), w1)
      | Some NDir => handleFile fuel files (p +:+ "/" +:+ "index.html") None w1
      | Some (NFile _) => Some (None, ServeFile p w1)
      end
  | Some (None, w1) => Some (None, w1)
  | None => None
  end.
Proof.
  intros Hu Hx. simpl. unfold Pop. rewrite Hu.
  destruct (decide (x ≠ "")) as [_|]; [|done].
  by destruct (handleFile fuel files (p +:+ "/" +:+ x)
                 (Some (mkURI (path u) rest)) w) as [[[e|] w1]|].
Qed.

Lemma handleFile_here fuel files p uri w :
  (uri = None ∨ ∃ u, uri = Some u ∧ (stack u = [] ∨ ∃ rest, stack u = "" :: rest)) →
  handleFile (S fuel) files p uri w =
  match files !! p with
  | None => Some (Some (ErrStat p), w)
  | Some NDir => handleFile fuel files (p +:+ "/" +:+ "index.html") None w
  | Some (NFile _) => Some (None, ServeFile p w)
  end.
Proof.
  intros [->|(u & -> & [Hu|[rest Hu]])]; simpl; [done| |];
    unfold Pop; by rewrite Hu.
Qed.

(** X21.  Whenever [handleFile] returns without an error it has served
    exactly one path, which is a regular file of the file system (never a
    directory, never a missing path) and extends the path it was called
    on; whenever it returns an error, the error is the one of [os.Stat] for
    a path without a node that extends the path it was called on, and
    nothing was written. *)
Theorem X21_served_path_is_a_regular_file (fuel : nat) (files : gmap string Node)
    (p : string) (uri : option URI) (w w' : ResponseWriter) (err : option error) :
  handleFile fuel files p uri w = Some (err, w') →
  match err with
  | None =>
      ∃ f c, w' = ServeFile f w ∧ files !! f = Some (NFile c) ∧ pathPrefix p f
  | Some e =>
      (∃ q, e = ErrStat q ∧ files !! q = None ∧ pathPrefix p q) ∧ w' = w
  end.
Proof.
  revert p uri w w' err.
  induction fuel as [|fuel IH]; intros p uri w w' err H; [done|].
  assert (∀ w1, w1 = w →
            match files !! p with
            | None => Some (Some (ErrStat p), w1)
            | Some NDir =>
                handleFile fuel files (p +:+ "/" +:+ "index.html") None w1
            | Some (NFile _) => Some (None, ServeFile p w1)
            end = Some (err, w') →
            match err with
            | None =>
                ∃ f c, w' = ServeFile f w ∧ files !! f = Some (NFile c)
                       ∧ pathPrefix p f
            | Some e =>
                (∃ q, e = ErrStat q ∧ files !! q = None ∧ pathPrefix p q)
                ∧ w' = w
            end) as Hhere.
  { intros w1 -> Hm. destruct (files !! p) as [[|c]|] eqn:Hp.
    - apply IH in Hm. destruct err as [e|].
      + destruct Hm as [(q & -> & Hq & Hpre) ->]. split; [|done].
        exists q. split; [done|]. split; [done|].
        by apply pathPrefix_below in Hpre.
      + destruct Hm as (f & c & -> & Hf & Hpre).
        exists f, c. split; [done|]. split; [done|].
        by apply pathPrefix_below in Hpre.
    - injection Hm as <- <-. exists p, c. split; [done|]. split; [done|].
      apply pathPrefix_refl.
    - injection Hm as <- <-. split; [|done].
      exists p. split; [done|]. split; [done|]. apply pathPrefix_refl. }
  destruct uri as [u|];
    [|rewrite handleFile_here in H by (by left); exact (Hhere w eq_refl H)].
  destruct (stack u) as [|x rest] eqn:Hu.
  { rewrite handleFile_here in H by (right; exists u; eauto).
    exact (Hhere w eq_refl H). }
  destruct (decide (x = "")) as [->|Hx].
  { rewrite handleFile_here in H by (right; exists u; eauto).
    exact (Hhere w eq_refl H). }
  rewrite (handleFile_descend fuel files p u x rest w Hu Hx) in H.
  destruct (handleFile fuel files (p +:+ "/" +:+ x)
              (Some (mkURI (path u) rest)) w) as [[[e|] w1]|] eqn:H1; [| |done].
  - apply IH in H1 as [_ ->]. exact (Hhere w eq_refl H).
  - injection H as <- <-. apply IH in H1 as (f & c & -> & Hf & Hpre).
    exists f, c. split; [done|]. split; [done|].
    by apply pathPrefix_below in Hpre.
Qed.

Lemma X21_witness :
  handleFile 4 exStatic "dist" (Some (InitURI "/assets/img/logo.png")) newWriter
  = Some (None, ServeFile "dist/assets/index.html" newWriter)
  ∧ ∃ f c, ServeFile "dist/assets/index.html" newWriter = ServeFile f newWriter
           ∧ exStatic !! f = Some (NFile c) ∧ pathPrefix "dist" f.
Proof.
  assert (handleFile 4 exStatic "dist" (Some (InitURI "/assets/img/logo.png"))
            newWriter
          = Some (None, ServeFile "dist/assets/index.html" newWriter)) as H
    by reflexivity.
  split; [exact H|].
  exact (X21_served_path_is_a_regular_file 4 exStatic "dist"
           (Some (InitURI "/assets/img/logo.png")) newWriter _ None H).
Defined.

Lemma fullPath_cons dist x rest :
  fullPath dist (x :: rest) = fullPath (dist +:+ "/" +:+ x) rest.
Proof. done. Qed.

Lemma handleFile_exact files segs :
  ∀ dist fuel u w c,
    stack u = segs →
    Forall (λ x, x ≠ "") segs →
    files !! fullPath dist segs = Some (NFile c) →
    (List.length segs + 1 ≤ fuel)%nat →
    handleFile fuel files dist (Some u) w
    = Some (None, ServeFile (fullPath dist segs) w).
Proof.
  induction segs as [|x rest IH]; intros dist fuel u w c Hu Hne Hf Hfuel.
  - destruct fuel as [|fuel]; [simpl in Hfuel; lia|].
    rewrite handleFile_here by (right; exists u; eauto).
    simpl in Hf. by rewrite Hf.
  - destruct fuel as [|fuel]; [simpl in Hfuel; lia|].
    apply Forall_cons in Hne as [Hx Hne].
    rewrite (handleFile_descend fuel files dist u x rest w Hu Hx).
    rewrite (IH (dist +:+ "/" +:+ x) fuel (mkURI (path u) rest) w c);
      [done|done|done|done|simpl in Hfuel |- *; lia].
Qed.

(** X22.  The deepest match wins: when the full nested path of the request
    under the static root is a regular file, that file is what is served,
    whatever else there is on the way, with no log entry and no 404; one
    unit of fuel per segment and one more is enough. *)
Theorem X22_exact_file_is_served (fuel : nat) (dist : string) (uri : URI)
    (st : DState) (c : Content) :
  fs (dWorld st) !! fullPath dist (segments (path uri) "") = Some (NFile c) →
  (List.length (segments (path uri) "") + 1 ≤ fuel)%nat →
  handleDist fuel dist uri st
  = Some (mkDState (ServeFile (fullPath dist (segments (path uri) "")) (dW st))
            (dWorld st) (dLog st) (dCalls st)).
Proof.
  intros Hf Hfuel. unfold handleDist.
  by rewrite (handleFile_exact (fs (dWorld st)) (segments (path uri) "")
                dist fuel (ResetStack uri) (dW st) c eq_refl
                (segments_nonempty _ _) Hf Hfuel).
Qed.

Lemma X22_witness :
  handleDist 3 "dist" (InitURI "/assets/logo.png") (initState exMedia)
  = Some (mkDState (ServeFile "dist/assets/logo.png" newWriter) exMedia [] []).
Proof.
  apply (X22_exact_file_is_served 3 "dist" (InitURI "/assets/logo.png")
           (initState exMedia) (Raw "PNG")).
  - reflexivity.
  - simpl. lia.
Defined.

Lemma handleFile_absent files segs :
  ∀ p fuel u w,
    stack u = segs →
    Forall (λ x, x ≠ "") segs →
    Forall (λ q, files !! q = None) (candidates p segs) →
    (List.length segs + 1 ≤ fuel)%nat →
    handleFile fuel files p (Some u) w = Some (Some (ErrStat p), w).
Proof.
  induction segs as [|x rest IH]; intros p fuel u w Hu Hne Hnone Hfuel.
  - destruct fuel as [|fuel]; [simpl in Hfuel; lia|].
    rewrite handleFile_here by (right; exists u; eauto).
    simpl in Hnone. apply List.Forall_inv in Hnone. simpl in Hnone.
    by rewrite Hnone.
  - destruct fuel as [|fuel]; [simpl in Hfuel; lia|].
    apply Forall_cons in Hne as [Hx Hne].
    simpl in Hnone. apply Forall_app in Hnone as [Hdeep Hp].
    apply List.Forall_inv in Hp. simpl in Hp.
    rewrite (handleFile_descend fuel files p u x rest w Hu Hx).
    rewrite (IH (p +:+ "/" +:+ x) fuel (mkURI (path u) rest) w);
      [|done|done|done|simpl in Hfuel |- *; lia].
    by rewrite Hp.
Qed.

(** X23.  A route that matches nothing below the static root gets the
    root's own page: when none of the nested paths of the request exists
    and the root is a directory, the file [index.html] of the root is
    served if it is a regular file, and if it does not exist the response
    is 404 with one log entry. *)
Theorem X23_unknown_route_gets_root_index (fuel : nat) (dist : string)
    (uri : URI) (st : DState) (s : string) (rest : list string) :
  segments (path uri) "" = s :: rest →
  Forall (λ q, fs (dWorld st) !! q = None) (candidates (dist +:+ "/" +:+ s) rest) →
  fs (dWorld st) !! dist = Some NDir →
  (List.length (s :: rest) + 2 ≤ fuel)%nat →
  (∀ c, fs (dWorld st) !! (dist +:+ "/index.html") = Some (NFile c) →
     handleDist fuel dist uri st
     = Some (mkDState (ServeFile (dist +:+ "/index.html") (dW st))
               (dWorld st) (dLog st) (dCalls st)))
  ∧ (fs (dWorld st) !! (dist +:+ "/index.html") = None →
     handleDist fuel dist uri st
     = Some (mkDState (NotFound (dW st)) (dWorld st)
               (dLog st ++ [mkLog INFO ("not found `%s`" +:+ path uri)])
               (dCalls st))).
Proof.
  intros Hsegs Hnone Hdist Hfuel.
  pose proof (segments_nonempty (path uri) "") as Hne.
  rewrite Hsegs in Hne. apply Forall_cons in Hne as [Hs Hne].
  destruct fuel as [|[|fuel]]; [simpl in Hfuel; lia|simpl in Hfuel; lia|].
  assert (handleFile (S (S fuel)) (fs (dWorld st)) dist (Some (ResetStack uri))
            (dW st)
          = match fs (dWorld st) !! (dist +:+ "/index.html") with
            | None => Some (Some (ErrStat (dist +:+ "/index.html")), dW st)
            | Some NDir =>
                handleFile fuel (fs (dWorld st))
                  ((dist +:+ "/index.html") +:+ "/" +:+ "index.html") None (dW st)
            | Some (NFile _) =>
                Some (None, ServeFile (dist +:+ "/index.html") (dW st))
            end) as Hrun.
  { rewrite (handleFile_descend (S fuel) (fs (dWorld st)) dist (ResetStack uri)
               s rest (dW st) Hsegs Hs).
    rewrite (handleFile_absent (fs (dWorld st)) rest (dist +:+ "/" +:+ s)
               (S fuel) (mkURI (path (ResetStack uri)) rest) (dW st));
      [|done|done|done|simpl in Hfuel |- *; lia].
    rewrite Hdist. by rewrite handleFile_here by (by left). }
  unfold handleDist. rewrite Hrun. split.
  - intros c Hc. by rewrite Hc.
  - intros Hc. by rewrite Hc.
Qed.

Lemma X23_witness :
  handleDist 4 "dist/assets" (InitURI "/nope/x") (initState exFresh)
  = Some (mkDState (ServeFile "dist/assets/index.html" newWriter) exFresh [] []).
Proof.
  destruct (X23_unknown_route_gets_root_index 4 "dist/assets" (InitURI "/nope/x")
              (initState exFresh) "nope" ["x"]) as [Hserve _].
  - reflexivity.
  - repeat constructor.
  - reflexivity.
  - simpl. lia.
  - exact (Hserve (Raw "<html>assets</html>") eq_refl).
Defined.

(** ** JSON responses: the envelope and the list of errors *)

Lemma ensure_shape jr :
  ∃ b d, ensure jr = mkJson (Some b) (Some d) ∧ is_Some (d !! "errors").
Proof.
  unfold ensure. destruct (jData jr) as [d|].
  - destruct (d !! "errors") eqn:He; do 2 eexists; (split; [done|]).
    + by rewrite He.
    + rewrite lookup_insert_eq. eauto.
  - exists (SetHeader "Content-Type" "application/json" (default newBaseResponse (jBase jr))),
      (<["errors" := VStrings []]> (<["session" := VBool true]> ∅)).
    split; [reflexivity|]. rewrite lookup_insert_eq. eauto.
Qed.

Lemma bodyOf_data jr d :
  jData jr = Some d → is_Some (d !! "errors") → bodyOf jr = d.
Proof.
  intros Hd [v Hv]. unfold bodyOf, ensure. rewrite Hd, Hv. done.
Qed.

Lemma bodyOf_ensure jr :
  ∃ b, ensure jr = mkJson (Some b) (Some (bodyOf jr))
       ∧ is_Some (bodyOf jr !! "errors").
Proof.
  destruct (ensure_shape jr) as (b & d & He & Herr).
  exists b. unfold bodyOf. rewrite He. done.
Qed.

Lemma bodyOf_session jr :
  match jData jr with
  | Some d => bodyOf jr !! "session" = d !! "session"
  | None => bodyOf jr !! "session" = Some (VBool true)
  end.
Proof.
  unfold bodyOf, ensure. destruct (jData jr) as [d|].
  - destruct (d !! "errors"); simpl; [done|].
    by rewrite lookup_insert_ne.
  - done.
Qed.

Lemma bodyOf_ext jr jr' : jData jr = jData jr' → bodyOf jr = bodyOf jr'.
Proof.
  intros H. unfold bodyOf, ensure. rewrite H.
  destruct (jData jr') as [d|]; [by destruct (d !! "errors")|done].
Qed.

Lemma AppendErrorStr_body e jr :
  ∃ b, (AppendErrorStr e jr).2 =
       mkJson (Some b)
         (Some match bodyOf jr !! "errors" with
               | Some (VStrings l) => <["errors" := VStrings (l ++ [e])]> (bodyOf jr)
               | _ => bodyOf jr
               end)
       ∧ (AppendErrorStr e jr).1 =
         match bodyOf jr !! "errors" with
         | Some (VStrings l) => Returned ()
         | _ => Panicked
         end.
Proof.
  destruct (bodyOf_ensure jr) as (b & He & Herr).
  exists b. unfold AppendErrorStr. rewrite He. simpl.
  destruct (bodyOf jr !! "errors") as [[]|]; done.
Qed.

(** What each call does to the body that [Write] would send. *)
Lemma runJsonOp_body o jr :
  bodyOf (runJsonOp o jr).2 =
  match o with
  | JSet key value =>
      let d0 := <[key := value]> (bodyOf jr) in
      match d0 !! "errors" with
      | Some _ => d0
      | None => <["errors" := VStrings []]> d0
      end
  | JSetSession valid => <["session" := VBool valid]> (bodyOf jr)
  | JAppendErrorStr e | JAppendError (Some e) | JAppendError500 (Some e) =>
      match bodyOf jr !! "errors" with
      | Some (VStrings l) => <["errors" := VStrings (l ++ [e])]> (bodyOf jr)
      | _ => bodyOf jr
      end
  | _ => bodyOf jr
  end.
Proof.
  destruct (bodyOf_ensure jr) as (b & He & Herr).
  assert (∀ e jr', bodyOf jr' = bodyOf jr →
            bodyOf (AppendErrorStr e jr').2 =
            match bodyOf jr !! "errors" with
            | Some (VStrings l) => <["errors" := VStrings (l ++ [e])]> (bodyOf jr)
            | _ => bodyOf jr
            end) as Happ.
  { intros e jr' Hjr'. destruct (AppendErrorStr_body e jr') as (b' & -> & _).
    rewrite Hjr'. apply bodyOf_data; [done|].
    destruct Herr as [v Hv]. rewrite Hv.
    destruct v; try (by rewrite Hv). rewrite lookup_insert_eq. eauto. }
  destruct o as [key value|valid|e|[e|]|[e|]|code|key value]; simpl.
  - unfold JsonSet. rewrite He. simpl. unfold bodyOf at 1, ensure. simpl.
    by destruct (<[key:=value]> (bodyOf jr) !! "errors").
  - unfold SetSession. rewrite He. simpl. apply bodyOf_data; [done|].
    by rewrite lookup_insert_ne.
  - by apply Happ.
  - by apply Happ.
  - done.
  - rewrite He. simpl. apply Happ. apply bodyOf_data; [done|done].
  - done.
  - unfold JsonSetStatus. destruct (jBase jr); [|done]. by apply bodyOf_ext.
  - unfold JsonSetHeader. destruct (jBase jr); [|done]. by apply bodyOf_ext.
Qed.



Lemma runJsonOps_snoc ops o jr :
  runJsonOps (ops ++ [o]) jr = (runJsonOp o (runJsonOps ops jr)).2.
Proof. unfold runJsonOps. by rewrite foldl_snoc. Qed.

(** X25.  Errors accumulate in call order: as long as no call stores a
    value of its own under [errors], the [errors] field of the body is the
    list it was followed by the messages of [AppendErrorStr],
    [AppendError] and [AppendError500] in the order of the calls; calls
    that panicked ([AppendError(nil)], [SetStatus] on the zero value) and
    the no-op [AppendError500(nil)] add nothing, and no call of the
    sequence panics in the type assertion on [errors]. *)
Theorem X25_errors_accumulate_in_order (ops : list JsonOp) (jr : JsonResponse)
    (existing : list string) :
  bodyOf jr !! "errors" = Some (VStrings existing) →
  Forall (λ o, setsErrors o = false) ops →
  bodyOf (runJsonOps ops jr) !! "errors"
  = Some (VStrings (existing ++ omap message ops)).
Proof.
  intros Hstart. induction ops as [|o ops IH] using rev_ind; intros Hops.
  { simpl. by rewrite app_nil_r. }
  apply Forall_app in Hops as [Hops Ho]. apply List.Forall_inv in Ho.
  specialize (IH Hops).
  rewrite runJsonOps_snoc, runJsonOp_body, omap_app, app_assoc.
  destruct o as [key value|valid|msg|[msg|]|[msg|]|code|key value]; simpl;
    rewrite ?IH, ?app_nil_r; try done.
  - simpl in Ho. apply bool_decide_eq_false in Ho.
    rewrite lookup_insert_ne, IH by done. by rewrite lookup_insert_ne.
  - by rewrite lookup_insert_ne.
  - by rewrite lookup_insert_eq.
  - by rewrite lookup_insert_eq.
  - by rewrite lookup_insert_eq.
Qed.

Lemma X25_witness :
  let ops := [JAppendErrorStr "first"; JAppendError None; JSet "data" VNil;
              JAppendError500 (Some "second"); JAppendError500 None;
              JAppendError (Some "third")] in
  bodyOf (runJsonOps ops InitJsonResponse) !! "errors"
  = Some (VStrings ["first"; "second"; "third"]).
Proof.
  cbv zeta.
  apply (X25_errors_accumulate_in_order
           [JAppendErrorStr "first"; JAppendError None; JSet "data" VNil;
            JAppendError500 (Some "second"); JAppendError500 None;
            JAppendError (Some "third")] InitJsonResponse []).
  - reflexivity.
  - repeat constructor.
Defined.

(** X26.  [Set] can break the list of errors: after [Set("errors", v)] with
    [v] not a [[]string], each of [AppendErrorStr], [AppendError] and
    [AppendError500] with an error panics in the type assertion, [v] stays
    what [Write] sends under [errors], and [AppendError500] has set the
    status to 500 before it panicked. *)
Theorem X26_set_can_break_errors (v : goval) (e : string) (jr : JsonResponse) :
  (∀ l, v ≠ VStrings l) →
  let jr' := JsonSet "errors" v jr in
  (AppendErrorStr e jr').1 = Panicked
  ∧ (JsonAppendError (Some e) jr').1 = Panicked
  ∧ (AppendError500 (Some e) jr').1 = Panicked
  ∧ bodyOf (AppendError500 (Some e) jr').2 !! "errors" = Some v
  ∧ status <$> jBase (AppendError500 (Some e) jr').2
    = Some StatusInternalServerError.
Proof.
  intros Hv jr'.
  assert (bodyOf jr' !! "errors" = Some v) as Hbody.
  { pose proof (runJsonOp_body (JSet "errors" v) jr) as H. simpl in H.
    fold jr' in H. rewrite H, lookup_insert_eq. by rewrite lookup_insert_eq. }
  assert (∀ jr1, bodyOf jr1 = bodyOf jr' → (AppendErrorStr e jr1).1 = Panicked)
    as Hpanic.
  { intros jr1 H1. destruct (AppendErrorStr_body e jr1) as (b & _ & ->).
    rewrite H1, Hbody. destruct v; try done. destruct (Hv _ eq_refl). }
  split; [by apply Hpanic|]. split; [by apply Hpanic|].
  destruct (bodyOf_ensure jr') as (b & He & Herr).
  unfold AppendError500. rewrite He. simpl.
  assert (bodyOf (mkJson (Some (SetStatus StatusInternalServerError b))
                    (Some (bodyOf jr'))) = bodyOf jr') as Hsame
    by (by apply bodyOf_data).
  split; [by apply Hpanic|].
  unfold AppendErrorStr.
  assert (ensure (mkJson (Some (SetStatus StatusInternalServerError b))
                    (Some (bodyOf jr')))
          = mkJson (Some (SetStatus StatusInternalServerError b))
              (Some (bodyOf jr'))) as ->.
  { unfold ensure. simpl. by rewrite Hbody. }
  simpl. rewrite Hbody.
  destruct v; simpl; try (by rewrite Hsame, Hbody). destruct (Hv _ eq_refl).
Qed.

Lemma X26_witness :
  let jr' := JsonSet "errors" (VString "none") InitJsonResponse in
  (AppendErrorStr "late" jr').1 = Panicked
  ∧ bodyOf (AppendError500 (Some "late") jr').2 !! "errors"
    = Some (VString "none").
Proof.
  cbv zeta.
  destruct (X26_set_can_break_errors (VString "none") "late" InitJsonResponse)
    as (H1 & _ & _ & H4 & _); [discriminate|].
  split; [exact H1|exact H4].
Defined.

(** X27.  [AppendError500] with an error makes the response a 500: whatever
    the response was, and whether or not appending the message panicked,
    [Write] on a writer without a status then returns, having written
    status 500 and one JSON body.  The cookies on the writer stay unless the
    response has a header that is stored under [Set-Cookie], which
    replaces them. *)
Theorem X27_error500_sets_status (e : string) (jr : JsonResponse)
    (w : ResponseWriter) :
  wStatus w = None →
  let jr' := (AppendError500 (Some e) jr).2 in
  (JsonWrite jr' w).1 = Returned ()
  ∧ wStatus (JsonWrite jr' w).2 = Some StatusInternalServerError
  ∧ wBody (JsonWrite jr' w).2 = (wBody w ++ [ChunkJSON (bodyOf jr')])%list
  ∧ (replacesCookies (baseOf jr') → wCookies (JsonWrite jr' w).2 = [])
  ∧ (¬ replacesCookies (baseOf jr') → wCookies (JsonWrite jr' w).2 = wCookies w).
Proof.
  intros Hw jr'.
  assert (status (baseOf jr') = StatusInternalServerError) as Hstatus.
  { subst jr'. unfold AppendError500.
    destruct (bodyOf_ensure jr) as (b & He & Herr). rewrite He. simpl.
    destruct (AppendErrorStr_body e
                (mkJson (Some (SetStatus StatusInternalServerError b))
                   (Some (bodyOf jr)))) as (b' & Hres & _).
    assert (jBase (AppendErrorStr e
                (mkJson (Some (SetStatus StatusInternalServerError b))
                   (Some (bodyOf jr)))).2
            = Some (SetStatus StatusInternalServerError b)) as Hbase.
    { unfold AppendErrorStr.
      assert (ensure (mkJson (Some (SetStatus StatusInternalServerError b))
                        (Some (bodyOf jr)))
              = mkJson (Some (SetStatus StatusInternalServerError b))
                  (Some (bodyOf jr))) as ->.
      { unfold ensure. simpl. by destruct Herr as [v ->]. }
      simpl. by destruct (bodyOf jr !! "errors") as [[]|]. }
    rewrite Hres in Hbase. simpl in Hbase. injection Hbase as ->.
    rewrite Hres. unfold baseOf, ensure. simpl.
    by repeat (case_match; simpl). }
  pose proof (applyHeaders_cookies (headers (baseOf jr')) w) as Hck.
  destruct (JsonWrite_cases jr' w)
    as [(_ & Hc & _)|(_ & w2 & -> & _ & Hc2 & Hb2 & Hs2)].
  { by rewrite Hstatus in Hc. }
  simpl. split; [done|]. split.
  { by rewrite Hs2, Hw, Hstatus. }
  split; [done|]. rewrite Hc2. split.
  - intros Hrep. destruct Hck as [[_ Hr]|[Hall _]]; [done|].
    destruct Hrep as (k & v & Hk & Hkc). by destruct (Hall k v Hk).
  - intros Hrep. destruct Hck as [[Hex _]|[_ Hr]]; [|done].
    destruct Hrep. destruct Hex as (k & v & Hk & Hkc). by exists k, v.
Qed.

Lemma X27_witness :
  wStatus (JsonWrite (AppendError500 (Some "disk full") (mkJson None None)).2
             newWriter).2
  = Some StatusInternalServerError.
Proof.
  exact (proj1 (proj2 (X27_error500_sets_status "disk full" (mkJson None None)
                         newWriter eq_refl))).
Defined.

(** X28.  The zero value of [JsonResponse] is as good as
    [InitJsonResponse()] for [Write] and for every method that starts with
    [ensure]; only [SetStatus] and [SetHeader], promoted from the embedded
    pointer, panic on it.  The zero values of [BlobResponse] and
    [RedirectResponse] panic in [Write], before anything is written. *)
Theorem X28_zero_value_responses :
  let zero := mkJson None None in
  (∀ w, JsonWrite zero w = JsonWrite InitJsonResponse w)
  ∧ (∀ key value, JsonSet key value zero = JsonSet key value InitJsonResponse)
  ∧ (∀ valid, SetSession valid zero = SetSession valid InitJsonResponse)
  ∧ (∀ e, AppendErrorStr e zero = AppendErrorStr e InitJsonResponse)
  ∧ (∀ e, AppendError500 (Some e) zero = AppendError500 (Some e) InitJsonResponse)
  ∧ (∀ code, JsonSetStatus code zero = (Panicked, zero))
  ∧ (∀ key value, JsonSetHeader key value zero = (Panicked, zero))
  ∧ (∀ code, (JsonSetStatus code InitJsonResponse).1 = Returned ())
  ∧ (∀ blob mime name w,
       Write (RBlob (mkBlob None blob mime name)) w = (Panicked, w))
  ∧ (∀ location w,
       Write (RRedirect (mkRedirect None location)) w = (Panicked, w)).
Proof.
  cbv zeta.
  assert (ensure (mkJson None None) = InitJsonResponse) as Hz by reflexivity.
  assert (ensure InitJsonResponse = InitJsonResponse) as Hi by reflexivity.
  repeat split; intros;
    unfold JsonWrite, JsonSet, SetSession, AppendErrorStr, AppendError500;
    rewrite ?Hz, ?Hi; reflexivity.
Qed.

(** ** Parameter validation *)

Section PostProperties.

Variable PostFormValue : Request → string → string.
Variable TrimSpace : string → string.
Variable Atoi : string → option Z.
Variable ParseFloat : string → option Post.f64.
Variable timeParse : string → string → option Time.

Local Abbreviation paramError :=
  (Post.paramError PostFormValue TrimSpace Atoi ParseFloat timeParse).
Local Abbreviation assertLoop :=
  (Post.assertLoop PostFormValue TrimSpace Atoi ParseFloat timeParse).
Local Abbreviation Assert :=
  (Post.Assert PostFormValue TrimSpace Atoi ParseFloat timeParse).

Lemma assertLoop_omap r ps errs :
  assertLoop r ps errs = (errs ++ omap (paramError r) ps)%list.
Proof.
  revert errs. induction ps as [|p ps IH]; intros errs; simpl.
  { by rewrite app_nil_r. }
  rewrite IH. destruct (paramError r p) as [e|]; [|done].
  by rewrite <- app_assoc.
Qed.

(** X29.  [Assert] reports at most one error per parameter, in the order
    in which the parameters were added, and answers [true] exactly when
    every parameter passes; adding a parameter leaves the errors of the
    earlier ones as they were and puts its own error, if any, last. *)
Theorem X29_assert_reports_in_order (pa : Post.PostAssert)
    (name : string) (typ : Post.PostFieldType) (required : bool) :
  (Assert pa).1 = omap (paramError (Post.pr pa)) (Post.params pa)
  ∧ ((Assert pa).2 = true
     ↔ Forall (λ p, paramError (Post.pr pa) p = None) (Post.params pa))
  ∧ (List.length (Assert pa).1 ≤ List.length (Post.params pa))%nat
  ∧ (Assert (Post.AddParameter name typ required pa)).1
    = ((Assert pa).1
       ++ match paramError (Post.pr pa) (Post.mkPostParam name typ required) with
          | Some e => [e]
          | None => []
          end)%list.
Proof.
  assert (∀ pa', (Assert pa').1
                 = omap (paramError (Post.pr pa')) (Post.params pa')) as Herrs.
  { intros pa'. unfold Post.Assert. simpl. by rewrite assertLoop_omap. }
  split; [apply Herrs|]. split; [|split].
  - unfold Post.Assert. simpl. rewrite assertLoop_omap. simpl.
    rewrite bool_decide_eq_true.
    induction (Post.params pa) as [|p ps IH]; simpl.
    + split; [constructor|done].
    + destruct (paramError (Post.pr pa) p) as [e|] eqn:Hp; simpl.
      * split; [done|]. intros H. apply List.Forall_inv in H. congruence.
      * rewrite IH. split; [by constructor|]. intros H.
        by apply Forall_cons in H as [_ H].
  - rewrite Herrs. induction (Post.params pa) as [|p ps IH]; simpl; [done|].
    destruct (paramError (Post.pr pa) p); simpl;
      [apply le_n_S, IH|apply Nat.le_le_succ_r, IH].
  - rewrite !Herrs. simpl. rewrite omap_app. simpl.
    by destruct (paramError (Post.pr pa) (Post.mkPostParam name typ required)).
Qed.

(** X30.  A value that parses as NaN passes both float range checks: for a
    parameter of type [POSITIVE_FLOAT] or [PERC_FLOAT] whose trimmed value
    is not empty and for which [strconv.ParseFloat] returns NaN without an
    error, [Assert] reports no error, since [f <= 0], [f < 0] and [f > 1]
    are all false. *)
Theorem X30_nan_passes_range_checks (r : Request) (p : Post.PostParam) :
  TrimSpace (PostFormValue r (Post.Name p)) ≠ "" →
  ParseFloat (TrimSpace (PostFormValue r (Post.Name p))) = Some Post.FNaN →
  Post.Type_ p = Post.POSITIVE_FLOAT ∨ Post.Type_ p = Post.PERC_FLOAT →
  Assert (Post.mkPostAssert r [p]) = ([], true).
Proof.
  intros Hval Hnan Htype.
  assert (paramError r p = None) as Hp.
  { unfold Post.paramError.
    destruct (decide (TrimSpace (PostFormValue r (Post.Name p)) = ""));
      [done|].
    destruct Htype as [-> | ->]; by rewrite Hnan. }
  unfold Post.Assert. simpl. by rewrite Hp.
Qed.

End PostProperties.

Lemma X30_witness :
  Post.Assert (λ _ _, " NaN ") (λ _, "NaN") (λ _, None)
    (λ s, if decide (s = "NaN") then Some Post.FNaN else None) (λ _ _, None)
    (Post.mkPostAssert exNoCookie
       [Post.mkPostParam "discount" Post.PERC_FLOAT true])
  = ([], true).
Proof.
  apply (X30_nan_passes_range_checks (λ _ _, " NaN ") (λ _, "NaN") (λ _, None)
           (λ s, if decide (s = "NaN") then Some Post.FNaN else None)
           (λ _ _, None) exNoCookie
           (Post.mkPostParam "discount" Post.PERC_FLOAT true)).
  - discriminate.
  - reflexivity.
  - by right.
Defined.
